(** * x2doc: conversion between the nested XML dialect and flat Word documents

    A shallow embedding of [src/main/document.py] and [src/main/tasks.py].

    Conventions of the embedding.
    - A Python [str] is a [string]; its characters are the code points
      below 256.
    - Heading levels are [Z] (Python [int]; [int("-1")] is accepted by the
      source), list indices are [nat].
    - A call that may raise returns an [outcome].
    - The flat-document paths ([from_word], [to_word]) carry the records the
      logger emits at level WARNING or ERROR (the diagnostics); INFO and
      DEBUG traces, and the log of the tree-format paths, are left out.
    - The XML library and the builtin [float] are external: they are the
      classes [ElementTreeLib] and [FloatParser], with a reference instance
      of each for closed examples.
    - A Word document is the list of its blocks.  While it is written it
      holds the texts assigned, once opened the texts read; python-docx keeps
      a text as XML, so that it refuses a control character and reads a
      carriage return back as a line feed, and the body of a document it
      made ends with the section properties.  [saved_body] takes a written
      document to the body read from its file.  The refusal is modelled
      where a paragraph or a heading is added; the cells of a table are
      taken as assigned. *)

From Stdlib Require Import String Ascii List ZArith Lia Bool Arith.
From Stdlib Require Import DecimalString DecimalNat Floats.
Import ListNotations.
Set Warnings "-register-all".
Open Scope string_scope.
Open Scope list_scope.

(** ** Python builtins used by the source *)

Module Py.

(** [str.isspace] on one character, for code points below 256. *)
Definition is_space (c : ascii) : bool :=
  let n := nat_of_ascii c in
  (((9 <=? n) && (n <=? 13)) || ((28 <=? n) && (n <=? 32))
   || (n =? 133) || (n =? 160))%nat.

Fixpoint lstrip (s : string) : string :=
  match s with
  | EmptyString => EmptyString
  | String c r => if is_space c then lstrip r else s
  end.

Fixpoint rstrip (s : string) : string :=
  match s with
  | EmptyString => EmptyString
  | String c r =>
      match rstrip r with
      | EmptyString => if is_space c then EmptyString else String c EmptyString
      | r' => String c r'
      end
  end.

(** [s.strip()] *)
Definition strip (s : string) : string := rstrip (lstrip s).

(** [s.startswith(p)] *)
Definition startswith (p s : string) : bool := String.prefix p s.

(** Truth value of a string: [bool(s)]. *)
Definition truthy (s : string) : bool :=
  match s with EmptyString => false | _ => true end.

Fixpoint split_from (cur s : string) : list string :=
  match s with
  | EmptyString => if truthy cur then [cur] else []
  | String c r =>
      if is_space c
      then (if truthy cur then cur :: split_from EmptyString r
            else split_from EmptyString r)
      else split_from (cur ++ String c EmptyString) r
  end.

(** [s.split()]: the maximal runs of non-whitespace characters. *)
Definition split (s : string) : list string := split_from EmptyString s.

(** [l[-1]]; [None] stands for IndexError. *)
Definition last_item {A} (l : list A) : option A :=
  match rev l with [] => None | x :: _ => Some x end.

Definition digit_value (c : ascii) : option Z :=
  let n := nat_of_ascii c in
  if ((48 <=? n) && (n <=? 57))%nat then Some (Z.of_nat (n - 48)) else None.

Definition is_underscore (c : ascii) : bool := (nat_of_ascii c =? 95)%nat.

(** Digits with single underscores between them; [prev] tells whether the
    previous character was a digit. *)
Fixpoint digits (s : string) (acc : Z) (prev : bool) : option Z :=
  match s with
  | EmptyString => if prev then Some acc else None
  | String c r =>
      match digit_value c with
      | Some d => digits r (10 * acc + d) true
      | None => if is_underscore c && prev then digits r acc false else None
      end
  end.

(** [int(s)] in base 10; [None] stands for ValueError. *)
Definition int (s : string) : option Z :=
  match strip s with
  | String "+" r => digits r 0 false
  | String "-" r => option_map Z.opp (digits r 0 false)
  | r => digits r 0 false
  end.

(** [str(n)] for a non-negative index. *)
Definition str_of_nat (n : nat) : string :=
  NilEmpty.string_of_uint (Nat.to_uint n).

End Py.

(** ** Outcomes of calls that may raise *)

Inductive exn : Type :=
| ParseError        (* xml.etree.ElementTree.ParseError *)
| AttributeError
| TypeError
| ValueError
| OverflowError
| FileNotFoundError
| UnicodeDecodeError.

Inductive outcome (A : Type) : Type :=
| Ok (a : A)
| Raise (e : exn).
Arguments Ok {A} a.
Arguments Raise {A} e.

Definition bind {A B} (m : outcome A) (f : A -> outcome B) : outcome B :=
  match m with
  | Ok a => f a
  | Raise e => Raise e
  end.

Notation "x <- m ;; k" := (bind m (fun x => k))
  (at level 61, m at next level, right associativity).

(** ** Diagnostics *)

Inductive severity : Type := WARNING | ERROR.

Record LogRecord : Type := mkLog { log_level : severity; log_message : string }.

(** ** The element model *)

Record Paragraph : Type := mkParagraph { text : string }.

Record Table : Type := mkTable {
  columns : list (option string * option string);
  rows : list (list string)
}.

Inductive DocumentElement : Type :=
| EChapter (title id_ : string) (elements : list DocumentElement)
| ETable (t : Table)
| EParagraph (p : Paragraph).

Record Chapter : Type := mkChapter {
  title : string;
  id_ : string;
  elements : list DocumentElement
}.

Record Document : Type := mkDocument {
  doc_title : string;
  doc_elements : list DocumentElement
}.

(** A [Chapter] seen as a [DocumentElement]. *)
Definition of_chapter (c : Chapter) : DocumentElement :=
  EChapter (title c) (id_ c) (elements c).

(** [Paragraph.__init__] *)
Definition Paragraph_init (text : string) : Paragraph :=
  mkParagraph (Py.strip text).

(** [Chapter.__init__]; [elements or []] is the list itself. *)
Definition Chapter_init (title id_ : string) (elements : list DocumentElement)
  : Chapter :=
  mkChapter (Py.strip title) id_ elements.

(** [Document.__init__] *)
Definition Document_init (title : string) (elements : list DocumentElement)
  : Document :=
  mkDocument (Py.strip title) elements.

(** ** The flat document (python-docx) as the source reads and writes it *)

(** [docx.shared.Length]: an integer number of English Metric Units. *)
Record Length : Type := Emu { emu : Z }.

(** A paragraph.  In a document that is being written [par_text] is the text
    that was assigned; in a document that was opened it is the text that is
    read ([block.text]).  [paragraph_as_read] below takes the one to the
    other. *)
Record DocxParagraph : Type := mkDocxParagraph {
  style_name : string;   (* block.style.name *)
  par_text : string      (* block.text *)
}.

(** A cell, its text as for a paragraph (assigned when written, read when
    opened); [cell_width = None] when the width was never assigned. *)
Record DocxCell : Type := mkDocxCell {
  cell_text : string;
  cell_width : option Length
}.

Record DocxTable : Type := mkDocxTable { table_rows : list (list DocxCell) }.

(** What a block list may hold: a paragraph, a table, or an object of another
    type, of which only the type name is seen. *)
Inductive Block : Type :=
| BParagraph (p : DocxParagraph)
| BTable (t : DocxTable)
| BOther (type_name : string).

(** *** Texts in python-docx *)

(** python-docx keeps the text of a paragraph or of a cell as XML.  Among the
    code points below 256, XML admits the tab, the line feed, the carriage
    return and everything from the space on. *)
Definition xml_char (c : ascii) : bool :=
  let n := nat_of_ascii c in
  ((32 <=? n) || (n =? 9) || (n =? 10) || (n =? 13))%nat.

(** A text python-docx accepts: assigning any other text raises ValueError. *)
Fixpoint xml_compatible (s : string) : bool :=
  match s with
  | EmptyString => true
  | String c r => xml_char c && xml_compatible r
  end.

(** The text read back after [s] was assigned: a carriage return is kept as
    a line break, as a line feed is, and a line break reads as a line feed. *)
Fixpoint text_as_read (s : string) : string :=
  match s with
  | EmptyString => EmptyString
  | String c r =>
      String (if (nat_of_ascii c =? 13)%nat then ascii_of_nat 10 else c)
             (text_as_read r)
  end.

(** *** [Table.from_word] and [Paragraph.from_word] *)

Definition Table_from_word (table : DocxTable) : Table :=
  match table_rows table with
  | [] => mkTable [] []
  | header_cells :: data =>
      mkTable
        (map (fun cell => (Some (Py.strip (cell_text cell)), None)) header_cells)
        (map (map (fun cell => Py.strip (cell_text cell))) data)
  end.

Definition Paragraph_from_word (paragraph : DocxParagraph) : Paragraph :=
  Paragraph_init (par_text paragraph).

(** *** [Chapter.from_word] *)

(** [int(block.style.name.split()[-1])]; [None] when IndexError or ValueError
    is raised. *)
Definition parse_heading_level (name : string) : option Z :=
  match Py.last_item (Py.split name) with
  | None => None
  | Some token => Py.int token
  end.

(** [chapters.append(current_chapter)] under [if current_chapter is not None]. *)
Definition close_out (chapters : list Chapter) (current_chapter : option Chapter)
  : list Chapter :=
  match current_chapter with
  | Some c => chapters ++ [c]
  | None => chapters
  end.

(** [current_chapter.elements.extend(es)] under
    [if current_chapter is not None]. *)
Definition extend_current (current_chapter : option Chapter)
    (es : list DocumentElement) : option Chapter :=
  match current_chapter with
  | Some c => Some (mkChapter (title c) (id_ c) (elements c ++ es))
  | None => None
  end.

Definition chapter_id (current_index : nat) : string :=
  "chapter-" ++ Py.str_of_nat current_index.

Definition invalid_heading (name : string) : LogRecord :=
  mkLog ERROR ("Invalid heading style format: '" ++ name ++ "'").

Definition unknown_block (current_index : nat) (type_name : string) : LogRecord :=
  mkLog WARNING ("Unknown block type at index " ++ Py.str_of_nat current_index
                 ++ ": " ++ type_name).

(** The state the [while] loop of [Chapter.from_word] carries. *)
Record ParseState : Type := mkParseState {
  st_index : nat;                       (* current_index *)
  st_chapters : list Chapter;           (* chapters *)
  st_current : option Chapter;          (* current_chapter *)
  st_log : list LogRecord
}.

(** The result of [Chapter.from_word]: [(chapters, current_index)] and the
    diagnostics logged so far. *)
Record ParseResult : Type := mkParseResult {
  res_chapters : list Chapter;
  res_index : nat;
  res_log : list LogRecord
}.

(** The code after the loop: close out the current chapter and return. *)
Definition finish (st : ParseState) : ParseResult :=
  mkParseResult (close_out (st_chapters st) (st_current st))
                (st_index st) (st_log st).

(** The [while] loop of [Chapter.from_word].  One unit of [fuel] is spent on
    each evaluation of the loop condition; [None] means the fuel ran out.  The
    recursive call of the source starts a fresh loop at the same index with
    empty [chapters] and no current chapter. *)
Fixpoint from_word_loop (fuel : nat) (paragraphs : list Block)
    (heading_level : Z) (st : ParseState) : option ParseResult :=
  match fuel with
  | O => None
  | S fuel' =>
      let current_index := st_index st in
      match nth_error paragraphs current_index with
      | None => Some (finish st)
      | Some (BParagraph block) =>
          if Py.startswith "Heading" (style_name block) then
            match parse_heading_level (style_name block) with
            | None =>
                from_word_loop fuel' paragraphs heading_level
                  (mkParseState (S current_index) (st_chapters st)
                     (st_current st)
                     (st_log st ++ [invalid_heading (style_name block)]))
            | Some current_heading_level =>
                if (current_heading_level <? heading_level)%Z then
                  Some (finish st)
                else if (current_heading_level =? heading_level)%Z then
                  from_word_loop fuel' paragraphs heading_level
                    (mkParseState (S current_index)
                       (close_out (st_chapters st) (st_current st))
                       (Some (Chapter_init (par_text block)
                                (chapter_id current_index) []))
                       (st_log st))
                else
                  match from_word_loop fuel' paragraphs current_heading_level
                          (mkParseState current_index [] None (st_log st)) with
                  | None => None
                  | Some sub =>
                      from_word_loop fuel' paragraphs heading_level
                        (mkParseState (res_index sub) (st_chapters st)
                           (extend_current (st_current st)
                              (map of_chapter (res_chapters sub)))
                           (res_log sub))
                  end
            end
          else
            from_word_loop fuel' paragraphs heading_level
              (mkParseState (S current_index) (st_chapters st)
                 (if Py.truthy (Py.strip (par_text block))
                  then extend_current (st_current st)
                         [EParagraph (Paragraph_from_word block)]
                  else st_current st)
                 (st_log st))
      | Some (BTable block) =>
          from_word_loop fuel' paragraphs heading_level
            (mkParseState (S current_index) (st_chapters st)
               (extend_current (st_current st) [ETable (Table_from_word block)])
               (st_log st))
      | Some (BOther type_name) =>
          from_word_loop fuel' paragraphs heading_level
            (mkParseState (S current_index) (st_chapters st) (st_current st)
               (st_log st ++ [unknown_block current_index type_name]))
      end
  end.

(** Fuel that is always enough for a call starting at [current_index]. *)
Definition enough_fuel (paragraphs : list Block) (current_index : nat) : nat :=
  2 * (length paragraphs - current_index) + 2.

(** [Chapter.from_word(paragraphs, current_index, heading_level, _)], with the
    diagnostics logged before the call in [log]. *)
Definition Chapter_from_word (paragraphs : list Block) (current_index : nat)
    (heading_level : Z) (log : list LogRecord) : option ParseResult :=
  from_word_loop (enough_fuel paragraphs current_index) paragraphs heading_level
    (mkParseState current_index [] None log).

(** *** [iter_block_items] and [Document.from_word] *)

(** The body of a Word document: its children in document order, [BOther]
    standing for a child that is neither a paragraph nor a table. *)
Definition DocxDocument : Type := list Block.

Definition unknown_child (type_name : string) : LogRecord :=
  mkLog WARNING ("Unknown child type encountered: " ++ type_name).

(** [list(iter_block_items(docx_document))] and the warnings it logs. *)
Fixpoint iter_block_items (body : DocxDocument) : list Block * list LogRecord :=
  match body with
  | [] => ([], [])
  | BOther type_name :: rest =>
      let '(blocks, log) := iter_block_items rest in
      (blocks, unknown_child type_name :: log)
  | child :: rest =>
      let '(blocks, log) := iter_block_items rest in
      (child :: blocks, log)
  end.

(** The state the [while] loop of [Document.from_word] carries. *)
Record DocState : Type := mkDocState {
  ds_index : nat;                 (* index *)
  ds_chapters : list Chapter;     (* chapters *)
  ds_title : option string;       (* title *)
  ds_log : list LogRecord
}.

Definition is_title_block (block : Block) : option DocxParagraph :=
  match block with
  | BParagraph p => if Py.startswith "Title" (style_name p) then Some p else None
  | _ => None
  end.

(** The [while] loop of [Document.from_word]; one unit of [fuel] for each
    evaluation of the loop condition, [None] when the fuel ran out. *)
Fixpoint Document_from_word_loop (fuel : nat) (blocks : list Block)
    (st : DocState) : option DocState :=
  match fuel with
  | O => None
  | S fuel' =>
      match nth_error blocks (ds_index st) with
      | None => Some st
      | Some block =>
          match is_title_block block with
          | Some p =>
              Document_from_word_loop fuel' blocks
                (mkDocState (S (ds_index st)) (ds_chapters st)
                   (Some (Py.strip (par_text p))) (ds_log st))
          | None =>
              match Chapter_from_word blocks (ds_index st) 1 (ds_log st) with
              | None => None
              | Some r =>
                  Document_from_word_loop fuel' blocks
                    (mkDocState (res_index r)
                       (ds_chapters st ++ res_chapters r)
                       (ds_title st) (res_log r))
              end
          end
      end
  end.

Definition no_title : LogRecord :=
  mkLog WARNING "No title found in the Word document. Using default title.".

(** [Document.from_word] on the body of the file it opened, with the
    diagnostics it logs; [None] when [fuel] iterations of the top-level loop
    were not enough. *)
Definition Document_from_word (fuel : nat) (body : DocxDocument)
  : option (Document * list LogRecord) :=
  let '(blocks, log0) := iter_block_items body in
  match Document_from_word_loop fuel blocks (mkDocState 0 [] None log0) with
  | None => None
  | Some st =>
      let chapters := map of_chapter (ds_chapters st) in
      match ds_title st with
      | Some (String c r) => Some (Document_init (String c r) chapters, ds_log st)
      | _ => Some (Document_init "Untitled Document" chapters,
                   ds_log st ++ [no_title])
      end
  end.

(** ** The tree format (xml.etree.ElementTree) *)

(** [ET.Element]: tag, attributes in insertion order, text and children. *)
Inductive Element : Type :=
| mkElement (tag : string) (attrib : list (string * string))
            (etext : option string) (children : list Element).

Definition tag (e : Element) : string :=
  match e with mkElement t _ _ _ => t end.
Definition attrib (e : Element) : list (string * string) :=
  match e with mkElement _ a _ _ => a end.
Definition etext (e : Element) : option string :=
  match e with mkElement _ _ t _ => t end.
Definition children (e : Element) : list Element :=
  match e with mkElement _ _ _ c => c end.

(** [d.get(key)] *)
Fixpoint get (d : list (string * string)) (key : string) : option string :=
  match d with
  | [] => None
  | (k, v) :: rest => if String.eqb k key then Some v else get rest key
  end.

(** [d.get(key, default)] *)
Definition get_default (d : list (string * string)) (key default : string)
  : string :=
  match get d key with Some v => v | None => default end.

(** [e.findall(name)]: the direct children with that tag. *)
Definition findall (name : string) (e : Element) : list Element :=
  filter (fun child => String.eqb (tag child) name) (children e).

(** [e.find(name)]: the first such child. *)
Definition find (name : string) (e : Element) : option Element :=
  List.find (fun child => String.eqb (tag child) name) (children e).

(** [t or ""] *)
Definition text_or_empty (t : option string) : string :=
  match t with Some s => s | None => "" end.

(** The XML library, an external capability: serialising a tree to text and
    parsing text into a tree ([ET.tostring(_, encoding='unicode')] and
    [ET.fromstring], which raises ParseError on text that is not XML). *)
Class ElementTreeLib : Type := {
  xml_text : Type;
  tostring : Element -> xml_text;
  fromstring : xml_text -> outcome Element
}.

(** What parsing the serialisation of a tree gives back: an empty text is
    written as no text at all and read back as [None]. *)
Fixpoint reparsed (e : Element) : Element :=
  match e with
  | mkElement t a txt cs =>
      mkElement t a
        (match txt with Some EmptyString => None | _ => txt end)
        (map reparsed cs)
  end.

(** A reference library: a text is either the serialisation of a tree or not
    XML at all. *)
Inductive RefText : Type :=
| Serialised (root : Element)
| NotXml (raw : string).

#[export] Instance RefElementTree : ElementTreeLib := {
  xml_text := RefText;
  tostring := fun e => Serialised (reparsed e);
  fromstring := fun s =>
    match s with
    | Serialised root => Ok root
    | NotXml _ => Raise ParseError
    end
}.

(** *** [from_xml] *)

(** [Paragraph.from_xml] *)
Definition Paragraph_from_xml (paragraph_element : Element) : Paragraph :=
  Paragraph_init (text_or_empty (etext paragraph_element)).

(** [Table.from_xml]; [find('columns')] returning [None] makes the call of
    [findall] on it raise AttributeError. *)
Definition Table_from_xml (table_element : Element) : outcome Table :=
  match find "columns" table_element with
  | None => Raise AttributeError
  | Some columns_element =>
      let columns :=
        map (fun col => (etext col, get (attrib col) "width"))
            (findall "column" columns_element) in
      let rows :=
        match find "rows" table_element with
        | None => []
        | Some rows_element =>
            map (fun row =>
                   map (fun cell => text_or_empty (etext cell))
                       (findall "cell" row))
                (findall "row" rows_element)
        end in
      Ok (mkTable columns rows)
  end.

(** The loop of [Chapter.from_xml] over the children of the element, given
    the recursive call; children with an unknown tag are skipped. *)
Definition elements_from_xml (from_chapter : Element -> outcome Chapter)
  : list Element -> outcome (list DocumentElement) :=
  fix each_child (cs : list Element) : outcome (list DocumentElement) :=
    match cs with
    | [] => Ok []
    | child :: rest =>
        if String.eqb (tag child) "chapter" then
          c <- from_chapter child ;;
          es <- each_child rest ;;
          Ok (of_chapter c :: es)
        else if String.eqb (tag child) "table" then
          t <- Table_from_xml child ;;
          es <- each_child rest ;;
          Ok (ETable t :: es)
        else if String.eqb (tag child) "paragraph" then
          es <- each_child rest ;;
          Ok (EParagraph (Paragraph_from_xml child) :: es)
        else each_child rest
    end.

(** [Chapter.from_xml] *)
Fixpoint Chapter_from_xml (chapter_element : Element) : outcome Chapter :=
  match chapter_element with
  | mkElement _ attrs _ cs =>
      let title := get_default attrs "title" "Untitled Chapter" in
      let id_ := get_default attrs "id" "unknown-id" in
      elements <- elements_from_xml Chapter_from_xml cs ;;
      Ok (Chapter_init title id_ elements)
  end.

(** The loop of [Document.from_xml] over [root.findall('chapter')]. *)
Fixpoint chapters_from_xml (chapter_elements : list Element)
  : outcome (list DocumentElement) :=
  match chapter_elements with
  | [] => Ok []
  | chapter_element :: rest =>
      c <- Chapter_from_xml chapter_element ;;
      es <- chapters_from_xml rest ;;
      Ok (of_chapter c :: es)
  end.

(** [Document.from_xml] on the parsed root. *)
Definition Document_from_root (root : Element) : outcome Document :=
  let title := get_default (attrib root) "title" "Untitled Document" in
  elements <- chapters_from_xml (findall "chapter" root) ;;
  Ok (Document_init title elements).

(** [Document.from_xml] *)
Definition Document_from_xml `{ElementTreeLib} (xml_string : xml_text)
  : outcome Document :=
  root <- fromstring xml_string ;;
  Document_from_root root.

(** *** [to_xml] *)

(** [Paragraph.to_xml] *)
Definition Paragraph_to_xml (p : Paragraph) : Element :=
  mkElement "paragraph" [] (Some (text p)) [].

(** [Table.to_xml]; the [width] attribute is written only for a width that is
    a non-empty string. *)
Definition Table_to_xml (t : Table) : Element :=
  let column '(col, width) :=
    let col_attrib :=
      match width with
      | Some (String c r) => [("width", String c r)]
      | _ => []
      end in
    mkElement "column" col_attrib col [] in
  let row (cells : list string) :=
    mkElement "row" [] None
      (map (fun cell => mkElement "cell" [] (Some cell) []) cells) in
  mkElement "table" [] None
    [ mkElement "columns" [] None (map column (columns t));
      mkElement "rows" [] None (map row (rows t)) ].

(** [to_xml] of an element, by its class; [Chapter.to_xml] recurses. *)
Fixpoint DocumentElement_to_xml (e : DocumentElement) : Element :=
  match e with
  | EChapter title id_ elements =>
      mkElement "chapter" [("title", title); ("id", id_)] None
        (map DocumentElement_to_xml elements)
  | ETable t => Table_to_xml t
  | EParagraph p => Paragraph_to_xml p
  end.

Definition Chapter_to_xml (c : Chapter) : Element :=
  DocumentElement_to_xml (of_chapter c).

(** The tree [Document.to_xml] builds before serialising it. *)
Definition Document_to_root (d : Document) : Element :=
  mkElement "document" [("title", doc_title d)] None
    (map DocumentElement_to_xml (doc_elements d)).

(** [Document.to_xml] *)
Definition Document_to_xml `{ElementTreeLib} (d : Document) : xml_text :=
  tostring (Document_to_root d).

(** ** Flattening: [to_word] *)

(** [TOTAL_TABLE_WIDTH_CM] *)
Definition TOTAL_TABLE_WIDTH_CM : float := 15%float.

(** The builtin [float(s)] on a string, an external capability; [None]
    stands for ValueError. *)
Class FloatParser : Type := { py_float : string -> option float }.

(** [int(x)] on a float: truncation towards zero; NaN raises ValueError and
    an infinity OverflowError. *)
Definition int_of_float (x : float) : outcome Z :=
  match Prim2SF x with
  | S754_nan => Raise ValueError
  | S754_infinity _ => Raise OverflowError
  | S754_zero _ => Ok 0%Z
  | S754_finite s m e =>
      let magnitude :=
        if (0 <=? e)%Z then (Zpos m * 2 ^ e)%Z else (Zpos m / 2 ^ (- e))%Z in
      Ok (if s then (- magnitude)%Z else magnitude)
  end.

(** [docx.shared.Cm(cm)]: [int(cm * 360000)] English Metric Units. *)
Definition Cm (cm : float) : outcome Length :=
  e <- int_of_float (cm * 360000)%float ;;
  Ok (Emu e).

(** The document being written and the diagnostics logged so far. *)
Record WordState : Type := mkWordState {
  ws_docx : DocxDocument;
  ws_log : list LogRecord
}.

(** [docx_document.add_heading(text, level)]: levels outside 0..9 raise
    ValueError, level 0 is the style Title; a text python-docx does not
    accept raises ValueError too. *)
Definition add_heading (text : string) (level : Z) (docx_document : DocxDocument)
  : outcome DocxDocument :=
  if ((0 <=? level) && (level <=? 9))%Z then
    let style :=
      if (level =? 0)%Z then "Title"
      else ("Heading " ++ Py.str_of_nat (Z.to_nat level))%string in
    if xml_compatible text then
      Ok (docx_document ++ [BParagraph (mkDocxParagraph style text)])
    else Raise ValueError
  else Raise ValueError.

(** [docx_document.add_paragraph(text)]; a text python-docx does not accept
    raises ValueError. *)
Definition add_paragraph (text : string) (docx_document : DocxDocument)
  : outcome DocxDocument :=
  if xml_compatible text then
    Ok (docx_document ++ [BParagraph (mkDocxParagraph "Normal" text)])
  else Raise ValueError.

Definition no_columns : LogRecord :=
  mkLog WARNING "No columns defined for the table.".

(** The name of a column as an f-string prints it. *)
Definition show_name (col : option string) : string :=
  match col with Some s => s | None => "None" end.

Definition invalid_width (width : string) (col : option string) : LogRecord :=
  mkLog WARNING ("Invalid width value '" ++ width ++ "' for column '"
                 ++ show_name col ++ "'.").

Section Flatten.

Context `{FloatParser}.

(** The body of the loop over [enumerate(self.columns)]: the header cell of
    one column and the diagnostics it adds.  Assigning [None] to the text
    of a cell raises TypeError. *)
Definition header_cell (column : option string * option string)
    (log : list LogRecord) : outcome (DocxCell * list LogRecord) :=
  let '(col, width) := column in
  match col with
  | None => Raise TypeError
  | Some name =>
      match width with
      | Some (String c r) =>
          let width := String c r in
          match py_float width with
          | None => Ok (mkDocxCell name None, log ++ [invalid_width width col])
          | Some width_percentage =>
              let column_width_cm :=
                (width_percentage / 100 * TOTAL_TABLE_WIDTH_CM)%float in
              match Cm column_width_cm with
              | Ok w => Ok (mkDocxCell name (Some w), log)
              | Raise ValueError =>
                  Ok (mkDocxCell name None, log ++ [invalid_width width col])
              | Raise e => Raise e
              end
          end
      | _ => Ok (mkDocxCell name None, log)
      end
  end.

Fixpoint header_cells (columns : list (option string * option string))
    (log : list LogRecord) : outcome (list DocxCell * list LogRecord) :=
  match columns with
  | [] => Ok ([], log)
  | column :: rest =>
      r <- header_cell column log ;;
      rs <- header_cells rest (snd r) ;;
      Ok (fst r :: fst rs, snd rs)
  end.

(** One data row: as many cells as there are columns, cell [i] holding
    [row_data[i]] when there is one. *)
Definition data_row (ncols : nat) (row_data : list string) : list DocxCell :=
  map (fun i => mkDocxCell (nth i row_data "") None) (seq 0 ncols).

(** [Table.to_word] *)
Definition Table_to_word (self : Table) (st : WordState) : outcome WordState :=
  match columns self with
  | [] => Ok (mkWordState (ws_docx st) (ws_log st ++ [no_columns]))
  | _ =>
      hdr <- header_cells (columns self) (ws_log st) ;;
      let table :=
        mkDocxTable
          (fst hdr :: map (data_row (length (columns self))) (rows self)) in
      Ok (mkWordState (ws_docx st ++ [BTable table]) (snd hdr))
  end.

(** [Paragraph.to_word] *)
Definition Paragraph_to_word (self : Paragraph) (st : WordState)
  : outcome WordState :=
  docx <- add_paragraph (text self) (ws_docx st) ;;
  Ok (mkWordState docx (ws_log st)).

(** [element.to_word(docx_document, level)], by the class of the element;
    [Chapter.to_word] writes its heading and then its elements one level
    down. *)
Fixpoint DocumentElement_to_word (e : DocumentElement) (level : Z)
    (st : WordState) : outcome WordState :=
  match e with
  | EChapter title _ elements =>
      docx <- add_heading title level (ws_docx st) ;;
      (fix each (es : list DocumentElement) (st : WordState)
         : outcome WordState :=
         match es with
         | [] => Ok st
         | element :: rest =>
             st' <- DocumentElement_to_word element (level + 1)%Z st ;;
             each rest st'
         end) elements (mkWordState docx (ws_log st))
  | ETable t => Table_to_word t st
  | EParagraph p => Paragraph_to_word p st
  end.

Fixpoint elements_to_word (es : list DocumentElement) (level : Z)
    (st : WordState) : outcome WordState :=
  match es with
  | [] => Ok st
  | element :: rest =>
      st' <- DocumentElement_to_word element level st ;;
      elements_to_word rest level st'
  end.

(** [Document.to_word] up to the call of [save]: the paragraphs and tables
    of the document built in memory, in order, with the texts assigned.  The
    body of a document made by [DocxDocument()] holds its section properties
    as well, after them: they are no block, and [saved_body] below puts them
    where the file has them. *)
Definition Document_to_word (self : Document) : outcome WordState :=
  docx <- add_heading (doc_title self) 0 [] ;;
  elements_to_word (doc_elements self) 1 (mkWordState docx []).

End Flatten.

(** *** A written document, opened again *)

Definition paragraph_as_read (p : DocxParagraph) : DocxParagraph :=
  mkDocxParagraph (style_name p) (text_as_read (par_text p)).

Definition cell_as_read (cell : DocxCell) : DocxCell :=
  mkDocxCell (text_as_read (cell_text cell)) (cell_width cell).

Definition table_as_read (table : DocxTable) : DocxTable :=
  mkDocxTable (map (map cell_as_read) (table_rows table)).

Definition block_as_read (block : Block) : Block :=
  match block with
  | BParagraph p => BParagraph (paragraph_as_read p)
  | BTable t => BTable (table_as_read t)
  | BOther type_name => BOther type_name
  end.

(** The section properties of the body, as [iter_block_items] names the
    child it does not know: [type(child)] of the element [w:sectPr]. *)
Definition section_properties_type : string :=
  "<class 'docx.oxml.section.CT_SectPr'>".

(** The children of the body [Document.from_word] finds in the file a
    document built by [Document.to_word] was saved to: the blocks with their
    texts as read, then the section properties. *)
Definition saved_body (docx_document : DocxDocument) : DocxDocument :=
  map block_as_read docx_document ++ [BOther section_properties_type].

(** ** The task [create_word_from_x2doc] and the files it touches *)

Section Tasks.

Context `{ElementTreeLib} `{FloatParser}.

(** What a file holds: text, or a saved Word document. *)
Inductive FileData : Type :=
| TextFile (content : xml_text)
| DocxFile (body : DocxDocument).

(** External storage: the file at each path, if there is one. *)
Definition FileSystem : Type := string -> option FileData.

(** [path.exists()] *)
Definition exists_ (fs : FileSystem) (path : string) : bool :=
  match fs path with Some _ => true | None => false end.

(** [os.remove(path)] *)
Definition remove (path : string) (fs : FileSystem) : FileSystem :=
  fun p => if String.eqb p path then None else fs p.

(** [docx_document.save(path)] *)
Definition save (path : string) (body : DocxDocument) (fs : FileSystem)
  : FileSystem :=
  fun p => if String.eqb p path then Some (DocxFile body) else fs p.

(** [path.read_text()] *)
Definition read_text (fs : FileSystem) (path : string) : outcome xml_text :=
  match fs path with
  | None => Raise FileNotFoundError
  | Some (TextFile content) => Ok content
  | Some (DocxFile _) => Raise UnicodeDecodeError
  end.

(** What a run of the task leaves behind: the storage, the lines printed
    and whether it returned or raised. *)
Record TaskRun : Type := mkTaskRun {
  run_fs : FileSystem;
  run_stdout : list string;
  run_result : outcome unit
}.

(** [create_word_from_x2doc(c, input_file, output_file)] *)
Definition create_word_from_x2doc (fs : FileSystem)
    (input_file output_file : string) : TaskRun :=
  if negb (exists_ fs input_file) then
    mkTaskRun fs ["File " ++ input_file ++ " does not exist"]%string (Ok tt)
  else
    let '(fs, stdout) :=
      if exists_ fs output_file then
        (remove output_file fs,
         ["File " ++ output_file ++ " already exists. Will be overwritten."]%string)
      else (fs, []) in
    match read_text fs input_file with
    | Raise e => mkTaskRun fs stdout (Raise e)
    | Ok xml_string =>
        match Document_from_xml xml_string with
        | Raise e => mkTaskRun fs stdout (Raise e)
        | Ok doc =>
            match Document_to_word doc with
            | Raise e => mkTaskRun fs stdout (Raise e)
            | Ok st =>
                mkTaskRun (save output_file (ws_docx st) fs) stdout (Ok tt)
            end
        end
    end.

End Tasks.

(** A reference parser of floats for the inputs used below: a string of
    decimal digits is the integer it denotes (below 2^53, exactly); any other
    string is taken as not a number. *)
Definition ref_float (s : string) : option float :=
  match Py.digits (Py.strip s) 0 false with
  | Some n =>
      if (n <? 2 ^ 53)%Z then Some (PrimFloat.of_uint63 (Uint63.of_Z n))
      else None
  | None => None
  end.

#[export] Instance RefFloatParser : FloatParser := { py_float := ref_float }.

(** ** Notions the statements below use *)

(** The loop of [Chapter.from_word] read off the blocks that remain: [rest]
    is [paragraphs[current_index:]], and the blocks left when the call returns
    come back with the result.  It computes what [from_word_loop] computes
    (lemma [suffix_loop_spec]). *)
Fixpoint suffix_loop (fuel : nat) (rest : list Block) (heading_level : Z)
    (st : ParseState) : option (ParseResult * list Block) :=
  match fuel with
  | O => None
  | S fuel' =>
      let current_index := st_index st in
      match rest with
      | [] => Some (finish st, [])
      | BParagraph block :: rest' =>
          if Py.startswith "Heading" (style_name block) then
            match parse_heading_level (style_name block) with
            | None =>
                suffix_loop fuel' rest' heading_level
                  (mkParseState (S current_index) (st_chapters st)
                     (st_current st)
                     (st_log st ++ [invalid_heading (style_name block)]))
            | Some current_heading_level =>
                if (current_heading_level <? heading_level)%Z then
                  Some (finish st, rest)
                else if (current_heading_level =? heading_level)%Z then
                  suffix_loop fuel' rest' heading_level
                    (mkParseState (S current_index)
                       (close_out (st_chapters st) (st_current st))
                       (Some (Chapter_init (par_text block)
                                (chapter_id current_index) []))
                       (st_log st))
                else
                  match suffix_loop fuel' rest current_heading_level
                          (mkParseState current_index [] None (st_log st)) with
                  | None => None
                  | Some (sub, rest'') =>
                      suffix_loop fuel' rest'' heading_level
                        (mkParseState (res_index sub) (st_chapters st)
                           (extend_current (st_current st)
                              (map of_chapter (res_chapters sub)))
                           (res_log sub))
                  end
            end
          else
            suffix_loop fuel' rest' heading_level
              (mkParseState (S current_index) (st_chapters st)
                 (if Py.truthy (Py.strip (par_text block))
                  then extend_current (st_current st)
                         [EParagraph (Paragraph_from_word block)]
                  else st_current st)
                 (st_log st))
      | BTable block :: rest' =>
          suffix_loop fuel' rest' heading_level
            (mkParseState (S current_index) (st_chapters st)
               (extend_current (st_current st) [ETable (Table_from_word block)])
               (st_log st))
      | BOther type_name :: rest' =>
          suffix_loop fuel' rest' heading_level
            (mkParseState (S current_index) (st_chapters st) (st_current st)
               (st_log st ++ [unknown_block current_index type_name]))
      end
  end.

(** A heading paragraph: a paragraph whose style name begins with Heading. *)
Definition is_heading (block : Block) : bool :=
  match block with
  | BParagraph p => Py.startswith "Heading" (style_name p)
  | _ => false
  end.

(** A heading paragraph whose level parses as [level]. *)
Definition is_heading_of_level (level : Z) (block : Block) : bool :=
  match block with
  | BParagraph p =>
      Py.startswith "Heading" (style_name p)
      && match parse_heading_level (style_name p) with
         | Some l => (l =? level)%Z
         | None => false
         end
  | _ => false
  end.

(** A heading paragraph whose level token does not parse as an integer. *)
Definition is_malformed_heading (block : Block) : bool :=
  match block with
  | BParagraph p =>
      Py.startswith "Heading" (style_name p)
      && match parse_heading_level (style_name p) with
         | Some _ => false
         | None => true
         end
  | _ => false
  end.

(** A paragraph that is not a heading and whose text is not blank. *)
Definition is_body_paragraph (block : Block) : bool :=
  match block with
  | BParagraph p =>
      negb (Py.startswith "Heading" (style_name p))
      && Py.truthy (Py.strip (par_text p))
  | _ => false
  end.

Definition block_text (block : Block) : string :=
  match block with
  | BParagraph p => par_text p
  | _ => ""
  end.

Definition block_style (block : Block) : string :=
  match block with
  | BParagraph p => style_name p
  | _ => ""
  end.

Definition is_chapter (e : DocumentElement) : bool :=
  match e with EChapter _ _ _ => true | _ => false end.

(** The subchapters of a chapter. *)
Definition subchapters (c : Chapter) : list DocumentElement :=
  filter is_chapter (elements c).

(** The elements [n] levels below an element in the tree. *)
Fixpoint descendants (n : nat) (e : DocumentElement) : list DocumentElement :=
  match n with
  | O => [e]
  | S k =>
      match e with
      | EChapter _ _ es => flat_map (descendants k) es
      | _ => []
      end
  end.

(** An element with the ids of all its chapters blanked. *)
Fixpoint forget_ids (e : DocumentElement) : DocumentElement :=
  match e with
  | EChapter title _ es => EChapter title "" (map forget_ids es)
  | _ => e
  end.

Definition forget_chapter_ids (c : Chapter) : Chapter :=
  mkChapter (title c) "" (map forget_ids (elements c)).

(** An element as the constructors of the model build it: titles and
    paragraph texts are stripped. *)
Fixpoint constructed (e : DocumentElement) : bool :=
  match e with
  | EChapter title _ es =>
      String.eqb (Py.strip title) title && forallb constructed es
  | ETable _ => true
  | EParagraph p => String.eqb (Py.strip (text p)) (text p)
  end.

Definition constructed_document (d : Document) : bool :=
  String.eqb (Py.strip (doc_title d)) (doc_title d)
  && forallb constructed (doc_elements d).

(** No column of a table in the element has the empty string as its name or
    as its width. *)
Definition column_kept (column : option string * option string) : bool :=
  match column with
  | (Some EmptyString, _) => false
  | (_, Some EmptyString) => false
  | _ => true
  end.

Fixpoint columns_kept (e : DocumentElement) : bool :=
  match e with
  | EChapter _ _ es => forallb columns_kept es
  | ETable t => forallb column_kept (columns t)
  | EParagraph _ => true
  end.

(** The log after the blocks [blocks], none of them a heading, were passed
    over with no chapter open, the first of them at index [i]: only objects
    that are neither paragraph nor table leave a warning. *)
Fixpoint skipped_log (i : nat) (blocks : list Block) (log : list LogRecord)
  : list LogRecord :=
  match blocks with
  | [] => log
  | BOther type_name :: rest =>
      skipped_log (S i) rest (log ++ [unknown_block i type_name])
  | _ :: rest => skipped_log (S i) rest log
  end.

(** No block of the list is a heading paragraph. *)
Definition no_heading (blocks : list Block) : bool :=
  forallb (fun b => negb (is_heading b)) blocks.

(** Index [i] of a sequence and index [j] of the sequence without its block
    at index [n] name the same position. *)
Definition same_position (n i j : nat) : Prop :=
  (i <= n /\ j = i) \/ (n < i /\ i = S j).

(** ** Sample inputs *)

(** A paragraph in the style [Heading <level>]. *)
Definition heading (level txt : string) : Block :=
  BParagraph (mkDocxParagraph ("Heading " ++ level) txt).

(** A paragraph in the style Normal. *)
Definition plain (txt : string) : Block :=
  BParagraph (mkDocxParagraph "Normal" txt).

(** The number of subchapters of each chapter a call returned. *)
Definition subchapter_counts (r : option ParseResult) : option (list nat) :=
  option_map (fun r => map (fun c => length (subchapters c)) (res_chapters r)) r.

(** The elements [n] levels below each chapter a call returned. *)
Definition levels_below (n : nat) (r : option ParseResult)
  : option (list (list DocumentElement)) :=
  option_map (fun r => map (fun c => descendants n (of_chapter c))
                           (res_chapters r)) r.

(** The chapters a call returned, ids blanked. *)
Definition chapters_modulo_ids (r : option ParseResult) : option (list Chapter) :=
  option_map (fun r => map forget_chapter_ids (res_chapters r)) r.



(** A document with a chapter holding a paragraph, a table and a subchapter. *)
Definition sample_document : Document :=
  Document_init " D "
    [ of_chapter
        (Chapter_init "C" "x"
           [ EParagraph (Paragraph_init "Hi");
             ETable (mkTable [(Some "N", Some "50"); (None, None)] [["v"; ""]]);
             of_chapter (Chapter_init "Sub" "y" []) ]) ].

(** A document with a paragraph at its top level. *)
Definition flat_document : Document :=
  Document_init "D" [EParagraph (Paragraph_init "x")].

(** A document with a table whose only column has the empty name. *)
Definition blank_column_document : Document :=
  Document_init "D"
    [of_chapter (Chapter_init "C" "x" [ETable (mkTable [(Some "", None)] [])])].

(** Parsing the child written for an element gives the element back. *)
Definition child_round_trip (e : DocumentElement) : Prop :=
  constructed e = true -> columns_kept e = true ->
  forall rest,
    elements_from_xml Chapter_from_xml
      (reparsed (DocumentElement_to_xml e) :: rest)
    = es <- elements_from_xml Chapter_from_xml rest ;; Ok (e :: es).

(** The block is not a heading whose level parses below [level]. *)
Definition not_below (level : Z) (block : Block) : bool :=
  match block with
  | BParagraph p =>
      if Py.startswith "Heading" (style_name p) then
        match parse_heading_level (style_name p) with
        | Some l => (level <=? l)%Z
        | None => true
        end
      else true
  | _ => true
  end.

(** No block of the list is a heading whose level parses below [level]. *)
Definition levels_at_least (level : Z) (blocks : list Block) : bool :=
  forallb (not_below level) blocks.

(** A paragraph in a style whose name begins with Title. *)
Definition title_style (p : DocxParagraph) : bool :=
  Py.startswith "Title" (style_name p).

(** The list is empty or its first block is not a title paragraph. *)
Definition head_not_title (blocks : list Block) : bool :=
  match blocks with
  | [] => true
  | b :: _ => match is_title_block b with Some _ => false | None => true end
  end.

(** The title after the title paragraphs [titles] were read in turn: each
    one replaces the title read before. *)
Definition title_after (titles : list DocxParagraph) (title : option string)
  : option string :=
  fold_left (fun _ p => Some (Py.strip (par_text p))) titles title.

(** The end of [Document.from_word]: the document made of the title read (or
    the default title, with a warning) and the chapters. *)
Definition titled_document (title : option string) (chapters : list Chapter)
    (log : list LogRecord) : Document * list LogRecord :=
  match title with
  | Some (String c r) =>
      (Document_init (String c r) (map of_chapter chapters), log)
  | _ =>
      (Document_init "Untitled Document" (map of_chapter chapters),
       log ++ [no_title])
  end.

(** A chapter as the constructors build it. *)
Definition chapter_constructed (c : Chapter) : bool :=
  constructed (of_chapter c).

(** The tags [Chapter.from_xml] dispatches on. *)
Definition known_tag (name : string) : bool :=
  String.eqb name "chapter" || String.eqb name "table"
  || String.eqb name "paragraph".

(** Below the chapter element, through chapter children only, there is a
    table child that has no [columns] child. *)
Fixpoint lacks_columns (chapter_element : Element) : bool :=
  match chapter_element with
  | mkElement _ _ _ cs =>
      existsb
        (fun child =>
           if String.eqb (tag child) "chapter" then lacks_columns child
           else if String.eqb (tag child) "table" then
             match find "columns" child with None => true | Some _ => false end
           else false)
        cs
  end.
(** What a call of [from_xml] may do: return, when no table below lacks its
    columns, or raise AttributeError, when one does. *)
Definition fails_as_expected {A} (result : outcome A) (bad : bool) : Prop :=
  match result with
  | Ok _ => bad = false
  | Raise e => e = AttributeError /\ bad = true
  end.

(** What comes back for a column name or width: the empty string is read
    back as [None]. *)
Definition blank_to_none (s : option string) : option string :=
  match s with
  | Some EmptyString => None
  | _ => s
  end.

(** A table as it comes back from the tree format. *)
Definition xml_table (t : Table) : Table :=
  mkTable
    (map (fun column => (blank_to_none (fst column), blank_to_none (snd column)))
         (columns t))
    (rows t).

(** An element as it comes back from the tree format. *)
Fixpoint xml_element (e : DocumentElement) : DocumentElement :=
  match e with
  | EChapter t i es => EChapter t i (map xml_element es)
  | ETable t => ETable (xml_table t)
  | EParagraph _ => e
  end.

(** A document as it comes back from the tree format: the top-level elements
    that are not chapters are gone. *)
Definition xml_document (d : Document) : Document :=
  mkDocument (doc_title d)
    (map xml_element (filter is_chapter (doc_elements d))).

(** Parsing the child written for an element gives the element as it comes
    back from the tree format. *)
Definition child_reads_back (e : DocumentElement) : Prop :=
  constructed e = true ->
  forall rest,
    elements_from_xml Chapter_from_xml
      (reparsed (DocumentElement_to_xml e) :: rest)
    = es <- elements_from_xml Chapter_from_xml rest ;;
      Ok (xml_element e :: es).

(** A row cut or filled to [n] cells: its first [n] cells, then empty cells
    when it has fewer. *)
Definition clip_row (n : nat) (row : list string) : list string :=
  firstn n row ++ repeat "" (n - length row).

(** What the model holds for a text that was written to a Word document and
    read from it: the text as python-docx reads it back, stripped. *)
Definition word_text (s : string) : string := Py.strip (text_as_read s).

(** A table as it is read back from the Word table written for it: widths
    are gone, names and cells are as [word_text] gives them, rows are cut or
    filled to the number of columns. *)
Definition word_table (t : Table) : Table :=
  mkTable
    (map (fun column => (option_map word_text (fst column), None)) (columns t))
    (map (fun row => map word_text (clip_row (length (columns t)) row))
         (rows t)).

(** The body child is a paragraph or a table. *)
Definition is_block (child : Block) : bool :=
  match child with BOther _ => false | _ => true end.

(** The warning [iter_block_items] logs for a child, if any. *)
Definition child_warning (child : Block) : list LogRecord :=
  match child with BOther type_name => [unknown_child type_name] | _ => [] end.

(** A document that can be flattened: a chapter with a paragraph, a table
    and a subchapter. *)
Definition word_document : Document :=
  mkDocument "D"
    [ EChapter "C" "c1"
        [ EParagraph (mkParagraph "Hi");
          ETable (mkTable [(Some "N", Some "50")] [["v"]]);
          EChapter "S" "c2" [] ] ].

(** The Word document [Document.to_word] builds for it. *)
Definition word_document_flat : DocxDocument :=
  [ BParagraph (mkDocxParagraph "Title" "D");
    heading "1" "C";
    plain "Hi";
    BTable (mkDocxTable [ [mkDocxCell "N" (Some (Emu 2700000))];
                          [mkDocxCell "v" None] ]);
    heading "2" "S" ].

(** Storage holding that document as XML text, and an older output. *)
Definition ready_fs : @FileSystem RefElementTree :=
  fun path =>
    if String.eqb path "in.x2doc"
    then Some (TextFile (@Document_to_xml RefElementTree word_document))
    else if String.eqb path "out.docx" then Some (DocxFile [plain "old"])
    else None.

(** The paragraph [add_heading] appends for a level from 1 on. *)
Definition heading_block (level : Z) (txt : string) : Block :=
  BParagraph
    (mkDocxParagraph ("Heading " ++ Py.str_of_nat (Z.to_nat level)) txt).

(** An element as it is read back from the Word document written for it:
    titles and texts as [word_text] gives them, tables as [word_table]. *)
Fixpoint word_element (e : DocumentElement) : DocumentElement :=
  match e with
  | EChapter t i es => EChapter (word_text t) i (map word_element es)
  | ETable t => ETable (word_table t)
  | EParagraph p => EParagraph (Paragraph_init (text_as_read (text p)))
  end.

(** [blocks] is what the saved file holds, as it is read, for the element
    written at the level: a plain paragraph, a table that reads back as
    [word_table] gives it, or a heading at the level followed by the blocks
    of the elements of the chapter one level down. *)
Inductive Writes : Z -> DocumentElement -> list Block -> Prop :=
| Writes_paragraph (level : Z) (p : Paragraph) :
    Writes level (EParagraph p) [plain (text_as_read (text p))]
| Writes_table (level : Z) (t : Table) (written : DocxTable) :
    Table_from_word written = word_table t ->
    Writes level (ETable t) [BTable written]
| Writes_chapter (level : Z) (t i : string) (es : list DocumentElement)
    (bss : list (list Block)) :
    (1 <= level <= 9)%Z ->
    Forall2 (Writes (level + 1)) es bss ->
    Writes level (EChapter t i es)
      (heading_block level (text_as_read t) :: concat bss).

(** The elements are leaves (paragraphs and tables) followed by chapters. *)
Fixpoint leaves_first (es : list DocumentElement) : bool :=
  match es with
  | [] => true
  | e :: rest =>
      if is_chapter e then forallb is_chapter rest else leaves_first rest
  end.

(** An element that the Word format can hold: no paragraph below it is
    blank, every table has a column, and in every chapter the paragraphs and
    tables come before the subchapters. *)
Fixpoint word_safe (e : DocumentElement) : bool :=
  match e with
  | EChapter _ _ es => leaves_first es && forallb word_safe es
  | ETable t => match columns t with [] => false | _ => true end
  | EParagraph p => Py.truthy (Py.strip (text p))
  end.

(** What [to_word] appends for one element reads as [Writes] describes. *)
Definition appends_written `{FloatParser} (e : DocumentElement) : Prop :=
  forall level st st',
    (1 <= level)%Z ->
    word_safe e = true ->
    DocumentElement_to_word e level st = Ok st' ->
    exists bs,
      ws_docx st' = ws_docx st ++ bs /\ Writes level e (map block_as_read bs).

(** The list is empty or starts with a heading of a level below [level]. *)
Definition stops_below (level : Z) (rest : list Block) : bool :=
  match rest with
  | [] => true
  | b :: _ => negb (not_below level b)
  end.

(** The loop of [Chapter.from_word] started in the state returns the result,
    given enough fuel. *)
Definition returns (paragraphs : list Block) (heading_level : Z)
    (st : ParseState) (r : ParseResult) : Prop :=
  exists fuel, from_word_loop fuel paragraphs heading_level st = Some r.

(** Reading the blocks written for a chapter at the level of the loop, with
    the next heading (if any) not below that level: the chapter open before
    is closed, and the chapter read, equal to the one written up to ids and
    stripping, is open when the loop goes on after the blocks. *)
Definition chapter_read_back (e : DocumentElement) : Prop :=
  forall paragraphs level i bs rest chs cur log,
    is_chapter e = true ->
    word_safe e = true ->
    Writes level e bs ->
    skipn i paragraphs = bs ++ rest ->
    stops_below (level + 1) rest = true ->
    exists c,
      forget_ids (of_chapter c) = forget_ids (word_element e)
      /\ forall r,
           returns paragraphs level
             (mkParseState (i + length bs) (close_out chs cur) (Some c) log) r ->
           returns paragraphs level (mkParseState i chs cur log) r.

(** The ids of the chapters of an element in document order, the element
    itself first. *)
Fixpoint chapter_ids (e : DocumentElement) : list string :=
  match e with
  | EChapter _ i es => i :: flat_map chapter_ids es
  | _ => []
  end.

(** The ids of all chapters in a list of chapters, at any depth. *)
Definition ids_of (chapters : list Chapter) : list string :=
  flat_map chapter_ids (map of_chapter chapters).

(** The indices increase strictly and lie from [lo] up to, not including,
    [hi]. *)
Fixpoint increasing_in (lo hi : nat) (js : list nat) : bool :=
  match js with
  | [] => true
  | j :: rest => (lo <=? j)%nat && (j <? hi)%nat && increasing_in (S j) hi rest
  end.

(** The ids are [chapter-j] for strictly increasing block indices [j] from
    [lo] up to, not including, [hi]. *)
Definition ids_from_indices (lo hi : nat) (ids : list string) : Prop :=
  exists js, ids = map chapter_id js /\ increasing_in lo hi js = true.

(** The number of chapter levels in an element: 0 for a paragraph or a
    table, 1 for a chapter without subchapters. *)
Fixpoint chapter_depth (e : DocumentElement) : nat :=
  match e with
  | EChapter _ _ es => S (list_max (map chapter_depth es))
  | _ => 0
  end.

(** A column with a name and no width. *)
Definition named_only (column : option string * option string) : bool :=
  match column with
  | (Some _, None) => true
  | _ => false
  end.

(** An element as the flat format gives it: no paragraph below it has an
    empty text, and every column of a table has a name and no width. *)
Fixpoint word_shaped (e : DocumentElement) : bool :=
  match e with
  | EChapter _ _ es => forallb word_shaped es
  | ETable t => forallb named_only (columns t)
  | EParagraph p => Py.truthy (text p)
  end.

Definition chapter_word_shaped (c : Chapter) : bool :=
  word_shaped (of_chapter c).

(** Every text of the element is one python-docx accepts: the titles, the
    texts of the paragraphs, the names of the columns and the cells. *)
Fixpoint writable (e : DocumentElement) : bool :=
  match e with
  | EChapter t _ es => xml_compatible t && forallb writable es
  | ETable t =>
      forallb (fun column =>
                 match fst column with
                 | Some name => xml_compatible name
                 | None => true
                 end) (columns t)
      && forallb (forallb xml_compatible) (rows t)
  | EParagraph p => xml_compatible (text p)
  end.

(** A document as [Document.from_word] may return it, one chapter deep. *)
Definition read_document : Document :=
  mkDocument "T" [EChapter "A" "chapter-1" [EParagraph (mkParagraph "x")]].

(** The block index an id [chapter-<index>] was made from. *)
Definition id_index (id : string) : option nat :=
  match id with
  | String "c" (String "h" (String "a" (String "p" (String "t" (String "e"
      (String "r" (String "-" digits))))))) =>
      option_map Nat.of_uint (NilEmpty.uint_of_string digits)
  | _ => None
  end.

(** The id of the same heading once a block is put in at index [n]: the
    headings from index [n] on stand one index higher. *)
Definition shift_id (n : nat) (id : string) : string :=
  match id_index id with
  | Some j => if (n <=? j)%nat then chapter_id (S j) else id
  | None => id
  end.

Fixpoint shift_ids (n : nat) (e : DocumentElement) : DocumentElement :=
  match e with
  | EChapter t i es => EChapter t (shift_id n i) (map (shift_ids n) es)
  | _ => e
  end.

Definition shift_chapter_ids (n : nat) (c : Chapter) : Chapter :=
  mkChapter (title c) (shift_id n (id_ c)) (map (shift_ids n) (elements c)).

(** The chapters a call returned. *)
Definition chapters_of (r : option ParseResult) : option (list Chapter) :=
  option_map res_chapters r.

(** ** One iteration of the loop of [Chapter.from_word] *)

Section LoopSteps.

Variables (fuel : nat) (paragraphs : list Block) (heading_level : Z).
Variables (i : nat) (chs : list Chapter) (cur : option Chapter)
          (log : list LogRecord).

Lemma loop_end :
  nth_error paragraphs i = None ->
  from_word_loop (S fuel) paragraphs heading_level (mkParseState i chs cur log)
  = Some (mkParseResult (close_out chs cur) i log).
Proof. intros E. simpl. rewrite E. reflexivity. Qed.

Lemma loop_malformed (p : DocxParagraph) :
  nth_error paragraphs i = Some (BParagraph p) ->
  Py.startswith "Heading" (style_name p) = true ->
  parse_heading_level (style_name p) = None ->
  from_word_loop (S fuel) paragraphs heading_level (mkParseState i chs cur log)
  = from_word_loop fuel paragraphs heading_level
      (mkParseState (S i) chs cur (log ++ [invalid_heading (style_name p)])).
Proof. intros E Hs Hl. simpl. rewrite E, Hs, Hl. reflexivity. Qed.

Lemma loop_ancestor (p : DocxParagraph) (l : Z) :
  nth_error paragraphs i = Some (BParagraph p) ->
  Py.startswith "Heading" (style_name p) = true ->
  parse_heading_level (style_name p) = Some l ->
  (l < heading_level)%Z ->
  from_word_loop (S fuel) paragraphs heading_level (mkParseState i chs cur log)
  = Some (mkParseResult (close_out chs cur) i log).
Proof.
  intros E Hs Hl Hlt. simpl. rewrite E, Hs, Hl.
  apply Z.ltb_lt in Hlt. rewrite Hlt. reflexivity.
Qed.

Lemma loop_sibling (p : DocxParagraph) :
  nth_error paragraphs i = Some (BParagraph p) ->
  Py.startswith "Heading" (style_name p) = true ->
  parse_heading_level (style_name p) = Some heading_level ->
  from_word_loop (S fuel) paragraphs heading_level (mkParseState i chs cur log)
  = from_word_loop fuel paragraphs heading_level
      (mkParseState (S i) (close_out chs cur)
         (Some (Chapter_init (par_text p) (chapter_id i) [])) log).
Proof.
  intros E Hs Hl. simpl. rewrite E, Hs, Hl.
  rewrite Z.ltb_irrefl, Z.eqb_refl. reflexivity.
Qed.

Lemma loop_nested (p : DocxParagraph) (l : Z) :
  nth_error paragraphs i = Some (BParagraph p) ->
  Py.startswith "Heading" (style_name p) = true ->
  parse_heading_level (style_name p) = Some l ->
  (heading_level < l)%Z ->
  from_word_loop (S fuel) paragraphs heading_level (mkParseState i chs cur log)
  = match from_word_loop fuel paragraphs l (mkParseState i [] None log) with
    | None => None
    | Some sub =>
        from_word_loop fuel paragraphs heading_level
          (mkParseState (res_index sub) chs
             (extend_current cur (map of_chapter (res_chapters sub)))
             (res_log sub))
    end.
Proof.
  intros E Hs Hl Hgt. simpl. rewrite E, Hs, Hl.
  replace (l <? heading_level)%Z with false by (symmetry; apply Z.ltb_ge; lia).
  replace (l =? heading_level)%Z with false by (symmetry; apply Z.eqb_neq; lia).
  reflexivity.
Qed.

Lemma loop_paragraph (p : DocxParagraph) :
  nth_error paragraphs i = Some (BParagraph p) ->
  Py.startswith "Heading" (style_name p) = false ->
  from_word_loop (S fuel) paragraphs heading_level (mkParseState i chs cur log)
  = from_word_loop fuel paragraphs heading_level
      (mkParseState (S i) chs
         (if Py.truthy (Py.strip (par_text p))
          then extend_current cur [EParagraph (Paragraph_from_word p)]
          else cur) log).
Proof. intros E Hs. simpl. rewrite E, Hs. reflexivity. Qed.

Lemma loop_table (t : DocxTable) :
  nth_error paragraphs i = Some (BTable t) ->
  from_word_loop (S fuel) paragraphs heading_level (mkParseState i chs cur log)
  = from_word_loop fuel paragraphs heading_level
      (mkParseState (S i) chs
         (extend_current cur [ETable (Table_from_word t)]) log).
Proof. intros E. simpl. rewrite E. reflexivity. Qed.

Lemma loop_other (type_name : string) :
  nth_error paragraphs i = Some (BOther type_name) ->
  from_word_loop (S fuel) paragraphs heading_level (mkParseState i chs cur log)
  = from_word_loop fuel paragraphs heading_level
      (mkParseState (S i) chs cur (log ++ [unknown_block i type_name])).
Proof. intros E. simpl. rewrite E. reflexivity. Qed.

End LoopSteps.

Lemma is_heading_of_level_inv (level : Z) (b : Block) :
  is_heading_of_level level b = true ->
  exists p, b = BParagraph p
    /\ Py.startswith "Heading" (style_name p) = true
    /\ parse_heading_level (style_name p) = Some level.
Proof.
  destruct b as [p | t | n]; simpl; try discriminate.
  intros H. apply andb_prop in H. destruct H as [Hs Hl].
  exists p. repeat split; auto.
  destruct (parse_heading_level (style_name p)) as [l |]; try discriminate.
  apply Z.eqb_eq in Hl. now subst.
Qed.

Lemma is_body_paragraph_inv (b : Block) :
  is_body_paragraph b = true ->
  exists p, b = BParagraph p
    /\ Py.startswith "Heading" (style_name p) = false
    /\ Py.truthy (Py.strip (par_text p)) = true.
Proof.
  destruct b as [p | t | n]; simpl; try discriminate.
  intros H. apply andb_prop in H. destruct H as [Hs Hl].
  exists p. repeat split; auto. now apply negb_true_iff.
Qed.

Ltac known_blocks :=
  repeat match goal with
  | H : is_heading_of_level _ _ = true |- _ =>
      apply is_heading_of_level_inv in H;
      let p := fresh "p" in
      let Hs := fresh "Hs" in
      let Hl := fresh "Hl" in
      destruct H as (p & -> & Hs & Hl)
  | H : is_body_paragraph _ = true |- _ =>
      apply is_body_paragraph_inv in H;
      let p := fresh "p" in
      let Hs := fresh "Hs" in
      let Hl := fresh "Hl" in
      destruct H as (p & -> & Hs & Hl)
  end.

Ltac side := first [reflexivity | eassumption | lia].

(** One iteration of the loop on the block at the current index. *)
Ltac loop_step :=
  first
    [ erewrite loop_end by side
    | erewrite loop_sibling by side
    | erewrite loop_ancestor by side
    | erewrite loop_nested by side
    | erewrite loop_malformed by side
    | erewrite loop_paragraph by side
    | erewrite loop_table by side
    | erewrite loop_other by side ];
  cbn [res_index res_chapters res_log close_out extend_current map app
       of_chapter title id_ elements].

(** ** Heading levels: siblings and nesting *)

(** C2 (as the code has it): on four heading paragraphs at levels 1, 2, 2, 1
    the reconstruction started at index 0 with level 1 returns exactly two
    top-level chapters; the first holds exactly two subchapters (the two
    level-2 headings, siblings of each other), the second holds none. *)
Theorem tie_break_two_subchapters (b1 b2 b3 b4 : Block) (log : list LogRecord) :
  is_heading_of_level 1 b1 = true ->
  is_heading_of_level 2 b2 = true ->
  is_heading_of_level 2 b3 = true ->
  is_heading_of_level 1 b4 = true ->
  let c1 :=
    Chapter_init (block_text b1) (chapter_id 0)
      [ of_chapter (Chapter_init (block_text b2) (chapter_id 1) []);
        of_chapter (Chapter_init (block_text b3) (chapter_id 2) []) ] in
  let c2 := Chapter_init (block_text b4) (chapter_id 3) [] in
  Chapter_from_word [b1; b2; b3; b4] 0 1 log
  = Some (mkParseResult [c1; c2] 4 log)
  /\ length (subchapters c1) = 2
  /\ length (subchapters c2) = 0.
Proof.
  intros H1 H2 H3 H4. known_blocks.
  refine (conj _ (conj eq_refl eq_refl)).
  unfold Chapter_from_word.
  change (enough_fuel _ 0) with 10.
  do 7 loop_step.
  reflexivity.
Qed.

Lemma tie_break_two_subchapters_witness :
  Chapter_from_word
    [heading "1" "A"; heading "2" "B"; heading "2" "C"; heading "1" "D"] 0 1 []
  = Some (mkParseResult
            [ mkChapter "A" "chapter-0"
                [EChapter "B" "chapter-1" []; EChapter "C" "chapter-2" []];
              mkChapter "D" "chapter-3" [] ] 4 []).
Proof.
  exact (proj1 (tie_break_two_subchapters
                  (heading "1" "A") (heading "2" "B") (heading "2" "C")
                  (heading "1" "D") [] eq_refl eq_refl eq_refl eq_refl)).
Defined.

(** C2 as stated fails: on headings at levels 1, 2, 2, 1 the first chapter
    holds two subchapters, not one. *)
Lemma tie_break_one_subchapter_fails :
  subchapter_counts
    (Chapter_from_word
       [heading "1" "A"; heading "2" "B"; heading "2" "C"; heading "1" "D"]
       0 1 [])
  = Some [2; 0]
  /\ subchapter_counts
       (Chapter_from_word
          [heading "1" "A"; heading "2" "B"; heading "2" "C"; heading "1" "D"]
          0 1 [])
     <> Some [1; 0].
Proof. split; [vm_compute; reflexivity | vm_compute; discriminate]. Qed.

(** C3 (as the code has it): on a level-1 heading, a level-4 heading and a
    paragraph with text, the reconstruction returns without any diagnostic
    one chapter, whose only element is the level-4 chapter holding the
    paragraph: the level-4 chapter is a direct child of the level-1 chapter,
    one level below it, and nothing lies three levels below. *)
Theorem gap_nests_one_level (b1 b2 b3 : Block) (log : list LogRecord) :
  is_heading_of_level 1 b1 = true ->
  is_heading_of_level 4 b2 = true ->
  is_body_paragraph b3 = true ->
  let c4 :=
    Chapter_init (block_text b2) (chapter_id 1)
      [EParagraph (Paragraph_init (block_text b3))] in
  let c1 := Chapter_init (block_text b1) (chapter_id 0) [of_chapter c4] in
  Chapter_from_word [b1; b2; b3] 0 1 log = Some (mkParseResult [c1] 3 log)
  /\ descendants 1 (of_chapter c1) = [of_chapter c4]
  /\ descendants 3 (of_chapter c1) = [].
Proof.
  intros H1 H2 H3. known_blocks.
  refine (conj _ (conj eq_refl eq_refl)).
  unfold Chapter_from_word.
  change (enough_fuel _ 0) with 8.
  do 6 loop_step.
  rewrite Hl1. reflexivity.
Qed.

Lemma gap_nests_one_level_witness :
  Chapter_from_word [heading "1" "A"; heading "4" "B"; plain " hi "] 0 1 []
  = Some (mkParseResult
            [ mkChapter "A" "chapter-0"
                [EChapter "B" "chapter-1" [EParagraph (mkParagraph "hi")]] ]
            3 []).
Proof.
  exact (proj1 (gap_nests_one_level
                  (heading "1" "A") (heading "4" "B") (plain " hi ") []
                  eq_refl eq_refl eq_refl)).
Defined.

(** C3 as stated fails: the level-4 chapter sits one level below the level-1
    chapter, and there is nothing three levels below it. *)
Lemma gap_three_levels_deep_fails :
  levels_below 1
    (Chapter_from_word [heading "1" "A"; heading "4" "B"; plain "hi"] 0 1 [])
  = Some [[EChapter "B" "chapter-1" [EParagraph (mkParagraph "hi")]]]
  /\ levels_below 3
       (Chapter_from_word [heading "1" "A"; heading "4" "B"; plain "hi"] 0 1 [])
     = Some [[]].
Proof. split; vm_compute; reflexivity. Qed.

(** ** Flattening a table *)

(** C10: a table with no columns appends nothing to the document, whatever
    rows it holds; only the warning is logged. *)
Theorem empty_columns_append_nothing `{FloatParser} (data : list (list string))
    (st : WordState) :
  Table_to_word (mkTable [] data) st
  = Ok (mkWordState (ws_docx st) (ws_log st ++ [no_columns])).
Proof. reflexivity. Qed.



(** ** The top-level loop of [Document.from_word] *)

(** C4 fails on the code: on a document whose only block is a paragraph in
    the style [Heading 0], [Chapter.from_word] returns at once without
    consuming the block (level 0 is below level 1), so the loop of
    [Document.from_word] calls it again at the same index for ever: no amount
    of fuel lets the loop return. *)
Theorem heading_zero_never_returns :
  Chapter_from_word [heading "0" "X"] 0 1 [] = Some (mkParseResult [] 0 [])
  /\ forall fuel, Document_from_word fuel [heading "0" "X"] = None.
Proof.
  split; [vm_compute; reflexivity |].
  intros fuel. unfold Document_from_word.
  change (iter_block_items [heading "0" "X"]) with ([heading "0" "X"], @nil LogRecord).
  cbv iota beta.
  assert (Hloop : Document_from_word_loop fuel [heading "0" "X"]
                    (mkDocState 0 [] None []) = None).
  { induction fuel as [| fuel IH]; [reflexivity |].
    change (Document_from_word_loop (S fuel) [heading "0" "X"]
              (mkDocState 0 [] None []))
      with (match Chapter_from_word [heading "0" "X"] 0 1 [] with
            | None => None
            | Some r =>
                Document_from_word_loop fuel [heading "0" "X"]
                  (mkDocState (res_index r) ([] ++ res_chapters r) None
                     (res_log r))
            end).
    replace (Chapter_from_word [heading "0" "X"] 0 1 [])
      with (Some (mkParseResult [] 0 [])) by (vm_compute; reflexivity).
    exact IH. }
  rewrite Hloop. reflexivity.
Qed.

(** ** Top-level elements in the tree format *)






(** ** Failure of the task and external storage *)





(** ** The loop of [Chapter.from_word]: fuel, progress and termination *)

Ltac loop_step_in H :=
  first
    [ erewrite loop_end in H by side
    | erewrite loop_sibling in H by side
    | erewrite loop_ancestor in H by side
    | erewrite loop_nested in H by side
    | erewrite loop_malformed in H by side
    | erewrite loop_paragraph in H by side
    | erewrite loop_table in H by side
    | erewrite loop_other in H by side ].

(** The cases of one iteration: what the block at index [i] is. *)
Ltac block_cases paragraphs i level :=
  let p := fresh "p" in
  let l := fresh "l" in
  let E := fresh "E" in
  let Hs := fresh "Hs" in
  let Hl := fresh "Hl" in
  let Hc := fresh "Hc" in
  destruct (nth_error paragraphs i) as [[p | ? | ?] |] eqn:E;
  [ destruct (Py.startswith "Heading" (style_name p)) eqn:Hs;
    [ destruct (parse_heading_level (style_name p)) as [l |] eqn:Hl;
      [ destruct (Z.lt_trichotomy l level) as [Hc | [Hc | Hc]];
        [ | subst l | ]
      | ]
    | ]
  | | | ].

Lemma loop_more_fuel (fuel : nat) :
  forall paragraphs level st r,
    from_word_loop fuel paragraphs level st = Some r ->
    from_word_loop (S fuel) paragraphs level st = Some r.
Proof.
  induction fuel as [| fuel IH]; intros paragraphs level [i chs cur log] r H;
    [discriminate |].
  block_cases paragraphs i level; loop_step_in H; loop_step; auto.
  destruct (from_word_loop fuel paragraphs l _) as [sub |] eqn:Hsub;
    [| discriminate].
  rewrite (IH _ _ _ _ Hsub). auto.
Qed.

Lemma loop_fuel_le (fuel fuel' : nat) :
  fuel <= fuel' ->
  forall paragraphs level st r,
    from_word_loop fuel paragraphs level st = Some r ->
    from_word_loop fuel' paragraphs level st = Some r.
Proof.
  induction 1; intros; auto using loop_more_fuel.
Qed.

Lemma loop_fuel_irrelevant (fuel fuel' : nat) paragraphs level st r r' :
  from_word_loop fuel paragraphs level st = Some r ->
  from_word_loop fuel' paragraphs level st = Some r' ->
  r = r'.
Proof.
  intros H H'. destruct (Nat.le_ge_cases fuel fuel') as [L | L].
  - apply (loop_fuel_le _ _ L) in H. congruence.
  - apply (loop_fuel_le _ _ L) in H'. congruence.
Qed.

(** The index a call returns is never below the one it was given. *)
Lemma loop_index_le (fuel : nat) :
  forall paragraphs level st r,
    from_word_loop fuel paragraphs level st = Some r ->
    st_index st <= res_index r.
Proof.
  induction fuel as [| fuel IH]; intros paragraphs level [i chs cur log] r H;
    [discriminate |].
  cbn [st_index].
  block_cases paragraphs i level; loop_step_in H;
    try (injection H as <-; cbn; lia);
    try (apply IH in H; cbn [st_index] in H; lia).
  destruct (from_word_loop fuel paragraphs l _) as [sub |] eqn:Hsub;
    [| discriminate].
  apply IH in Hsub. apply IH in H. cbn [st_index] in *. lia.
Qed.

(** [enough_fuel] is enough: every call of [Chapter.from_word] returns. *)
Lemma loop_terminates (fuel : nat) :
  forall paragraphs level st,
    enough_fuel paragraphs (st_index st) <= fuel ->
    exists r, from_word_loop fuel paragraphs level st = Some r.
Proof.
  induction fuel as [fuel IH] using lt_wf_ind.
  intros paragraphs level [i chs cur log] Hf.
  unfold enough_fuel in *. cbn [st_index] in *.
  destruct fuel as [| fuel]; [lia |].
  block_cases paragraphs i level; loop_step; eauto;
    try (assert (i < length paragraphs)
           by (apply nth_error_Some; congruence);
         apply IH; [lia | unfold enough_fuel; cbn [st_index]; lia]).
  assert (Hi : i < length paragraphs) by (apply nth_error_Some; congruence).
  destruct fuel as [| fuel]; [lia |].
  erewrite loop_sibling by eassumption.
  destruct (IH fuel ltac:(lia) paragraphs l
              (mkParseState (S i) (close_out [] None)
                 (Some (Chapter_init (par_text p) (chapter_id i) [])) log))
    as [sub Hsub]; [unfold enough_fuel; cbn [st_index]; lia |].
  rewrite Hsub.
  apply loop_index_le in Hsub as Hle. cbn [st_index] in Hle.
  apply loop_more_fuel in Hsub.
  apply IH; [lia | unfold enough_fuel; cbn [st_index]; lia].
Qed.

Lemma Chapter_from_word_returns (paragraphs : list Block) (i : nat)
    (level : Z) (log : list LogRecord) :
  exists r, Chapter_from_word paragraphs i level log = Some r.
Proof. apply loop_terminates. reflexivity. Qed.

Lemma Chapter_from_word_any_fuel (fuel : nat) paragraphs i level log r :
  from_word_loop fuel paragraphs level (mkParseState i [] None log) = Some r ->
  Chapter_from_word paragraphs i level log = Some r.
Proof.
  intros H. destruct (Chapter_from_word_returns paragraphs i level log) as [r' H'].
  rewrite H'. f_equal. unfold Chapter_from_word in H'.
  eapply loop_fuel_irrelevant; eauto.
Qed.

(** ** The loop reads only the blocks from the current index on *)

Lemma skipn_nil_nth_error {A} (l : list A) (i : nat) :
  skipn i l = [] -> nth_error l i = None.
Proof.
  revert l; induction i as [| i IH]; intros [| a l]; simpl; auto; discriminate.
Qed.

Lemma skipn_cons_nth_error {A} (l : list A) (i : nat) (a : A) (rest : list A) :
  skipn i l = a :: rest -> nth_error l i = Some a /\ skipn (S i) l = rest.
Proof.
  revert l; induction i as [| i IH]; intros [| b l]; simpl; try discriminate.
  - intros E. injection E as -> ->. auto.
  - intros E. apply IH in E. exact E.
Qed.

Lemma suffix_loop_spec (fuel : nat) :
  forall paragraphs level st,
    suffix_loop fuel (skipn (st_index st) paragraphs) level st
    = option_map (fun r => (r, skipn (res_index r) paragraphs))
        (from_word_loop fuel paragraphs level st).
Proof.
  induction fuel as [| fuel IH]; intros paragraphs level [i chs cur log];
    [reflexivity |].
  cbn [st_index].
  destruct (skipn i paragraphs) as [| b rest] eqn:Hsk.
  - pose proof (skipn_nil_nth_error _ _ Hsk) as E. loop_step.
    cbn. rewrite Hsk. reflexivity.
  - pose proof (skipn_cons_nth_error _ _ _ _ Hsk) as [E Hrest].
    specialize (IH paragraphs).
    destruct b as [p | t | n]; cbn [suffix_loop st_index st_chapters st_current st_log].
    + destruct (Py.startswith "Heading" (style_name p)) eqn:Hs.
      * destruct (parse_heading_level (style_name p)) as [l |] eqn:Hl.
        -- destruct (Z.lt_trichotomy l level) as [Hc | [Hc | Hc]].
           ++ loop_step. apply Z.ltb_lt in Hc. rewrite Hc.
              cbn. rewrite Hsk. reflexivity.
           ++ subst l. loop_step. rewrite Z.ltb_irrefl, Z.eqb_refl.
              rewrite <- Hrest. apply (IH level (mkParseState (S i) _ _ _)).
           ++ loop_step.
              replace (l <? level)%Z with false
                by (symmetry; apply Z.ltb_ge; lia).
              replace (l =? level)%Z with false
                by (symmetry; apply Z.eqb_neq; lia).
              rewrite <- Hsk.
              pose proof (IH l (mkParseState i [] None log)) as IHn.
              cbn [st_index] in IHn. rewrite IHn.
              destruct (from_word_loop fuel paragraphs l _) as [sub |];
                [| reflexivity].
              cbn [option_map].
              apply (IH level (mkParseState (res_index sub) _ _ _)).
        -- loop_step. rewrite <- Hrest.
           apply (IH level (mkParseState (S i) _ _ _)).
      * loop_step. rewrite <- Hrest.
        apply (IH level (mkParseState (S i) _ _ _)).
    + loop_step. rewrite <- Hrest. apply (IH level (mkParseState (S i) _ _ _)).
    + loop_step. rewrite <- Hrest. apply (IH level (mkParseState (S i) _ _ _)).
Qed.

Lemma loop_reads_suffix (fuel : nat) paragraphs paragraphs' level st :
  skipn (st_index st) paragraphs = skipn (st_index st) paragraphs' ->
  from_word_loop fuel paragraphs level st
  = from_word_loop fuel paragraphs' level st.
Proof.
  intros E.
  pose proof (suffix_loop_spec fuel paragraphs level st) as H.
  pose proof (suffix_loop_spec fuel paragraphs' level st) as H'.
  rewrite E, H' in H.
  destruct (from_word_loop fuel paragraphs level st),
           (from_word_loop fuel paragraphs' level st);
    cbn in H; congruence.
Qed.

(** ** Content before the first heading *)

Lemma nth_error_middle {A} (done rest : list A) (a : A) :
  nth_error (done ++ a :: rest) (length done) = Some a.
Proof.
  rewrite nth_error_app2 by lia. rewrite Nat.sub_diag. reflexivity.
Qed.

(** With no chapter open, blocks that are not headings are passed over: the
    loop reaches the block after them with no chapter and none open. *)
Lemma orphans_passed_over (pre : list Block) :
  forall done rest level log fuel,
    no_heading pre = true ->
    from_word_loop (length pre + fuel) (done ++ pre ++ rest) level
      (mkParseState (length done) [] None log)
    = from_word_loop fuel (done ++ pre ++ rest) level
        (mkParseState (length done + length pre) [] None
           (skipped_log (length done) pre log)).
Proof.
  induction pre as [| b pre IH]; intros done rest level log fuel Hpre.
  - cbn. rewrite Nat.add_0_r. reflexivity.
  - cbn [no_heading forallb] in Hpre. apply andb_prop in Hpre as [Hb Hpre].
    apply negb_true_iff in Hb.
    cbn [length Nat.add].
    pose proof (nth_error_middle done (pre ++ rest) b) as E.
    change (done ++ (b :: pre) ++ rest) with (done ++ b :: pre ++ rest).
    specialize (IH (done ++ [b]) rest level).
    rewrite <- app_assoc, length_app in IH. cbn [app length] in IH.
    rewrite Nat.add_1_r in IH.
    destruct b as [p | t | n]; cbn [is_heading] in Hb; loop_step;
      cbn [skipped_log];
      rewrite <- Nat.add_succ_comm;
      try (destruct (Py.truthy (Py.strip (par_text p))));
      now apply IH.
Qed.

Lemma skipn_past_middle {A} (pre post : list A) (a : A) :
  skipn (S (length pre)) (pre ++ a :: post) = post.
Proof.
  induction pre as [| b pre IH]; [reflexivity | exact IH].
Qed.

Lemma no_heading_table (pre : list Block) (t : DocxTable) :
  no_heading pre = true -> no_heading (pre ++ [BTable t]) = true.
Proof.
  unfold no_heading. intros H. rewrite forallb_app, H. reflexivity.
Qed.

Lemma skipped_log_table (pre : list Block) (t : DocxTable) :
  forall i log, skipped_log i (pre ++ [BTable t]) log = skipped_log i pre log.
Proof.
  induction pre as [| b pre IH]; intros i log; [reflexivity |].
  destruct b; cbn; apply IH.
Qed.

(** C6: a table that comes before any heading paragraph leaves no trace.
    The call from index 0 returns exactly what the call started on the block
    after the table returns (same chapters, same index, same log), and the
    result is the same whatever the table holds. *)
Theorem orphan_table_dropped (pre post : list Block) (t : DocxTable)
    (level : Z) (log : list LogRecord) :
  no_heading pre = true ->
  Chapter_from_word (pre ++ BTable t :: post) 0 level log
  = Chapter_from_word (pre ++ BTable t :: post) (S (length pre)) level
      (skipped_log 0 pre log)
  /\ forall t',
       Chapter_from_word (pre ++ BTable t' :: post) 0 level log
       = Chapter_from_word (pre ++ BTable t :: post) 0 level log.
Proof.
  intros Hpre.
  assert (Hskip : forall t0,
    Chapter_from_word (pre ++ BTable t0 :: post) 0 level log
    = Chapter_from_word (pre ++ BTable t0 :: post) (S (length pre)) level
        (skipped_log 0 pre log)).
  { intros t0.
    destruct (Chapter_from_word_returns (pre ++ BTable t0 :: post)
                (S (length pre)) level (skipped_log 0 pre log)) as [r Hr].
    rewrite Hr. unfold Chapter_from_word in *.
    pose proof (orphans_passed_over (pre ++ [BTable t0]) [] post level log
                  (enough_fuel (pre ++ BTable t0 :: post) 0
                   - length (pre ++ [BTable t0]))
                  (no_heading_table _ _ Hpre)) as H.
    cbn [app length] in H.
    rewrite <- app_assoc in H. cbn [app] in H.
    rewrite skipped_log_table in H.
    replace (length (pre ++ [BTable t0])
             + (enough_fuel (pre ++ BTable t0 :: post) 0
                - length (pre ++ [BTable t0])))
      with (enough_fuel (pre ++ BTable t0 :: post) 0) in H
      by (unfold enough_fuel; rewrite !length_app; cbn [length]; lia).
    rewrite H. rewrite length_app, Nat.add_1_r.
    eapply loop_fuel_le; [| exact Hr].
    unfold enough_fuel. rewrite !length_app. cbn [length]. lia. }
  split; [apply Hskip |].
  intros t'. rewrite (Hskip t'), (Hskip t).
  unfold Chapter_from_word.
  replace (enough_fuel (pre ++ BTable t' :: post) (S (length pre)))
    with (enough_fuel (pre ++ BTable t :: post) (S (length pre)))
    by (unfold enough_fuel; rewrite !length_app; reflexivity).
  apply loop_reads_suffix. cbn [st_index].
  now rewrite !skipn_past_middle.
Qed.

Lemma orphan_table_dropped_witness :
  Chapter_from_word
    [plain "intro"; BTable (mkDocxTable [[mkDocxCell "h" None]]);
     heading "1" "A"] 0 1 []
  = Chapter_from_word
      [plain "intro"; BTable (mkDocxTable [[mkDocxCell "h" None]]);
       heading "1" "A"] 2 1 [].
Proof.
  exact (proj1 (orphan_table_dropped [plain "intro"] [heading "1" "A"]
                  (mkDocxTable [[mkDocxCell "h" None]]) 1 [] eq_refl)).
Defined.

(** ** A heading whose level does not parse *)

Lemma forget_close_out chs chs' cur cur' :
  map forget_chapter_ids chs = map forget_chapter_ids chs' ->
  option_map forget_chapter_ids cur = option_map forget_chapter_ids cur' ->
  map forget_chapter_ids (close_out chs cur)
  = map forget_chapter_ids (close_out chs' cur').
Proof.
  intros Hc Hcur. destruct cur, cur'; try discriminate; cbn in *; auto.
  rewrite !map_app. cbn. congruence.
Qed.

Lemma forget_extend cur cur' es es' :
  option_map forget_chapter_ids cur = option_map forget_chapter_ids cur' ->
  map forget_ids es = map forget_ids es' ->
  option_map forget_chapter_ids (extend_current cur es)
  = option_map forget_chapter_ids (extend_current cur' es').
Proof.
  intros Hcur Hes. destruct cur as [c |], cur' as [c' |]; try discriminate;
    cbn in *; auto.
  injection Hcur as Ht He. unfold forget_chapter_ids. cbn.
  rewrite !map_app. congruence.
Qed.

Lemma forget_of_chapter chs chs' :
  map forget_chapter_ids chs = map forget_chapter_ids chs' ->
  map forget_ids (map of_chapter chs) = map forget_ids (map of_chapter chs').
Proof.
  revert chs'. induction chs as [| c chs IH]; intros [| c' chs'] H;
    try discriminate; auto.
  cbn in H. injection H as Ht He Hr. cbn. rewrite Ht, He.
  f_equal. now apply IH.
Qed.

Create HintDb forget.
#[local] Hint Resolve forget_close_out forget_extend forget_of_chapter : forget.

Section Malformed.

Variables (pre post : list Block) (p : DocxParagraph).
Hypothesis Hs : Py.startswith "Heading" (style_name p) = true.
Hypothesis Hl : parse_heading_level (style_name p) = None.

Lemma same_position_nth_error (i j : nat) :
  same_position (length pre) i j -> i <> length pre ->
  nth_error (pre ++ BParagraph p :: post) i = nth_error (pre ++ post) j.
Proof.
  unfold same_position. intros [[Hi ->] | [Hi ->]] Hne.
  - rewrite !nth_error_app1 by lia. reflexivity.
  - rewrite !nth_error_app2 by lia.
    replace (S j - length pre) with (S (j - length pre)) by lia.
    reflexivity.
Qed.

(** A run on the sequence with the block is matched, position by position,
    by a run on the sequence without it that builds the same chapters up to
    their ids. *)
Lemma skip_malformed (fuel : nat) :
  forall level i j chs chs' cur cur' log log' r,
    same_position (length pre) i j ->
    map forget_chapter_ids chs = map forget_chapter_ids chs' ->
    option_map forget_chapter_ids cur = option_map forget_chapter_ids cur' ->
    from_word_loop fuel (pre ++ BParagraph p :: post) level
      (mkParseState i chs cur log) = Some r ->
    exists r',
      from_word_loop fuel (pre ++ post) level
        (mkParseState j chs' cur' log') = Some r'
      /\ map forget_chapter_ids (res_chapters r)
         = map forget_chapter_ids (res_chapters r')
      /\ same_position (length pre) (res_index r) (res_index r').
Proof.
  induction fuel as [| fuel IH];
    intros level i j chs chs' cur cur' log log' r Hij Hchs Hcur H;
    [discriminate |].
  destruct (Nat.eq_dec i (length pre)) as [-> | Hne].
  - assert (E : nth_error (pre ++ BParagraph p :: post) (length pre)
                 = Some (BParagraph p)) by apply nth_error_middle.
    loop_step_in H.
    assert (j = length pre) as -> by (unfold same_position in Hij; lia).
    destruct (IH level (S (length pre)) (length pre) chs chs' cur cur' _ log' r
                ltac:(unfold same_position; lia) Hchs Hcur H)
      as (r' & Hr' & Hres).
    exists r'. split; [now apply loop_more_fuel | exact Hres].
  - pose proof (same_position_nth_error i j Hij Hne) as Enth.
    assert (Hnext : same_position (length pre) (S i) (S j))
      by (unfold same_position in *; lia).
    block_cases (pre ++ BParagraph p :: post) i level; symmetry in Enth;
      loop_step_in H; loop_step.
    + injection H as <-. eexists; split; [reflexivity |].
      cbn [res_chapters res_index]. split; auto with forget.
    + refine (IH _ _ _ _ _ _ _ _ _ _ _ _ _ H); auto with forget.
    + destruct (from_word_loop fuel (pre ++ BParagraph p :: post) l _)
        as [sub |] eqn:Hsub; [| discriminate].
      destruct (IH l i j [] [] None None log log' sub Hij eq_refl eq_refl Hsub)
        as (sub' & Hsub' & Hsubc & Hsuba).
      rewrite Hsub'.
      refine (IH _ _ _ _ _ _ _ _ _ _ _ _ _ H); auto with forget.
    + refine (IH _ _ _ _ _ _ _ _ _ _ _ _ _ H); auto with forget.
    + refine (IH _ _ _ _ _ _ _ _ _ _ _ _ _ H); auto.
      destruct (Py.truthy _); auto with forget.
    + refine (IH _ _ _ _ _ _ _ _ _ _ _ _ _ H); auto with forget.
    + refine (IH _ _ _ _ _ _ _ _ _ _ _ _ _ H); auto with forget.
    + injection H as <-. eexists; split; [reflexivity |].
      cbn [res_chapters res_index]. split; auto with forget.
Qed.

Lemma malformed_same_modulo_ids (level : Z) (log : list LogRecord) :
  chapters_modulo_ids
    (Chapter_from_word (pre ++ BParagraph p :: post) 0 level log)
  = chapters_modulo_ids (Chapter_from_word (pre ++ post) 0 level log).
Proof.
  destruct (Chapter_from_word_returns (pre ++ BParagraph p :: post) 0 level
              log) as [r Hr].
  rewrite Hr. unfold Chapter_from_word in Hr.
  destruct (skip_malformed (enough_fuel (pre ++ BParagraph p :: post) 0)
              level 0 0 [] [] None None log log r
              ltac:(unfold same_position; lia) eq_refl eq_refl Hr)
    as (r' & Hr' & Hc & _).
  rewrite (Chapter_from_word_any_fuel _ _ _ _ _ _ Hr').
  cbn. now rewrite Hc.
Qed.

End Malformed.

Lemma id_index_chapter_id (j : nat) : id_index (chapter_id j) = Some j.
Proof.
  unfold chapter_id. cbn [String.append id_index]. unfold Py.str_of_nat.
  rewrite NilEmpty.usu. cbn [option_map]. now rewrite Unsigned.of_to.
Qed.

Lemma shift_id_chapter_id (n j : nat) :
  shift_id n (chapter_id j) = chapter_id (if (n <=? j)%nat then S j else j).
Proof.
  unfold shift_id. rewrite id_index_chapter_id.
  now destruct (n <=? j)%nat.
Qed.

Lemma shift_id_same_position (n i j : nat) :
  same_position n i j -> i <> n -> shift_id n (chapter_id j) = chapter_id i.
Proof.
  unfold same_position, shift_id. rewrite id_index_chapter_id.
  intros [[Hi ->] | [Hi ->]] Hne.
  - replace (n <=? i)%nat with false by (symmetry; apply Nat.leb_gt; lia).
    reflexivity.
  - replace (n <=? j)%nat with true by (symmetry; apply Nat.leb_le; lia).
    reflexivity.
Qed.

Lemma shift_close_out (n : nat) chs cur :
  close_out (map (shift_chapter_ids n) chs) (option_map (shift_chapter_ids n) cur)
  = map (shift_chapter_ids n) (close_out chs cur).
Proof.
  destruct cur as [c |]; cbn [close_out option_map]; [| reflexivity].
  now rewrite map_app.
Qed.

Lemma shift_extend (n : nat) cur es :
  extend_current (option_map (shift_chapter_ids n) cur) (map (shift_ids n) es)
  = option_map (shift_chapter_ids n) (extend_current cur es).
Proof.
  destruct cur as [[t i els] |]; cbn [extend_current option_map];
    [| reflexivity].
  unfold shift_chapter_ids. cbn [title id_ elements]. now rewrite map_app.
Qed.

Lemma shift_of_chapter (n : nat) chs :
  map of_chapter (map (shift_chapter_ids n) chs)
  = map (shift_ids n) (map of_chapter chs).
Proof. rewrite !map_map. apply map_ext. now intros [t i es]. Qed.

Section MalformedIds.

Variables (pre post : list Block) (p : DocxParagraph).
Hypothesis Hs : Py.startswith "Heading" (style_name p) = true.
Hypothesis Hl : parse_heading_level (style_name p) = None.

(** A run on the sequence with the block is matched, position by position,
    by a run on the sequence without it; the chapters it builds are those of
    that run with the ids of the headings after the block moved up by one. *)
Lemma skip_malformed_ids (fuel : nat) :
  forall level i j chs cur log log' r,
    same_position (length pre) i j ->
    from_word_loop fuel (pre ++ BParagraph p :: post) level
      (mkParseState i (map (shift_chapter_ids (length pre)) chs)
         (option_map (shift_chapter_ids (length pre)) cur) log) = Some r ->
    exists r',
      from_word_loop fuel (pre ++ post) level
        (mkParseState j chs cur log') = Some r'
      /\ res_chapters r
         = map (shift_chapter_ids (length pre)) (res_chapters r')
      /\ same_position (length pre) (res_index r) (res_index r').
Proof.
  induction fuel as [| fuel IH];
    intros level i j chs cur log log' r Hij H; [discriminate |].
  destruct (Nat.eq_dec i (length pre)) as [-> | Hne].
  - assert (E : nth_error (pre ++ BParagraph p :: post) (length pre)
                 = Some (BParagraph p)) by apply nth_error_middle.
    loop_step_in H.
    assert (j = length pre) as -> by (unfold same_position in Hij; lia).
    destruct (IH level (S (length pre)) (length pre) chs cur _ log' r
                ltac:(unfold same_position; lia) H)
      as (r' & Hr' & Hres).
    exists r'. split; [now apply loop_more_fuel | exact Hres].
  - pose proof (same_position_nth_error pre post p i j Hij Hne) as Enth.
    assert (Hnext : same_position (length pre) (S i) (S j))
      by (unfold same_position in *; lia).
    block_cases (pre ++ BParagraph p :: post) i level; symmetry in Enth;
      loop_step_in H; loop_step.
    + injection H as <-. eexists; split; [reflexivity |].
      cbn [res_chapters res_index]. split; [apply shift_close_out | exact Hij].
    + rewrite shift_close_out in H.
      rewrite <- (shift_id_same_position _ _ _ Hij Hne) in H.
      exact (IH level (S i) (S j) (close_out chs cur)
               (Some (Chapter_init (par_text p0) (chapter_id j) [])) log log'
               r Hnext H).
    + destruct (from_word_loop fuel (pre ++ BParagraph p :: post) l _)
        as [sub |] eqn:Hsub; [| discriminate].
      destruct (IH l i j [] None log log' sub Hij Hsub)
        as (sub' & Hsub' & Hsubc & Hsuba).
      rewrite Hsub'. rewrite Hsubc, shift_of_chapter, shift_extend in H.
      exact (IH level _ _ chs _ _ _ r Hsuba H).
    + exact (IH level (S i) (S j) chs cur _ _ r Hnext H).
    + assert (Hcur : (if Py.truthy (Py.strip (par_text p0))
                      then extend_current
                             (option_map (shift_chapter_ids (length pre)) cur)
                             [EParagraph (Paragraph_from_word p0)]
                      else option_map (shift_chapter_ids (length pre)) cur)
                     = option_map (shift_chapter_ids (length pre))
                         (if Py.truthy (Py.strip (par_text p0))
                          then extend_current cur
                                 [EParagraph (Paragraph_from_word p0)]
                          else cur)).
      { destruct (Py.truthy _); [| reflexivity].
        apply (shift_extend _ cur [EParagraph (Paragraph_from_word p0)]). }
      rewrite Hcur in H.
      exact (IH level (S i) (S j) chs _ _ _ r Hnext H).
    + change [ETable (Table_from_word t)]
        with (map (shift_ids (length pre)) [ETable (Table_from_word t)]) in H.
      rewrite shift_extend in H.
      exact (IH level (S i) (S j) chs _ _ _ r Hnext H).
    + exact (IH level (S i) (S j) chs cur _ _ r Hnext H).
    + injection H as <-. eexists; split; [reflexivity |].
      cbn [res_chapters res_index]. split; [apply shift_close_out | exact Hij].
Qed.

Lemma malformed_shifts_ids (level : Z) (log : list LogRecord) :
  chapters_of (Chapter_from_word (pre ++ BParagraph p :: post) 0 level log)
  = option_map (map (shift_chapter_ids (length pre)))
      (chapters_of (Chapter_from_word (pre ++ post) 0 level log)).
Proof.
  destruct (Chapter_from_word_returns (pre ++ BParagraph p :: post) 0 level
              log) as [r Hr].
  rewrite Hr. unfold Chapter_from_word in Hr.
  destruct (skip_malformed_ids (enough_fuel (pre ++ BParagraph p :: post) 0)
              level 0 0 [] None log log r
              ltac:(unfold same_position; lia) Hr)
    as (r' & Hr' & Hc & _).
  rewrite (Chapter_from_word_any_fuel _ _ _ _ _ _ Hr').
  cbn. now rewrite Hc.
Qed.

End MalformedIds.

Lemma is_malformed_heading_inv (b : Block) :
  is_malformed_heading b = true ->
  exists p, b = BParagraph p
    /\ Py.startswith "Heading" (style_name p) = true
    /\ parse_heading_level (style_name p) = None.
Proof.
  destruct b as [p | t | n]; simpl; try discriminate.
  intros H. apply andb_prop in H. destruct H as [Hs Hl].
  exists p. repeat split; auto.
  destruct (parse_heading_level (style_name p)); [discriminate | reflexivity].
Qed.

(** C5 (as the code has it): a heading paragraph whose level token does not
    parse as an integer is skipped.  Whenever the loop stands on it, it logs
    the error, moves to the next index and goes on with its chapters
    untouched; and the chapters the reconstruction returns are those it
    returns on the sequence without that block, except for their ids: an id
    is made from the index of the heading, so the chapters of the headings
    after the block carry the id of an index one higher ([chapter-(j+1)]
    where the sequence without the block gives [chapter-j]), and those
    before it the same id. *)
Theorem malformed_heading_skipped (pre post : list Block) (b : Block)
    (level : Z) (log : list LogRecord) :
  is_malformed_heading b = true ->
  (forall fuel lvl chs cur lg,
      from_word_loop (S fuel) (pre ++ b :: post) lvl
        (mkParseState (length pre) chs cur lg)
      = from_word_loop fuel (pre ++ b :: post) lvl
          (mkParseState (S (length pre)) chs cur
             (lg ++ [invalid_heading (block_style b)])))
  /\ chapters_modulo_ids (Chapter_from_word (pre ++ b :: post) 0 level log)
     = chapters_modulo_ids (Chapter_from_word (pre ++ post) 0 level log)
  /\ chapters_of (Chapter_from_word (pre ++ b :: post) 0 level log)
     = option_map (map (shift_chapter_ids (length pre)))
         (chapters_of (Chapter_from_word (pre ++ post) 0 level log))
  /\ (forall j,
        shift_id (length pre) (chapter_id j)
        = chapter_id (if (length pre <=? j)%nat then S j else j)).
Proof.
  intros Hb. apply is_malformed_heading_inv in Hb as (p & -> & Hs & Hl).
  refine (conj _ (conj _ (conj _ _))).
  - intros fuel lvl chs cur lg. cbn [block_style].
    apply loop_malformed; auto. apply nth_error_middle.
  - now apply malformed_same_modulo_ids.
  - now apply malformed_shifts_ids.
  - intros j. apply shift_id_chapter_id.
Qed.

Lemma malformed_heading_skipped_witness :
  chapters_modulo_ids
    (Chapter_from_word [heading "1" "A"; heading "x" "B"; heading "1" "C"] 0 1 [])
  = chapters_modulo_ids
      (Chapter_from_word [heading "1" "A"; heading "1" "C"] 0 1 [])
  /\ chapters_of
       (Chapter_from_word [heading "1" "A"; heading "x" "B"; heading "1" "C"]
          0 1 [])
     = option_map (map (shift_chapter_ids 1))
         (chapters_of
            (Chapter_from_word [heading "1" "A"; heading "1" "C"] 0 1 []))
  /\ (forall j,
        shift_id 1 (chapter_id j)
        = chapter_id (if (1 <=? j)%nat then S j else j)).
Proof.
  exact (proj2 (malformed_heading_skipped [heading "1" "A"] [heading "1" "C"]
                  (heading "x" "B") 1 [] eq_refl)).
Defined.

(** C5 as stated fails: after the skipped block the ids differ from those on
    the sequence without it. *)
Lemma malformed_heading_shifts_ids :
  option_map res_chapters
    (Chapter_from_word [heading "x" "A"; heading "1" "B"] 0 1 [])
  = Some [mkChapter "B" "chapter-1" []]
  /\ option_map res_chapters (Chapter_from_word [heading "1" "B"] 0 1 [])
     = Some [mkChapter "B" "chapter-0" []].
Proof. split; vm_compute; reflexivity. Qed.

(** ** Round trip through the tree format *)

(** Induction on elements, with the property on the elements of a chapter. *)
Lemma DocumentElement_nested_ind (P : DocumentElement -> Prop) :
  (forall t i es, Forall P es -> P (EChapter t i es)) ->
  (forall t, P (ETable t)) ->
  (forall p, P (EParagraph p)) ->
  forall e, P e.
Proof.
  intros Hc Ht Hp. fix self 1.
  intros [t i es | t | p]; [apply Hc | apply Ht | apply Hp].
  induction es as [| e es IH]; constructor; [apply self | exact IH].
Qed.

Lemma rstrip_idempotent (s : string) : Py.rstrip (Py.rstrip s) = Py.rstrip s.
Proof.
  induction s as [| c r IH]; [reflexivity |].
  cbn [Py.rstrip]. destruct (Py.rstrip r) as [| c' r'] eqn:E.
  - destruct (Py.is_space c) eqn:Hc; [reflexivity |].
    cbn. now rewrite Hc.
  - cbn [Py.rstrip]. cbn [Py.rstrip] in IH. rewrite IH. reflexivity.
Qed.

Lemma rstrip_keeps_head (c : ascii) (r : string) :
  Py.is_space c = false ->
  exists r', Py.rstrip (String c r) = String c r'.
Proof.
  intros Hc. cbn [Py.rstrip]. destruct (Py.rstrip r); rewrite ?Hc; eauto.
Qed.

Lemma lstrip_head (s : string) :
  Py.lstrip s = EmptyString
  \/ exists c r, Py.lstrip s = String c r /\ Py.is_space c = false.
Proof.
  induction s as [| c r IH]; [now left |].
  cbn. destruct (Py.is_space c) eqn:Hc; [exact IH | right; eauto].
Qed.

(** Stripping a stripped string changes nothing. *)
Lemma strip_idempotent (s : string) : Py.strip (Py.strip s) = Py.strip s.
Proof.
  unfold Py.strip. destruct (lstrip_head s) as [-> | (c & r & -> & Hc)];
    [reflexivity |].
  destruct (rstrip_keeps_head c r Hc) as [r' E].
  rewrite E. cbn [Py.lstrip]. rewrite Hc, <- E. apply rstrip_idempotent.
Qed.

(** What the constructors of the model build is [constructed]. *)
Lemma constructors_constructed (s i : string) (es : list DocumentElement) :
  constructed (EParagraph (Paragraph_init s)) = true
  /\ (forallb constructed es = true ->
      constructed (of_chapter (Chapter_init s i es)) = true
      /\ constructed_document (Document_init s es) = true).
Proof.
  assert (E : String.eqb (Py.strip (Py.strip s)) (Py.strip s) = true)
    by (rewrite strip_idempotent; apply String.eqb_refl).
  split; [exact E |]. intros Hes.
  unfold constructed_document, of_chapter, Chapter_init, Document_init.
  cbn [constructed doc_title doc_elements title id_ elements].
  rewrite E, Hes. auto.
Qed.

Lemma filter_all {A} (f : A -> bool) (l : list A) :
  forallb f l = true -> filter f l = l.
Proof.
  induction l as [| a l IH]; cbn; [auto |].
  intros H. apply andb_prop in H as [Ha Hl]. rewrite Ha, IH; auto.
Qed.

Lemma paragraph_round_trip (p : Paragraph) :
  Py.strip (text p) = text p ->
  Paragraph_from_xml (reparsed (Paragraph_to_xml p)) = p.
Proof.
  destruct p as [txt]. cbn [text]. intros E.
  unfold Paragraph_from_xml, Paragraph_init.
  destruct txt; cbn; [reflexivity |]. cbn in E. now rewrite E.
Qed.

Lemma column_round_trip (column : option string * option string) :
  column_kept column = true ->
  (fun col => (etext col, get (attrib col) "width"))
    (reparsed
       (let '(col, width) := column in
        mkElement "column"
          match width with
          | Some (String c r) => [("width", String c r)]
          | _ => []
          end col []))
  = column.
Proof.
  destruct column as [[[| c r] |] [[| c' r'] |]]; cbn; try discriminate;
    reflexivity.
Qed.

Lemma cell_round_trip (cell : string) :
  text_or_empty (etext (reparsed (mkElement "cell" [] (Some cell) []))) = cell.
Proof. destruct cell; reflexivity. Qed.

Lemma findall_all (name t : string) (a : list (string * string))
    (x : option string) (cs : list Element) :
  forallb (fun c => String.eqb (tag c) name) cs = true ->
  findall name (mkElement t a x cs) = cs.
Proof. intros H. unfold findall. cbn [children]. now apply filter_all. Qed.

Lemma map_fixed {A} (f : A -> A) (l : list A) :
  (forall a, In a l -> f a = a) -> map f l = l.
Proof.
  intros H. rewrite <- (map_id l) at 2. now apply map_ext_in.
Qed.

Lemma tags_of_map {A} (name : string) (f : A -> Element) (l : list A) :
  (forall a, tag (f a) = name) ->
  forallb (fun c => String.eqb (tag c) name) (map f l) = true.
Proof.
  intros H. apply forallb_forall. intros x Hx.
  apply in_map_iff in Hx as (a & <- & _). rewrite H. apply String.eqb_refl.
Qed.

Lemma table_round_trip (t : Table) :
  forallb column_kept (columns t) = true ->
  Table_from_xml (reparsed (Table_to_xml t)) = Ok t.
Proof.
  destruct t as [cols data]. cbn [columns]. intros Hk.
  unfold Table_to_xml, Table_from_xml. cbn [columns rows].
  cbn [reparsed map find List.find children tag String.eqb Ascii.eqb Bool.eqb].
  rewrite !map_map.
  rewrite !findall_all
    by (apply tags_of_map; try intros [col width]; reflexivity).
  rewrite !map_map.
  f_equal. f_equal.
  - apply map_fixed. intros column Hin.
    apply column_round_trip.
    rewrite forallb_forall in Hk. now apply Hk.
  - apply map_fixed. intros row _.
    cbn [reparsed]. rewrite map_map.
    rewrite findall_all by (apply tags_of_map; reflexivity).
    rewrite map_map. apply map_fixed. intros cell _. apply cell_round_trip.
Qed.

Lemma children_round_trip (es : list DocumentElement) :
  Forall child_round_trip es ->
  forallb constructed es = true ->
  forallb columns_kept es = true ->
  elements_from_xml Chapter_from_xml
    (map reparsed (map DocumentElement_to_xml es))
  = Ok es.
Proof.
  induction 1 as [| e es He Hes IH]; cbn [forallb map]; intros Hc Hk;
    [reflexivity |].
  apply andb_prop in Hc as [Hc Hcs]. apply andb_prop in Hk as [Hk Hks].
  rewrite (He Hc Hk). rewrite IH by assumption. reflexivity.
Qed.

Lemma chapter_round_trip (t i : string) (es : list DocumentElement) :
  Py.strip t = t ->
  elements_from_xml Chapter_from_xml
    (map reparsed (map DocumentElement_to_xml es)) = Ok es ->
  Chapter_from_xml (reparsed (DocumentElement_to_xml (EChapter t i es)))
  = Ok (mkChapter t i es).
Proof.
  intros Ht Hes.
  cbn [DocumentElement_to_xml reparsed Chapter_from_xml].
  rewrite Hes. cbn. unfold Chapter_init. now rewrite Ht.
Qed.

Lemma element_round_trip (e : DocumentElement) : child_round_trip e.
Proof.
  induction e as [t i es IH | t | p] using DocumentElement_nested_ind;
    intros Hc Hk rest.
  - cbn [constructed columns_kept] in Hc, Hk.
    apply andb_prop in Hc as [Ht Hc]. apply String.eqb_eq in Ht.
    pose proof (chapter_round_trip t i es Ht
                  (children_round_trip es IH Hc Hk)) as E.
    cbn [DocumentElement_to_xml reparsed] in *.
    cbn [elements_from_xml tag String.eqb Ascii.eqb Bool.eqb].
    rewrite E. reflexivity.
  - cbn [columns_kept] in Hk.
    pose proof (table_round_trip t Hk) as E.
    cbn [DocumentElement_to_xml].
    unfold Table_to_xml in *. cbn [reparsed] in *.
    cbn [elements_from_xml tag String.eqb Ascii.eqb Bool.eqb].
    rewrite E. reflexivity.
  - cbn [constructed] in Hc. apply String.eqb_eq in Hc.
    pose proof (paragraph_round_trip p Hc) as E.
    cbn [DocumentElement_to_xml]. unfold Paragraph_to_xml in *.
    cbn [reparsed] in *.
    cbn [elements_from_xml tag String.eqb Ascii.eqb Bool.eqb].
    rewrite E. reflexivity.
Qed.

Lemma chapters_round_trip (es : list DocumentElement) :
  forallb is_chapter es = true ->
  forallb constructed es = true ->
  forallb columns_kept es = true ->
  chapters_from_xml
    (findall "chapter"
       (mkElement "document" [] None
          (map reparsed (map DocumentElement_to_xml es))))
  = Ok es.
Proof.
  intros Hch Hc Hk.
  rewrite findall_all.
  - induction es as [| e es IH]; [reflexivity |].
    cbn [forallb] in *.
    apply andb_prop in Hch as [He Hch]. apply andb_prop in Hc as [Hce Hc].
    apply andb_prop in Hk as [Hke Hk].
    destruct e as [t i es' | |]; try discriminate.
    cbn [map chapters_from_xml].
    pose proof (element_round_trip (EChapter t i es') Hce Hke []) as E.
    cbn [DocumentElement_to_xml reparsed] in E.
    cbn [elements_from_xml tag String.eqb Ascii.eqb Bool.eqb bind] in E.
    cbn [DocumentElement_to_xml reparsed].
    destruct (Chapter_from_xml _) as [c |]; [| discriminate].
    cbn [bind] in E.
    assert (Ec : of_chapter c = EChapter t i es') by congruence.
    cbn [bind]. rewrite IH by assumption.
    cbn [bind]. rewrite Ec. reflexivity.
  - rewrite map_map. apply forallb_forall. intros x Hx.
    apply in_map_iff in Hx as (e & <- & He).
    rewrite forallb_forall in Hch. apply Hch in He.
    destruct e; try discriminate. reflexivity.
Qed.

Lemma root_round_trip (d : Document) :
  constructed_document d = true ->
  forallb is_chapter (doc_elements d) = true ->
  forallb columns_kept (doc_elements d) = true ->
  Document_from_root (reparsed (Document_to_root d)) = Ok d.
Proof.
  destruct d as [t es]. unfold constructed_document.
  cbn [doc_title doc_elements]. intros Hc Hch Hk.
  apply andb_prop in Hc as [Ht Hc]. apply String.eqb_eq in Ht.
  unfold Document_to_root, Document_from_root.
  cbn [doc_title doc_elements reparsed attrib].
  pose proof (chapters_round_trip es Hch Hc Hk) as E.
  unfold findall in *. cbn [children] in *. rewrite E.
  cbn. unfold Document_init. now rewrite Ht.
Qed.

(** C1 (as the code has it): for a document built by the model whose
    top-level elements are all chapters and whose tables have no column with
    the empty string as name or as width, and whose serialisation the XML
    library parses back to the tree that was written (an empty text read
    back as no text), parsing what [to_xml] produced gives the document
    back. *)
Theorem xml_round_trip `{ElementTreeLib} (d : Document) :
  constructed_document d = true ->
  forallb is_chapter (doc_elements d) = true ->
  forallb columns_kept (doc_elements d) = true ->
  fromstring (tostring (Document_to_root d))
  = Ok (reparsed (Document_to_root d)) ->
  Document_from_xml (Document_to_xml d) = Ok d.
Proof.
  intros Hc Hch Hk Hlib.
  unfold Document_from_xml, Document_to_xml. rewrite Hlib.
  cbn [bind]. now apply root_round_trip.
Qed.

Lemma xml_round_trip_witness :
  @Document_from_xml RefElementTree
    (@Document_to_xml RefElementTree sample_document)
  = Ok sample_document.
Proof.
  exact (@xml_round_trip RefElementTree sample_document
           eq_refl eq_refl eq_refl eq_refl).
Defined.

(** C1 as stated fails: a document built by the model with a paragraph at
    its top level comes back without it. *)
Lemma xml_round_trip_drops_top_level_paragraph :
  constructed_document flat_document = true
  /\ flat_document = mkDocument "D" [EParagraph (mkParagraph "x")]
  /\ @Document_from_xml RefElementTree
       (@Document_to_xml RefElementTree flat_document)
     = Ok (mkDocument "D" []).
Proof. repeat split. Qed.

(** A column named by the empty string comes back with no name. *)
Lemma xml_round_trip_blank_column :
  constructed_document blank_column_document = true
  /\ @Document_from_xml RefElementTree
       (@Document_to_xml RefElementTree blank_column_document)
     = Ok (mkDocument "D"
             [EChapter "C" "x" [ETable (mkTable [(None, None)] [])]]).
Proof. split; vm_compute; reflexivity. Qed.

(** ** What every call of [Chapter.from_word] guarantees *)

Lemma loop_index_upper (fuel : nat) :
  forall paragraphs level st r,
    from_word_loop fuel paragraphs level st = Some r ->
    res_index r <= Nat.max (st_index st) (length paragraphs).
Proof.
  induction fuel as [| fuel IH]; intros paragraphs level [i chs cur log] r H;
    [discriminate |].
  cbn [st_index].
  block_cases paragraphs i level;
    try (assert (i < length paragraphs) by (apply nth_error_Some; congruence));
    loop_step_in H;
    try (injection H as <-; cbn; lia);
    try (apply IH in H; cbn [st_index] in H; lia).
  destruct (from_word_loop fuel paragraphs l _) as [sub |] eqn:Hsub;
    [| discriminate].
  apply IH in Hsub. apply IH in H. cbn [st_index] in *. lia.
Qed.

Lemma loop_log_grows (fuel : nat) :
  forall paragraphs level st r,
    from_word_loop fuel paragraphs level st = Some r ->
    exists more, res_log r = st_log st ++ more.
Proof.
  induction fuel as [| fuel IH]; intros paragraphs level [i chs cur log] r H;
    [discriminate |].
  cbn [st_log].
  block_cases paragraphs i level; loop_step_in H;
    try (injection H as <-; exists []; cbn; now rewrite app_nil_r);
    try (apply IH in H as [more H]; cbn [st_log] in H;
         rewrite <- ?app_assoc in H; eauto; fail).
  destruct (from_word_loop fuel paragraphs l _) as [sub |] eqn:Hsub;
    [| discriminate].
  apply IH in Hsub as [m1 H1]. apply IH in H as [m2 H2].
  cbn [st_log] in *. exists (m1 ++ m2). rewrite H2, H1, app_assoc. reflexivity.
Qed.

(** X1: every call of [Chapter.from_word] returns; the index it returns is
    not below the index it was given and not beyond the end of the list (or
    the start index, when that already lies beyond it), and the log is only
    added to. *)
Theorem Chapter_from_word_total (paragraphs : list Block) (i : nat)
    (level : Z) (log : list LogRecord) :
  exists r,
    Chapter_from_word paragraphs i level log = Some r
    /\ i <= res_index r <= Nat.max i (length paragraphs)
    /\ exists more, res_log r = log ++ more.
Proof.
  destruct (Chapter_from_word_returns paragraphs i level log) as [r Hr].
  exists r. split; [exact Hr |]. unfold Chapter_from_word in Hr.
  pose proof (loop_index_le _ _ _ _ _ Hr) as Hlo.
  pose proof (loop_index_upper _ _ _ _ _ Hr) as Hhi.
  pose proof (loop_log_grows _ _ _ _ _ Hr) as Hlog.
  cbn [st_index st_log] in *. auto.
Qed.

Lemma not_below_at (level : Z) paragraphs i p l :
  (forall j b, i <= j -> nth_error paragraphs j = Some b ->
               not_below level b = true) ->
  nth_error paragraphs i = Some (BParagraph p) ->
  Py.startswith "Heading" (style_name p) = true ->
  parse_heading_level (style_name p) = Some l ->
  (level <= l)%Z.
Proof.
  intros Hall E Hs Hl. specialize (Hall i _ (le_n i) E).
  cbn in Hall. rewrite Hs, Hl in Hall. now apply Z.leb_le.
Qed.

Lemma loop_reaches_end (fuel : nat) :
  forall paragraphs level st r,
    from_word_loop fuel paragraphs level st = Some r ->
    (forall j b, st_index st <= j -> nth_error paragraphs j = Some b ->
                 not_below level b = true) ->
    length paragraphs <= res_index r.
Proof.
  induction fuel as [| fuel IH];
    intros paragraphs level [i chs cur log] r H Hall; [discriminate |].
  cbn [st_index] in Hall.
  block_cases paragraphs i level;
    try (pose proof (not_below_at _ _ _ _ _ Hall E Hs Hl); lia);
    loop_step_in H;
    try (apply IH in H; [exact H |]; cbn [st_index];
         intros j b Hj; apply Hall; lia).
  - destruct (from_word_loop fuel paragraphs l _) as [sub |] eqn:Hsub;
      [| discriminate].
    apply loop_index_le in Hsub. cbn [st_index] in Hsub.
    apply IH in H; [exact H |]. cbn [st_index].
    intros j b Hj; apply Hall; lia.
  - injection H as <-. cbn. now apply nth_error_None.
Qed.

Lemma levels_at_least_nth (level : Z) (blocks : list Block) :
  levels_at_least level blocks = true ->
  forall j b, nth_error blocks j = Some b -> not_below level b = true.
Proof.
  unfold levels_at_least. rewrite forallb_forall.
  intros H j b E. apply H. eapply nth_error_In; eauto.
Qed.

(** X2: when no heading of the list has a level below [level], the call
    consumes every block: the index it returns is the length of the list. *)
Theorem Chapter_from_word_consumes_all (paragraphs : list Block) (i : nat)
    (level : Z) (log : list LogRecord) :
  levels_at_least level paragraphs = true ->
  i <= length paragraphs ->
  exists r,
    Chapter_from_word paragraphs i level log = Some r
    /\ res_index r = length paragraphs.
Proof.
  intros Hall Hi.
  destruct (Chapter_from_word_returns paragraphs i level log) as [r Hr].
  exists r. split; [exact Hr |]. unfold Chapter_from_word in Hr.
  pose proof (loop_index_upper _ _ _ _ _ Hr) as Hhi.
  pose proof (loop_reaches_end _ _ _ _ _ Hr) as Hend.
  cbn [st_index] in *.
  assert (length paragraphs <= res_index r).
  { apply Hend. intros j b _. now apply levels_at_least_nth. }
  lia.
Qed.

(** ** [Document.from_word] on documents whose headings have level 1 or more *)

Section DocLoopSteps.

Variables (fuel : nat) (blocks : list Block).
Variables (i : nat) (chs : list Chapter) (title : option string)
          (log : list LogRecord).

Lemma doc_loop_exit :
  nth_error blocks i = None ->
  Document_from_word_loop (S fuel) blocks (mkDocState i chs title log)
  = Some (mkDocState i chs title log).
Proof. intros E. cbn [Document_from_word_loop ds_index]. now rewrite E. Qed.

Lemma doc_loop_title (b : Block) (p : DocxParagraph) :
  nth_error blocks i = Some b ->
  is_title_block b = Some p ->
  Document_from_word_loop (S fuel) blocks (mkDocState i chs title log)
  = Document_from_word_loop fuel blocks
      (mkDocState (S i) chs (Some (Py.strip (par_text p))) log).
Proof.
  intros E Ht.
  cbn [Document_from_word_loop ds_index ds_chapters ds_title ds_log].
  now rewrite E, Ht.
Qed.

Lemma doc_loop_chapters (b : Block) (r : ParseResult) :
  nth_error blocks i = Some b ->
  is_title_block b = None ->
  Chapter_from_word blocks i 1 log = Some r ->
  Document_from_word_loop (S fuel) blocks (mkDocState i chs title log)
  = Document_from_word_loop fuel blocks
      (mkDocState (res_index r) (chs ++ res_chapters r) title (res_log r)).
Proof.
  intros E Ht Hr.
  cbn [Document_from_word_loop ds_index ds_chapters ds_title ds_log].
  now rewrite E, Ht, Hr.
Qed.

End DocLoopSteps.

Lemma doc_loop_titles (titles : list DocxParagraph) :
  forall done rest chs title log fuel,
    forallb title_style titles = true ->
    Document_from_word_loop (length titles + fuel)
      (done ++ map BParagraph titles ++ rest)
      (mkDocState (length done) chs title log)
    = Document_from_word_loop fuel (done ++ map BParagraph titles ++ rest)
        (mkDocState (length done + length titles) chs
           (title_after titles title) log).
Proof.
  induction titles as [| p titles IH]; intros done rest chs title log fuel Ht.
  - cbn. now rewrite Nat.add_0_r.
  - cbn [forallb] in Ht. apply andb_prop in Ht as [Hp Ht].
    cbn [length Nat.add map app].
    erewrite doc_loop_title;
      [| apply nth_error_middle | cbn; unfold title_style in Hp; now rewrite Hp].
    specialize (IH (done ++ [BParagraph p]) rest chs
                  (Some (Py.strip (par_text p))) log fuel Ht).
    rewrite <- app_assoc, length_app in IH. cbn [app length] in IH.
    rewrite Nat.add_1_r in IH. rewrite <- Nat.add_succ_comm.
    exact IH.
Qed.

(** X3: on a document that starts with title paragraphs and has no heading
    of a level below 1 after them, [Document.from_word] returns: the title is
    the text of the last of the leading title paragraphs (the default title
    when there is none or it is blank), and the chapters are those of one
    call of [Chapter.from_word] started after the titles at level 1, which
    reads every remaining block. *)
Theorem Document_from_word_composes (body : DocxDocument)
    (titles : list DocxParagraph) (rest : list Block) (log0 : list LogRecord)
    (fuel : nat) :
  iter_block_items body = (map BParagraph titles ++ rest, log0) ->
  forallb title_style titles = true ->
  head_not_title rest = true ->
  levels_at_least 1 rest = true ->
  length titles + 2 <= fuel ->
  exists r,
    Chapter_from_word (map BParagraph titles ++ rest) (length titles) 1 log0
    = Some r
    /\ res_index r = length (map BParagraph titles ++ rest)
    /\ Document_from_word fuel body
       = Some (titled_document (title_after titles None) (res_chapters r)
                 (res_log r)).
Proof.
  intros Hbody Ht Hhead Hlev Hfuel.
  set (blocks := map BParagraph titles ++ rest) in *.
  destruct (Chapter_from_word_returns blocks (length titles) 1 log0) as [r Hr].
  assert (Hend : res_index r = length blocks).
  { unfold Chapter_from_word in Hr.
    pose proof (loop_index_upper _ _ _ _ _ Hr) as Hhi.
    pose proof (loop_reaches_end _ _ _ _ _ Hr) as Hlo.
    cbn [st_index] in *.
    assert (length titles <= length blocks)
      by (unfold blocks; rewrite length_app, length_map; lia).
    assert (length blocks <= res_index r); [| lia].
    apply Hlo. intros j b Hj E. unfold blocks in E.
    rewrite nth_error_app2 in E by (rewrite length_map; lia).
    eapply levels_at_least_nth; eauto. }
  exists r. split; [exact Hr |]. split; [exact Hend |].
  unfold Document_from_word. rewrite Hbody.
  replace fuel with (length titles + (fuel - length titles)) by lia.
  pose proof (doc_loop_titles titles [] rest [] None log0
                (fuel - length titles) Ht) as Hloop.
  cbn [app length Nat.add] in Hloop. fold blocks in Hloop. rewrite Hloop.
  destruct (fuel - length titles) as [| [| f]] eqn:Hf; try lia.
  destruct rest as [| b rest].
  - assert (E : nth_error blocks (length titles) = None).
    { apply nth_error_None. unfold blocks.
      rewrite length_app, length_map. cbn. lia. }
    rewrite doc_loop_exit by exact E.
    unfold Chapter_from_word, enough_fuel in Hr.
    replace (2 * (length blocks - length titles) + 2)
      with (S (S (2 * (length blocks - length titles)))) in Hr by lia.
    rewrite loop_end in Hr by exact E. injection Hr as <-.
    cbn [ds_title ds_chapters ds_log res_chapters res_log close_out].
    unfold titled_document. destruct (title_after titles None) as [[| c s] |];
      reflexivity.
  - assert (E : nth_error blocks (length titles) = Some b).
    { unfold blocks. rewrite <- (length_map BParagraph titles).
      apply nth_error_middle. }
    cbn [head_not_title] in Hhead.
    assert (Hb : is_title_block b = None)
      by (destruct (is_title_block b); [discriminate | reflexivity]).
    rewrite (doc_loop_chapters _ _ _ _ _ _ b r E Hb Hr).
    rewrite doc_loop_exit by (apply nth_error_None; lia).
    cbn [ds_title ds_chapters ds_log app].
    unfold titled_document. destruct (title_after titles None) as [[| c s] |];
      reflexivity.
Qed.

Lemma Document_from_word_composes_witness :
  exists r,
    Chapter_from_word
      (map BParagraph [mkDocxParagraph "Title" " T "]
       ++ [heading "1" "A"; plain "hi"]) 1 1 []
    = Some r
    /\ res_index r = 3
    /\ Document_from_word 3
         [BParagraph (mkDocxParagraph "Title" " T "); heading "1" "A";
          plain "hi"]
       = Some (titled_document (Some "T") (res_chapters r) (res_log r)).
Proof.
  exact (Document_from_word_composes
           [BParagraph (mkDocxParagraph "Title" " T "); heading "1" "A";
            plain "hi"]
           [mkDocxParagraph "Title" " T "] [heading "1" "A"; plain "hi"] [] 3
           eq_refl eq_refl eq_refl eq_refl (le_n 3)).
Defined.

Lemma Chapter_from_word_consumes_all_witness :
  exists r,
    Chapter_from_word [heading "2" "A"; plain "x"; heading "3" "B"] 1 2 []
    = Some r
    /\ res_index r = 3.
Proof.
  exact (Chapter_from_word_consumes_all
           [heading "2" "A"; plain "x"; heading "3" "B"] 1 2 []
           eq_refl (le_S _ _ (le_S _ _ (le_n 1)))).
Defined.

(** ** Stripped titles and texts: an invariant of both readers *)


Lemma constructed_init (t i : string) :
  chapter_constructed (Chapter_init t i []) = true.
Proof.
  unfold chapter_constructed, of_chapter, Chapter_init.
  cbn [constructed title id_ elements forallb].
  rewrite strip_idempotent, String.eqb_refl. reflexivity.
Qed.

Lemma constructed_close_out chs cur :
  forallb chapter_constructed chs = true ->
  match cur with Some c => chapter_constructed c = true | None => True end ->
  forallb chapter_constructed (close_out chs cur) = true.
Proof.
  intros Hchs Hcur. destruct cur as [c |]; cbn [close_out]; [| exact Hchs].
  rewrite forallb_app, Hchs. cbn [forallb]. now rewrite Hcur.
Qed.

Lemma constructed_extend cur es :
  match cur with Some c => chapter_constructed c = true | None => True end ->
  forallb constructed es = true ->
  match extend_current cur es with
  | Some c => chapter_constructed c = true
  | None => True
  end.
Proof.
  destruct cur as [[t i els] |]; cbn [extend_current]; [| auto].
  unfold chapter_constructed, of_chapter.
  cbn [constructed title id_ elements]. intros Hc Hes.
  apply andb_prop in Hc as [Ht Hels].
  rewrite Ht, forallb_app, Hels, Hes. reflexivity.
Qed.

Lemma constructed_of_chapters chs :
  forallb chapter_constructed chs = true ->
  forallb constructed (map of_chapter chs) = true.
Proof.
  intros H. rewrite forallb_forall in *. intros e He.
  apply in_map_iff in He as (c & <- & Hc). now apply H.
Qed.

Lemma loop_constructed (fuel : nat) :
  forall paragraphs level st r,
    from_word_loop fuel paragraphs level st = Some r ->
    forallb chapter_constructed (st_chapters st) = true ->
    match st_current st with
    | Some c => chapter_constructed c = true
    | None => True
    end ->
    forallb chapter_constructed (res_chapters r) = true.
Proof.
  induction fuel as [| fuel IH];
    intros paragraphs level [i chs cur log] r H Hchs Hcur; [discriminate |].
  cbn [st_chapters st_current] in *.
  block_cases paragraphs i level; loop_step_in H;
    try (injection H as <-; cbn [res_chapters];
         now apply constructed_close_out);
    try (apply IH in H; [exact H | |];
         cbn [st_chapters st_current]; auto;
         first [ now apply constructed_close_out
               | now apply constructed_init
               | now apply constructed_extend ]; fail).
  - destruct (from_word_loop fuel paragraphs l _) as [sub |] eqn:Hsub;
      [| discriminate].
    apply IH in Hsub; cbn [st_chapters st_current]; auto.
    apply IH in H; [exact H | |]; cbn [st_chapters st_current]; auto.
    apply constructed_extend; auto. now apply constructed_of_chapters.
  - apply IH in H; [exact H | |]; cbn [st_chapters st_current]; auto.
    destruct (Py.truthy _); auto.
    apply constructed_extend; auto.
    unfold Paragraph_from_word, Paragraph_init. cbn [forallb constructed text].
    rewrite strip_idempotent, String.eqb_refl. reflexivity.
Qed.

(** X4: in every chapter [Chapter.from_word] returns, at any depth, the
    chapter titles and the paragraph texts are stripped: the chapters are
    values as the constructors build them. *)
Theorem Chapter_from_word_constructed (paragraphs : list Block) (i : nat)
    (level : Z) (log : list LogRecord) :
  exists r,
    Chapter_from_word paragraphs i level log = Some r
    /\ forallb constructed (map of_chapter (res_chapters r)) = true.
Proof.
  destruct (Chapter_from_word_returns paragraphs i level log) as [r Hr].
  exists r. split; [exact Hr |].
  apply constructed_of_chapters.
  eapply loop_constructed; [exact Hr | reflexivity | exact I].
Qed.

(** ** [from_xml]: unknown tags, failures and what it returns *)

Lemma Element_nested_ind (P : Element -> Prop) :
  (forall t a x cs, Forall P cs -> P (mkElement t a x cs)) ->
  forall e, P e.
Proof.
  intros H. fix self 1. intros [t a x cs]. apply H.
  induction cs as [| c cs IH]; constructor; [apply self | exact IH].
Qed.

Lemma elements_skip_unknown (F : Element -> outcome Chapter)
    (pre post : list Element) (c : Element) :
  known_tag (tag c) = false ->
  elements_from_xml F (pre ++ c :: post) = elements_from_xml F (pre ++ post).
Proof.
  intros Hc. unfold known_tag in Hc.
  apply orb_false_elim in Hc as [Hc Hp]. apply orb_false_elim in Hc as [Hc Ht].
  induction pre as [| e pre IH]; cbn [app elements_from_xml].
  - now rewrite Hc, Ht, Hp.
  - now rewrite IH.
Qed.

(** X5: [Chapter.from_xml] ignores a child whose tag is none of chapter,
    table and paragraph, wherever it stands among the children: the result
    is the one for the element without that child. *)
Theorem Chapter_from_xml_skips_unknown (t : string)
    (a : list (string * string)) (x : option string)
    (pre post : list Element) (c : Element) :
  known_tag (tag c) = false ->
  Chapter_from_xml (mkElement t a x (pre ++ c :: post))
  = Chapter_from_xml (mkElement t a x (pre ++ post)).
Proof.
  intros Hc. cbn [Chapter_from_xml].
  now rewrite (elements_skip_unknown _ _ _ _ Hc).
Qed.

Lemma Chapter_from_xml_skips_unknown_witness :
  Chapter_from_xml
    (mkElement "chapter" [("title", "C")] None
       ([mkElement "paragraph" [] (Some "a") []]
        ++ mkElement "note" [] (Some "n") []
           :: [mkElement "paragraph" [] (Some "b") []]))
  = Chapter_from_xml
      (mkElement "chapter" [("title", "C")] None
         ([mkElement "paragraph" [] (Some "a") []]
          ++ [mkElement "paragraph" [] (Some "b") []])).
Proof.
  exact (Chapter_from_xml_skips_unknown "chapter" [("title", "C")] None
           [mkElement "paragraph" [] (Some "a") []]
           [mkElement "paragraph" [] (Some "b") []]
           (mkElement "note" [] (Some "n") []) eq_refl).
Defined.


Lemma elements_fail_as_expected (cs : list Element) :
  Forall (fun child =>
            fails_as_expected (Chapter_from_xml child) (lacks_columns child))
         cs ->
  fails_as_expected (elements_from_xml Chapter_from_xml cs)
    (lacks_columns (mkElement "" [] None cs)).
Proof.
  cbn [lacks_columns].
  induction 1 as [| child cs Hchild Hcs IH]; [reflexivity |].
  cbn [elements_from_xml existsb].
  destruct (String.eqb (tag child) "chapter").
  - destruct (Chapter_from_xml child) as [c | e]; cbn [bind];
      cbn [fails_as_expected] in Hchild.
    + rewrite Hchild. cbn [orb].
      destruct (elements_from_xml Chapter_from_xml cs); exact IH.
    + destruct Hchild as [-> ->]. cbn. auto.
  - destruct (String.eqb (tag child) "table").
    + unfold Table_from_xml.
      destruct (find "columns" child); cbn [bind orb]; [| cbn; auto].
      destruct (elements_from_xml Chapter_from_xml cs); exact IH.
    + destruct (String.eqb (tag child) "paragraph"); cbn [orb];
        [destruct (elements_from_xml Chapter_from_xml cs) |]; exact IH.
Qed.

Lemma chapter_fails_as_expected (e : Element) :
  fails_as_expected (Chapter_from_xml e) (lacks_columns e).
Proof.
  induction e as [t a x cs IH] using Element_nested_ind.
  pose proof (elements_fail_as_expected cs IH) as H.
  cbn [Chapter_from_xml]. cbn [lacks_columns] in *.
  destruct (elements_from_xml Chapter_from_xml cs); exact H.
Qed.

(** X6: parsing a tree can fail in one way only.  [Document.from_xml] on a
    parsed root raises AttributeError when, below one of the root's chapter
    children and through chapter children only, some table has no [columns]
    child; otherwise it returns a document. *)
Theorem from_xml_fails_only_on_missing_columns (root : Element) :
  fails_as_expected (Document_from_root root)
    (existsb lacks_columns (findall "chapter" root)).
Proof.
  unfold Document_from_root.
  induction (findall "chapter" root) as [| e es IH]; [reflexivity |].
  cbn [chapters_from_xml existsb].
  pose proof (chapter_fails_as_expected e) as He.
  destruct (Chapter_from_xml e) as [c | x]; cbn [bind fails_as_expected] in *.
  - rewrite He. cbn [orb].
    destruct (chapters_from_xml es); exact IH.
  - destruct He as [-> ->]. auto.
Qed.

Lemma elements_from_xml_constructed (cs : list Element) :
  Forall (fun child =>
            forall c, Chapter_from_xml child = Ok c ->
                      chapter_constructed c = true) cs ->
  forall es, elements_from_xml Chapter_from_xml cs = Ok es ->
             forallb constructed es = true.
Proof.
  induction 1 as [| child cs Hchild Hcs IH]; cbn [elements_from_xml];
    intros es E.
  - injection E as <-. reflexivity.
  - destruct (String.eqb (tag child) "chapter").
    { destruct (Chapter_from_xml child) as [c |]; [| discriminate].
      cbn [bind] in E.
      destruct (elements_from_xml Chapter_from_xml cs) as [es' |];
        [| discriminate].
      injection E as <-. cbn [forallb].
      rewrite (IH _ eq_refl). specialize (Hchild c eq_refl).
      unfold chapter_constructed in Hchild. now rewrite Hchild. }
    destruct (String.eqb (tag child) "table").
    { destruct (Table_from_xml child) as [t |]; [| discriminate].
      cbn [bind] in E.
      destruct (elements_from_xml Chapter_from_xml cs) as [es' |];
        [| discriminate].
      injection E as <-. cbn [forallb constructed]. now rewrite (IH _ eq_refl). }
    destruct (String.eqb (tag child) "paragraph"); [| now apply IH].
    destruct (elements_from_xml Chapter_from_xml cs) as [es' |];
      [| discriminate].
    injection E as <-. cbn [forallb constructed].
    unfold Paragraph_from_xml, Paragraph_init. cbn [text].
    rewrite strip_idempotent, String.eqb_refl. now rewrite (IH _ eq_refl).
Qed.

Lemma Chapter_from_xml_constructed (e : Element) :
  forall c, Chapter_from_xml e = Ok c -> chapter_constructed c = true.
Proof.
  induction e as [t a x cs IH] using Element_nested_ind. intros c E.
  cbn [Chapter_from_xml] in E.
  destruct (elements_from_xml Chapter_from_xml cs) as [es |] eqn:Hes;
    [| discriminate].
  injection E as <-.
  unfold chapter_constructed, of_chapter, Chapter_init.
  cbn [constructed title id_ elements].
  rewrite strip_idempotent, String.eqb_refl.
  now rewrite (elements_from_xml_constructed cs IH es Hes).
Qed.

(** X7: a document [Document.from_xml] returns has a stripped title, and in
    all its chapters, at any depth, the titles and paragraph texts are
    stripped, whatever whitespace the attributes and texts of the tree
    carry. *)
Theorem from_xml_returns_constructed (root : Element) :
  match Document_from_root root with
  | Ok d => constructed_document d = true
  | Raise _ => True
  end.
Proof.
  unfold Document_from_root.
  destruct (chapters_from_xml (findall "chapter" root)) as [es |] eqn:Hes;
    cbn [bind]; [| exact I].
  unfold constructed_document, Document_init. cbn [doc_title doc_elements].
  rewrite strip_idempotent, String.eqb_refl. cbn [andb].
  revert es Hes. induction (findall "chapter" root) as [| e l IH];
    cbn [chapters_from_xml]; intros es Hes.
  - injection Hes as <-. reflexivity.
  - destruct (Chapter_from_xml e) as [c |] eqn:Hc; [| discriminate].
    cbn [bind] in Hes.
    destruct (chapters_from_xml l) as [es' |]; [| discriminate].
    injection Hes as <-. cbn [forallb]. rewrite (IH _ eq_refl).
    apply Chapter_from_xml_constructed in Hc.
    unfold chapter_constructed in Hc. now rewrite Hc.
Qed.

(** ** What the round trip through the tree format does to any document *)

Lemma column_reads_back (column : option string * option string) :
  (fun col => (etext col, get (attrib col) "width"))
    (reparsed
       (let '(col, width) := column in
        mkElement "column"
          match width with
          | Some (String c r) => [("width", String c r)]
          | _ => []
          end col []))
  = (blank_to_none (fst column), blank_to_none (snd column)).
Proof.
  destruct column as [[[| c r] |] [[| c' r'] |]]; reflexivity.
Qed.

Lemma table_reads_back (t : Table) :
  Table_from_xml (reparsed (Table_to_xml t)) = Ok (xml_table t).
Proof.
  destruct t as [cols data].
  unfold Table_to_xml, Table_from_xml, xml_table. cbn [columns rows].
  cbn [reparsed map find List.find children tag String.eqb Ascii.eqb Bool.eqb].
  rewrite !map_map.
  rewrite !findall_all
    by (apply tags_of_map; try intros [col width]; reflexivity).
  rewrite !map_map.
  f_equal. f_equal.
  - apply map_ext. intros column. apply column_reads_back.
  - apply map_fixed. intros row _.
    cbn [reparsed]. rewrite map_map.
    rewrite findall_all by (apply tags_of_map; reflexivity).
    rewrite map_map. apply map_fixed. intros cell _. apply cell_round_trip.
Qed.

Lemma children_read_back (es : list DocumentElement) :
  Forall child_reads_back es ->
  forallb constructed es = true ->
  elements_from_xml Chapter_from_xml
    (map reparsed (map DocumentElement_to_xml es))
  = Ok (map xml_element es).
Proof.
  induction 1 as [| e es He Hes IH]; cbn [forallb map]; intros Hc;
    [reflexivity |].
  apply andb_prop in Hc as [Hc Hcs].
  rewrite (He Hc). rewrite IH by assumption. reflexivity.
Qed.

Lemma chapter_reads_back (t i : string) (es : list DocumentElement) :
  Py.strip t = t ->
  elements_from_xml Chapter_from_xml
    (map reparsed (map DocumentElement_to_xml es)) = Ok (map xml_element es) ->
  Chapter_from_xml (reparsed (DocumentElement_to_xml (EChapter t i es)))
  = Ok (mkChapter t i (map xml_element es)).
Proof.
  intros Ht Hes.
  cbn [DocumentElement_to_xml reparsed Chapter_from_xml].
  rewrite Hes. cbn. unfold Chapter_init. now rewrite Ht.
Qed.

Lemma element_reads_back (e : DocumentElement) : child_reads_back e.
Proof.
  induction e as [t i es IH | t | p] using DocumentElement_nested_ind;
    intros Hc rest.
  - cbn [constructed] in Hc.
    apply andb_prop in Hc as [Ht Hc]. apply String.eqb_eq in Ht.
    pose proof (chapter_reads_back t i es Ht
                  (children_read_back es IH Hc)) as E.
    cbn [DocumentElement_to_xml reparsed] in *.
    cbn [elements_from_xml tag String.eqb Ascii.eqb Bool.eqb].
    rewrite E. reflexivity.
  - pose proof (table_reads_back t) as E.
    cbn [DocumentElement_to_xml].
    unfold Table_to_xml in *. cbn [reparsed] in *.
    cbn [elements_from_xml tag String.eqb Ascii.eqb Bool.eqb].
    rewrite E. reflexivity.
  - cbn [constructed] in Hc. apply String.eqb_eq in Hc.
    pose proof (paragraph_round_trip p Hc) as E.
    cbn [DocumentElement_to_xml]. unfold Paragraph_to_xml in *.
    cbn [reparsed] in *.
    cbn [elements_from_xml tag String.eqb Ascii.eqb Bool.eqb].
    rewrite E. reflexivity.
Qed.

Lemma top_level_reads_back (es : list DocumentElement) :
  forallb constructed es = true ->
  chapters_from_xml
    (filter (fun child => String.eqb (tag child) "chapter")
       (map reparsed (map DocumentElement_to_xml es)))
  = Ok (map xml_element (filter is_chapter es)).
Proof.
  induction es as [| e es IH]; [reflexivity |].
  cbn [forallb]. intros Hc. apply andb_prop in Hc as [Hce Hc].
  specialize (IH Hc).
  destruct e as [t i es' | t | p]; cbn [map filter is_chapter].
  - pose proof (element_reads_back (EChapter t i es') Hce []) as E.
    cbn [DocumentElement_to_xml reparsed] in E |- *.
    cbn [elements_from_xml tag String.eqb Ascii.eqb Bool.eqb bind] in E.
    cbn [tag String.eqb Ascii.eqb Bool.eqb chapters_from_xml].
    destruct (Chapter_from_xml _) as [c |]; [| discriminate].
    cbn [bind] in E.
    assert (Ec : of_chapter c = xml_element (EChapter t i es')) by congruence.
    cbn [bind]. rewrite IH. cbn [bind]. rewrite Ec. reflexivity.
  - exact IH.
  - exact IH.
Qed.

Lemma root_reads_back (d : Document) :
  constructed_document d = true ->
  Document_from_root (reparsed (Document_to_root d)) = Ok (xml_document d).
Proof.
  intros Hc. destruct d as [t es]. unfold constructed_document in Hc.
  cbn [doc_title doc_elements] in Hc.
  apply andb_prop in Hc as [Ht Hc]. apply String.eqb_eq in Ht.
  unfold Document_to_root, Document_from_root, xml_document.
  cbn [doc_title doc_elements reparsed attrib].
  unfold findall. cbn [children].
  rewrite (top_level_reads_back es Hc).
  cbn. unfold Document_init. now rewrite Ht.
Qed.

(** X8: what the round trip through the tree format does to any document
    built by the model.  When the XML library parses the serialised text back
    to the tree that was written (an empty text read back as no text),
    [Document.from_xml(d.to_xml())] is [d] without its top-level elements
    that are not chapters, and with every empty-string column name or width
    replaced by [None]; titles, ids, paragraphs, rows and the order of all
    elements are unchanged. *)
Theorem xml_round_trip_normal_form `{ElementTreeLib} (d : Document) :
  constructed_document d = true ->
  fromstring (tostring (Document_to_root d))
  = Ok (reparsed (Document_to_root d)) ->
  Document_from_xml (Document_to_xml d) = Ok (xml_document d).
Proof.
  intros Hc Hlib.
  unfold Document_from_xml, Document_to_xml. rewrite Hlib. cbn [bind].
  now apply root_reads_back.
Qed.

Lemma xml_round_trip_normal_form_witness :
  @Document_from_xml RefElementTree
    (@Document_to_xml RefElementTree
       (mkDocument "D"
          [ EParagraph (mkParagraph "x");
            EChapter "C" "c1" [ETable (mkTable [(Some "", Some "")] [[""]])] ]))
  = Ok (mkDocument "D"
          [EChapter "C" "c1" [ETable (mkTable [(None, None)] [[""]])]]).
Proof.
  exact (@xml_round_trip_normal_form RefElementTree
           (mkDocument "D"
              [ EParagraph (mkParagraph "x");
                EChapter "C" "c1"
                  [ETable (mkTable [(Some "", Some "")] [[""]])] ])
           eq_refl eq_refl).
Defined.

Lemma blank_to_none_idempotent (s : option string) :
  blank_to_none (blank_to_none s) = blank_to_none s.
Proof. destruct s as [[| c r] |]; reflexivity. Qed.

Lemma xml_element_idempotent (e : DocumentElement) :
  xml_element (xml_element e) = xml_element e.
Proof.
  induction e as [t i es IH | [cols data] | p] using DocumentElement_nested_ind;
    cbn [xml_element]; [| | reflexivity].
  - f_equal. rewrite map_map.
    induction IH as [| e es He Hes IHes]; cbn [map]; [reflexivity |].
    now rewrite He, IHes.
  - unfold xml_table. cbn [columns rows]. rewrite map_map. do 2 f_equal.
    apply map_ext. intros [n w]. cbn [fst snd].
    now rewrite !blank_to_none_idempotent.
Qed.

Lemma xml_element_constructed (e : DocumentElement) :
  constructed (xml_element e) = constructed e.
Proof.
  induction e as [t i es IH | t | p] using DocumentElement_nested_ind;
    cbn [xml_element constructed]; [| reflexivity | reflexivity].
  f_equal. induction IH as [| e es He Hes IHes]; cbn [map forallb];
    [reflexivity |].
  now rewrite He, IHes.
Qed.

Lemma xml_element_is_chapter (e : DocumentElement) :
  is_chapter (xml_element e) = is_chapter e.
Proof. destruct e; reflexivity. Qed.

Lemma xml_document_idempotent (d : Document) :
  xml_document (xml_document d) = xml_document d.
Proof.
  destruct d as [t es]. unfold xml_document. cbn [doc_title doc_elements].
  f_equal. induction es as [| e es IH]; [reflexivity |].
  cbn [filter]. destruct (is_chapter e) eqn:He; [| exact IH].
  cbn [map filter]. rewrite xml_element_is_chapter, He. cbn [map].
  now rewrite xml_element_idempotent, IH.
Qed.

Lemma xml_document_constructed (d : Document) :
  constructed_document d = true ->
  constructed_document (xml_document d) = true.
Proof.
  destruct d as [t es]. unfold constructed_document, xml_document.
  cbn [doc_title doc_elements]. intros H.
  apply andb_prop in H as [Ht Hes]. rewrite Ht. cbn [andb].
  induction es as [| e es IH]; [reflexivity |].
  cbn [forallb] in Hes. apply andb_prop in Hes as [He Hes].
  cbn [filter]. destruct (is_chapter e); [| now apply IH].
  cbn [map forallb]. rewrite xml_element_constructed, He. now apply IH.
Qed.

(** X9: the round trip through the tree format settles after one pass: the
    document that came back from it comes back unchanged from a second
    one. *)
Theorem xml_round_trip_stable `{ElementTreeLib} (d : Document) :
  constructed_document d = true ->
  fromstring (tostring (Document_to_root (xml_document d)))
  = Ok (reparsed (Document_to_root (xml_document d))) ->
  Document_from_xml (Document_to_xml (xml_document d)) = Ok (xml_document d).
Proof.
  intros Hc Hlib.
  unfold Document_from_xml, Document_to_xml. rewrite Hlib. cbn [bind].
  rewrite (root_reads_back _ (xml_document_constructed d Hc)).
  now rewrite xml_document_idempotent.
Qed.

Lemma xml_round_trip_stable_witness :
  @Document_from_xml RefElementTree
    (@Document_to_xml RefElementTree (xml_document blank_column_document))
  = Ok (xml_document blank_column_document).
Proof.
  exact (@xml_round_trip_stable RefElementTree blank_column_document
           eq_refl eq_refl).
Defined.

(** ** The Word table written for a table *)

Lemma data_row_clips (n : nat) (row : list string) :
  map cell_text (data_row n row) = clip_row n row.
Proof.
  unfold data_row, clip_row. rewrite map_map. cbn [cell_text].
  revert n. induction row as [| a row IH]; intros n.
  - rewrite firstn_nil. cbn [app length]. rewrite Nat.sub_0_r.
    induction n as [| n IHn]; [reflexivity |].
    rewrite seq_S, map_app, IHn. cbn [map Nat.add].
    replace (nth n [] "") with "" by (destruct n; reflexivity).
    change [""] with (repeat "" 1). rewrite <- repeat_app.
    f_equal. lia.
  - destruct n as [| n]; [reflexivity |].
    cbn [seq map nth firstn length Nat.sub app]. f_equal.
    rewrite <- seq_shift, map_map. cbn [nth]. apply IH.
Qed.

Lemma data_row_length (n : nat) (row : list string) :
  length (data_row n row) = n.
Proof. unfold data_row. now rewrite length_map, length_seq. Qed.

Section TableToWord.

Context `{FloatParser}.

Lemma header_cell_ok (column : option string * option string)
    (log : list LogRecord) (cell : DocxCell) (log' : list LogRecord) :
  header_cell column log = Ok (cell, log') ->
  fst column = Some (cell_text cell) /\ exists more, log' = log ++ more.
Proof.
  destruct column as [[name |] width]; cbn [header_cell fst];
    [| discriminate].
  assert (Hnil : exists more, log = log ++ more)
    by (exists []; now rewrite app_nil_r).
  destruct width as [[| c r] |].
  - intros E. injection E as <- <-. auto.
  - destruct (py_float (String c r)) as [w |].
    + destruct (Cm _) as [l | []]; try discriminate;
        intros E; injection E as <- <-; eauto.
    + intros E. injection E as <- <-. eauto.
  - intros E. injection E as <- <-. auto.
Qed.

Lemma header_cells_ok (cols : list (option string * option string)) :
  forall log cells log',
    header_cells cols log = Ok (cells, log') ->
    map (fun cell => Some (cell_text cell)) cells = map fst cols
    /\ exists more, log' = log ++ more.
Proof.
  induction cols as [| column cols IH]; intros log cells log';
    cbn [header_cells].
  - intros E. injection E as <- <-. split; [reflexivity |].
    exists []. now rewrite app_nil_r.
  - destruct (header_cell column log) as [[cell log1] |] eqn:Hcell;
      [| discriminate].
    cbn [bind fst snd].
    destruct (header_cells cols log1) as [[cells' log2] |] eqn:Hcells;
      [| discriminate].
    cbn [bind fst snd]. intros E. injection E as <- <-.
    apply header_cell_ok in Hcell as [Hname [m1 ->]].
    apply IH in Hcells as [Hnames [m2 ->]].
    cbn [map]. rewrite Hname, Hnames. split; [reflexivity |].
    exists (m1 ++ m2). now rewrite app_assoc.
Qed.

(** X10: when [Table.to_word] returns for a table with at least one column,
    it has appended exactly one table to the document.  Its first row holds
    the column names, one cell per column and in their order; then comes one
    row per data row, each cut or filled to the number of columns (cells
    beyond the last column are dropped, missing cells are empty).  The log
    is only added to. *)
Theorem Table_to_word_shape (column : option string * option string)
    (cols : list (option string * option string)) (data : list (list string))
    (st st' : WordState) :
  Table_to_word (mkTable (column :: cols) data) st = Ok st' ->
  exists header,
    ws_docx st'
    = ws_docx st
      ++ [BTable (mkDocxTable
            (header :: map (data_row (length (column :: cols))) data))]
    /\ map (fun cell => Some (cell_text cell)) header = map fst (column :: cols)
    /\ map (map cell_text) (map (data_row (length (column :: cols))) data)
       = map (clip_row (length (column :: cols))) data
    /\ exists more, ws_log st' = ws_log st ++ more.
Proof.
  unfold Table_to_word. cbn [columns rows].
  destruct (header_cells (column :: cols) (ws_log st)) as [[header log'] |]
    eqn:Hhdr; [| discriminate].
  cbn [bind fst snd]. intros E. injection E as <-.
  apply header_cells_ok in Hhdr as [Hnames Hlog].
  exists header. cbn [ws_docx ws_log].
  refine (conj eq_refl (conj Hnames (conj _ Hlog))).
  rewrite map_map. apply map_ext. intros row. apply data_row_clips.
Qed.

(** X11: reading back the table [Table.to_word] wrote.  On the table as
    python-docx reads it (each text with its carriage returns turned into
    line feeds) [Table.from_word] gives the column names and the cells as
    read and stripped, no widths, and each row cut or filled to the number of
    columns. *)
Theorem Table_word_round_trip (column : option string * option string)
    (cols : list (option string * option string)) (data : list (list string))
    (st st' : WordState) :
  Table_to_word (mkTable (column :: cols) data) st = Ok st' ->
  exists written,
    ws_docx st' = ws_docx st ++ [BTable written]
    /\ Table_from_word (table_as_read written)
       = word_table (mkTable (column :: cols) data).
Proof.
  unfold Table_to_word. cbn [columns rows].
  destruct (header_cells (column :: cols) (ws_log st)) as [[header log'] |]
    eqn:Hhdr; [| discriminate].
  cbn [bind fst snd]. intros E. injection E as <-.
  apply header_cells_ok in Hhdr as [Hnames _].
  eexists. split; [reflexivity |].
  assert (Hcols : map (fun cell => (Some (Py.strip (cell_text cell)),
                                    @None string))
                    (map cell_as_read header)
                  = map (fun c => (option_map word_text (fst c), None))
                      (column :: cols)).
  { rewrite <- (map_map fst (fun name => (option_map word_text name, None))).
    rewrite <- Hnames, !map_map. reflexivity. }
  unfold Table_from_word, table_as_read, word_table.
  cbn [table_rows columns rows map].
  f_equal; [exact Hcols |].
  rewrite !map_map. apply map_ext. intros row.
  rewrite <- data_row_clips, !map_map. reflexivity.
Qed.

End TableToWord.

Lemma Table_to_word_shape_witness :
  exists header,
    [BTable (mkDocxTable
       [ [mkDocxCell "A" (Some (Emu 2700000)); mkDocxCell "B" None];
         [mkDocxCell "1" None; mkDocxCell "2" None];
         [mkDocxCell "x" None; mkDocxCell "" None] ])]
    = [] ++ [BTable (mkDocxTable
               (header :: map (data_row 2) [["1"; "2"; "3"]; ["x"]]))]
    /\ map (fun cell => Some (cell_text cell)) header = [Some "A"; Some "B"]
    /\ map (map cell_text) (map (data_row 2) [["1"; "2"; "3"]; ["x"]])
       = [["1"; "2"]; ["x"; ""]]
    /\ exists more, @nil LogRecord = [] ++ more.
Proof.
  exact (@Table_to_word_shape RefFloatParser (Some "A", Some "50")
           [(Some "B", None)] [["1"; "2"; "3"]; ["x"]]
           (mkWordState [] [])
           (mkWordState
              [BTable (mkDocxTable
                 [ [mkDocxCell "A" (Some (Emu 2700000)); mkDocxCell "B" None];
                   [mkDocxCell "1" None; mkDocxCell "2" None];
                   [mkDocxCell "x" None; mkDocxCell "" None] ])] [])
           ltac:(vm_compute; reflexivity)).
Defined.

Lemma Table_word_round_trip_witness :
  exists written,
    [BTable (mkDocxTable
       [ [mkDocxCell " A " (Some (Emu 2700000)); mkDocxCell "B" None];
         [mkDocxCell "1" None; mkDocxCell " 2" None];
         [mkDocxCell (String "v" (String "013" "w")) None;
          mkDocxCell "" None] ])]
    = [] ++ [BTable written]
    /\ Table_from_word (table_as_read written)
       = mkTable [(Some "A", None); (Some "B", None)]
           [["1"; "2"]; [String "v" (String "010" "w"); ""]].
Proof.
  exact (@Table_word_round_trip RefFloatParser (Some " A ", Some "50")
           [(Some "B", None)]
           [["1"; " 2"; "3"]; [String "v" (String "013" "w")]]
           (mkWordState [] [])
           (mkWordState
              [BTable (mkDocxTable
                 [ [mkDocxCell " A " (Some (Emu 2700000)); mkDocxCell "B" None];
                   [mkDocxCell "1" None; mkDocxCell " 2" None];
                   [mkDocxCell (String "v" (String "013" "w")) None;
                    mkDocxCell "" None] ])] [])
           ltac:(vm_compute; reflexivity)).
Defined.

(** ** [iter_block_items] *)

(** X12: [iter_block_items] yields the paragraphs and tables of the body, all
    of them and in document order, and logs one warning for each other
    child, in order. *)
Theorem iter_block_items_filters (body : DocxDocument) :
  iter_block_items body
  = (filter is_block body, flat_map child_warning body).
Proof.
  induction body as [| child body IH]; [reflexivity |].
  cbn [iter_block_items]. rewrite IH.
  destruct child; reflexivity.
Qed.

(** ** The task [create_word_from_x2doc] *)

Section TaskProperties.

Context `{ElementTreeLib} `{FloatParser}.

(** X13: the task touches no file but the output: every other path holds
    after the run what it held before, whether the run returned or raised;
    and when the input does not exist, the output is left as it was too and
    the task returns normally after printing its message. *)
Theorem create_word_from_x2doc_frame (fs : FileSystem)
    (input_file output_file path : string) :
  String.eqb path output_file = false ->
  run_fs (create_word_from_x2doc fs input_file output_file) path = fs path
  /\ (fs input_file = None ->
      create_word_from_x2doc fs input_file output_file
      = mkTaskRun fs ["File " ++ input_file ++ " does not exist"]%string
          (Ok tt)).
Proof.
  intros Hp. unfold create_word_from_x2doc, exists_. split.
  - destruct (fs input_file) as [data |]; cbn [negb]; [| reflexivity].
    assert (Hrm : remove output_file fs path = fs path)
      by (unfold remove; now rewrite Hp).
    assert (Hsv : forall body fs', fs' path = fs path ->
                                   save output_file body fs' path = fs path)
      by (intros body fs' E; unfold save; now rewrite Hp).
    destruct (fs output_file);
      match goal with
      | |- context [read_text ?f input_file] =>
          destruct (read_text f input_file) as [s |]; cbn [run_fs]; auto;
          destruct (Document_from_xml s) as [doc |]; cbn [run_fs]; auto;
          destruct (Document_to_word doc) as [st |]; cbn [run_fs]; auto
      end.
  - intros ->. reflexivity.
Qed.

(** X14: the run that succeeds.  When the input holds text that parses to a
    document and the document can be flattened, the task returns normally
    and the output path holds exactly the Word document [Document.to_word]
    built from [Document.from_xml] of the text, whether or not a file was
    there before. *)
Theorem create_word_from_x2doc_writes (fs : FileSystem)
    (input_file output_file : string) (content : xml_text) (doc : Document)
    (st : WordState) :
  fs input_file = Some (TextFile content) ->
  String.eqb input_file output_file = false ->
  Document_from_xml content = Ok doc ->
  Document_to_word doc = Ok st ->
  let run := create_word_from_x2doc fs input_file output_file in
  run_result run = Ok tt
  /\ run_fs run output_file = Some (DocxFile (ws_docx st)).
Proof.
  intros Hin Hne Hdoc Hst. unfold create_word_from_x2doc, exists_.
  rewrite Hin. cbn [negb].
  destruct (fs output_file);
    unfold read_text, remove; rewrite ?Hne, Hin, Hdoc, Hst; cbn;
    unfold save; now rewrite String.eqb_refl.
Qed.

End TaskProperties.

Lemma create_word_from_x2doc_frame_witness :
  run_fs (@create_word_from_x2doc RefElementTree RefFloatParser
            ready_fs "in.x2doc" "out.docx") "in.x2doc"
  = ready_fs "in.x2doc".
Proof.
  exact (proj1 (@create_word_from_x2doc_frame RefElementTree RefFloatParser
                  ready_fs "in.x2doc" "out.docx" "in.x2doc" eq_refl)).
Defined.

Lemma create_word_from_x2doc_writes_witness :
  run_result (@create_word_from_x2doc RefElementTree RefFloatParser
                ready_fs "in.x2doc" "out.docx") = Ok tt
  /\ run_fs (@create_word_from_x2doc RefElementTree RefFloatParser
               ready_fs "in.x2doc" "out.docx") "out.docx"
     = Some (DocxFile word_document_flat).
Proof.
  exact (@create_word_from_x2doc_writes RefElementTree RefFloatParser
           ready_fs "in.x2doc" "out.docx"
           (@Document_to_xml RefElementTree word_document) word_document
           (mkWordState word_document_flat [])
           eq_refl eq_refl
           ltac:(vm_compute; reflexivity) ltac:(vm_compute; reflexivity)).
Defined.

(** ** Texts as python-docx reads them back *)

Lemma is_space_as_read (c : ascii) :
  Py.is_space (if (nat_of_ascii c =? 13)%nat then ascii_of_nat 10 else c)
  = Py.is_space c.
Proof.
  destruct (nat_of_ascii c =? 13)%nat eqn:E; [| reflexivity].
  apply Nat.eqb_eq in E. unfold Py.is_space at 2. now rewrite E.
Qed.

Lemma lstrip_as_read (s : string) :
  Py.lstrip (text_as_read s) = text_as_read (Py.lstrip s).
Proof.
  induction s as [| c r IH]; [reflexivity |].
  cbn [text_as_read Py.lstrip]. rewrite is_space_as_read.
  destruct (Py.is_space c); [exact IH | reflexivity].
Qed.

Lemma rstrip_as_read (s : string) :
  Py.rstrip (text_as_read s) = text_as_read (Py.rstrip s).
Proof.
  induction s as [| c r IH]; [reflexivity |].
  cbn [text_as_read Py.rstrip]. rewrite IH.
  destruct (Py.rstrip r) as [| c' r']; cbn [text_as_read].
  - rewrite is_space_as_read. now destruct (Py.is_space c).
  - reflexivity.
Qed.

Lemma strip_as_read (s : string) :
  Py.strip (text_as_read s) = text_as_read (Py.strip s).
Proof. unfold Py.strip. now rewrite lstrip_as_read, rstrip_as_read. Qed.

(** A text is blank as read exactly when it is blank as written. *)
Lemma blank_as_read (s : string) :
  Py.truthy (Py.strip (text_as_read s)) = Py.truthy (Py.strip s).
Proof. rewrite strip_as_read. now destruct (Py.strip s). Qed.

(** ** What [to_word] writes *)

Lemma heading_block_written (txt : string) (level : Z)
    (docx docx' : DocxDocument) :
  (1 <= level)%Z ->
  add_heading txt level docx = Ok docx' ->
  (level <= 9)%Z /\ docx' = docx ++ [heading_block level txt].
Proof.
  intros Hl. unfold add_heading.
  destruct ((0 <=? level)%Z && (level <=? 9)%Z) eqn:Hr; [| discriminate].
  apply andb_prop in Hr as [_ Hr]. apply Z.leb_le in Hr.
  replace (level =? 0)%Z with false by (symmetry; apply Z.eqb_neq; lia).
  destruct (xml_compatible txt); [| discriminate].
  intros E. injection E as <-. auto.
Qed.

Section WhatIsWritten.

Context `{FloatParser}.

Lemma chapter_to_word_unfold (t i : string) (es : list DocumentElement)
    (level : Z) (st : WordState) :
  DocumentElement_to_word (EChapter t i es) level st
  = docx <- add_heading t level (ws_docx st) ;;
    elements_to_word es (level + 1) (mkWordState docx (ws_log st)).
Proof.
  cbn [DocumentElement_to_word].
  destruct (add_heading t level (ws_docx st)) as [docx |]; [| reflexivity].
  cbn [bind]. generalize (mkWordState docx (ws_log st)).
  induction es as [| e es IH]; intros st0; [reflexivity |].
  cbn [elements_to_word].
  destruct (DocumentElement_to_word e (level + 1) st0); [| reflexivity].
  cbn [bind]. apply IH.
Qed.

Lemma table_written (t : Table) (st st' : WordState) :
  word_safe (ETable t) = true ->
  Table_to_word t st = Ok st' ->
  exists written,
    ws_docx st' = ws_docx st ++ [BTable written]
    /\ Table_from_word (table_as_read written) = word_table t.
Proof.
  destruct t as [[| column cols] data]; cbn [word_safe columns];
    [discriminate |]. intros _.
  unfold Table_to_word. cbn [columns rows].
  destruct (header_cells (column :: cols) (ws_log st)) as [[header log'] |]
    eqn:Hhdr; [| discriminate].
  cbn [bind fst snd]. intros E. injection E as <-.
  apply header_cells_ok in Hhdr as [Hnames _].
  eexists. split; [reflexivity |].
  assert (Hcols : map (fun cell => (Some (Py.strip (cell_text cell)),
                                    @None string))
                    (map cell_as_read header)
                  = map (fun c => (option_map word_text (fst c), None))
                      (column :: cols)).
  { rewrite <- (map_map fst (fun name => (option_map word_text name, None))).
    rewrite <- Hnames, !map_map. reflexivity. }
  unfold Table_from_word, table_as_read, word_table.
  cbn [table_rows columns rows map].
  f_equal; [exact Hcols |].
  rewrite !map_map. apply map_ext. intros row.
  rewrite <- data_row_clips, !map_map. reflexivity.
Qed.

Lemma elements_written (es : list DocumentElement) :
  Forall appends_written es ->
  forall level st st',
    (1 <= level)%Z ->
    forallb word_safe es = true ->
    elements_to_word es level st = Ok st' ->
    exists bss,
      ws_docx st' = ws_docx st ++ concat bss
      /\ Forall2 (Writes level) es (map (map block_as_read) bss).
Proof.
  induction 1 as [| e es He Hes IH]; intros level st st' Hl Ht;
    cbn [elements_to_word].
  - intros E. injection E as <-. exists []. cbn [concat map].
    split; [now rewrite app_nil_r | constructor].
  - cbn [forallb] in Ht. apply andb_prop in Ht as [Hte Ht].
    destruct (DocumentElement_to_word e level st) as [st1 |] eqn:E1;
      [| discriminate].
    cbn [bind]. intros E2.
    destruct (He level st st1 Hl Hte E1) as (bs & Hbs & Hw).
    destruct (IH level st1 st' Hl Ht E2) as (bss & Hbss & Hws).
    exists (bs :: bss). split; [| cbn [map]; now constructor].
    cbn [concat]. rewrite Hbss, Hbs, app_assoc. reflexivity.
Qed.

Lemma element_written (e : DocumentElement) : appends_written e.
Proof.
  induction e as [t i es IH | t | p] using DocumentElement_nested_ind;
    intros level st st' Hl Ht.
  - rewrite chapter_to_word_unfold.
    destruct (add_heading t level (ws_docx st)) as [docx |] eqn:Hh;
      [| discriminate].
    cbn [bind]. intros E.
    apply heading_block_written in Hh as [Hl9 ->]; [| exact Hl].
    cbn [word_safe] in Ht. apply andb_prop in Ht as [_ Ht].
    destruct (elements_written es IH (level + 1)%Z _ st' ltac:(lia) Ht E)
      as (bss & Hbss & Hws).
    cbn [ws_docx] in Hbss.
    exists (heading_block level t :: concat bss). split.
    + rewrite Hbss, <- app_assoc. reflexivity.
    + cbn [map]. rewrite concat_map.
      change (block_as_read (heading_block level t))
        with (heading_block level (text_as_read t)).
      constructor; [lia | exact Hws].
  - cbn [DocumentElement_to_word]. intros E.
    destruct (table_written t st st' Ht E) as (written & Hw & Hr).
    exists [BTable written]. split; [exact Hw | now constructor].
  - cbn [DocumentElement_to_word]. unfold Paragraph_to_word, add_paragraph.
    destruct (xml_compatible (text p)); [| discriminate].
    cbn [bind]. intros E. injection E as <-.
    exists [plain (text p)]. split; [reflexivity | constructor].
Qed.

End WhatIsWritten.

(** ** Reading back what [to_word] wrote *)

Lemma heading_block_style (level : Z) (txt : string) :
  (1 <= level <= 9)%Z ->
  exists p,
    heading_block level txt = BParagraph p
    /\ par_text p = txt
    /\ Py.startswith "Heading" (style_name p) = true
    /\ parse_heading_level (style_name p) = Some level.
Proof.
  intros Hl. eexists. split; [reflexivity |]. split; [reflexivity |].
  assert (Hcases : (level = 1 \/ level = 2 \/ level = 3 \/ level = 4
                    \/ level = 5 \/ level = 6 \/ level = 7 \/ level = 8
                    \/ level = 9)%Z) by lia.
  repeat destruct Hcases as [-> | Hcases]; try subst level;
    split; vm_compute; reflexivity.
Qed.

Lemma heading_block_stops (level : Z) (txt : string) (rest : list Block) :
  (1 <= level <= 9)%Z ->
  stops_below (level + 1) (heading_block level txt :: rest) = true.
Proof.
  intros Hl. destruct (heading_block_style level txt Hl) as (p & -> & _ & Hs & Hp).
  cbn [stops_below not_below]. rewrite Hs, Hp.
  apply negb_true_iff, Z.leb_gt. lia.
Qed.

Lemma stops_below_next (level : Z) (rest : list Block) :
  stops_below level rest = true -> stops_below (level + 1) rest = true.
Proof.
  destruct rest as [| [p | t | n] rest]; cbn [stops_below not_below]; auto.
  destruct (Py.startswith "Heading" (style_name p)); auto.
  destruct (parse_heading_level (style_name p)) as [l |]; auto.
  rewrite !negb_true_iff, !Z.leb_gt. lia.
Qed.

Lemma extend_current_nil (cur : option Chapter) : extend_current cur [] = cur.
Proof.
  destruct cur as [[t i es] |]; [| reflexivity].
  cbn. now rewrite app_nil_r.
Qed.

Lemma extend_current_app (cur : option Chapter) (xs ys : list DocumentElement) :
  extend_current (extend_current cur xs) ys = extend_current cur (xs ++ ys).
Proof.
  destruct cur as [[t i es] |]; [| reflexivity].
  cbn. now rewrite app_assoc.
Qed.

Lemma skipn_past {A} (l : list A) (i : nat) (bs rest : list A) :
  skipn i l = bs ++ rest -> skipn (i + length bs) l = rest.
Proof.
  intros E. rewrite Nat.add_comm, <- skipn_skipn, E, skipn_app.
  rewrite skipn_all, Nat.sub_diag. reflexivity.
Qed.

Section ReturnsSteps.

Variables (paragraphs : list Block) (heading_level : Z).
Variables (i : nat) (chs : list Chapter) (cur : option Chapter)
          (log : list LogRecord) (r : ParseResult).

Lemma returns_stop (rest : list Block) :
  skipn i paragraphs = rest ->
  stops_below heading_level rest = true ->
  returns paragraphs heading_level (mkParseState i chs cur log)
    (mkParseResult (close_out chs cur) i log).
Proof.
  intros E Hstop. exists 1. destruct rest as [| b rest].
  - apply loop_end. now apply skipn_nil_nth_error.
  - apply skipn_cons_nth_error in E as [E _].
    destruct b as [p | t | n]; cbn [stops_below not_below] in Hstop;
      try discriminate.
    destruct (Py.startswith "Heading" (style_name p)) eqn:Hs;
      [| discriminate].
    destruct (parse_heading_level (style_name p)) as [l |] eqn:Hl;
      [| discriminate].
    apply negb_true_iff, Z.leb_gt in Hstop.
    eapply loop_ancestor; eauto.
Qed.

Lemma returns_sibling (p : DocxParagraph) :
  nth_error paragraphs i = Some (BParagraph p) ->
  Py.startswith "Heading" (style_name p) = true ->
  parse_heading_level (style_name p) = Some heading_level ->
  returns paragraphs heading_level
    (mkParseState (S i) (close_out chs cur)
       (Some (Chapter_init (par_text p) (chapter_id i) [])) log) r ->
  returns paragraphs heading_level (mkParseState i chs cur log) r.
Proof.
  intros E Hs Hl [fuel Hr]. exists (S fuel).
  erewrite loop_sibling by eassumption. exact Hr.
Qed.

Lemma returns_paragraph (p : DocxParagraph) :
  nth_error paragraphs i = Some (BParagraph p) ->
  Py.startswith "Heading" (style_name p) = false ->
  Py.truthy (Py.strip (par_text p)) = true ->
  returns paragraphs heading_level
    (mkParseState (S i) chs
       (extend_current cur [EParagraph (Paragraph_from_word p)]) log) r ->
  returns paragraphs heading_level (mkParseState i chs cur log) r.
Proof.
  intros E Hs Ht [fuel Hr]. exists (S fuel).
  erewrite loop_paragraph by eassumption. rewrite Ht. exact Hr.
Qed.

Lemma returns_table (t : DocxTable) :
  nth_error paragraphs i = Some (BTable t) ->
  returns paragraphs heading_level
    (mkParseState (S i) chs
       (extend_current cur [ETable (Table_from_word t)]) log) r ->
  returns paragraphs heading_level (mkParseState i chs cur log) r.
Proof.
  intros E [fuel Hr]. exists (S fuel).
  erewrite loop_table by eassumption. exact Hr.
Qed.

Lemma returns_nested (p : DocxParagraph) (l : Z) (sub : ParseResult) :
  nth_error paragraphs i = Some (BParagraph p) ->
  Py.startswith "Heading" (style_name p) = true ->
  parse_heading_level (style_name p) = Some l ->
  (heading_level < l)%Z ->
  returns paragraphs l (mkParseState i [] None log) sub ->
  returns paragraphs heading_level
    (mkParseState (res_index sub) chs
       (extend_current cur (map of_chapter (res_chapters sub)))
       (res_log sub)) r ->
  returns paragraphs heading_level (mkParseState i chs cur log) r.
Proof.
  intros E Hs Hl Hlt [f1 Hsub] [f2 Hr]. exists (S (Nat.max f1 f2)).
  erewrite loop_nested by eassumption.
  rewrite (loop_fuel_le f1 _ (Nat.le_max_l f1 f2) _ _ _ _ Hsub).
  exact (loop_fuel_le f2 _ (Nat.le_max_r f1 f2) _ _ _ _ Hr).
Qed.

End ReturnsSteps.

(** Paragraphs and tables written one after the other are read in turn into
    the open chapter, if there is one. *)
Lemma leaves_read (paragraphs : list Block) (heading_level level : Z)
    (ls : list DocumentElement) (bss : list (list Block)) :
  Forall2 (Writes level) ls bss ->
  forallb (fun e => negb (is_chapter e)) ls = true ->
  forallb word_safe ls = true ->
  forall i rest chs cur log r,
    skipn i paragraphs = concat bss ++ rest ->
    returns paragraphs heading_level
      (mkParseState (i + length (concat bss)) chs
         (extend_current cur (map word_element ls)) log) r ->
    returns paragraphs heading_level (mkParseState i chs cur log) r.
Proof.
  induction 1 as [| e bs ls bss Hw Hws IH]; intros Hleaf Hsafe i rest chs cur
    log r Hsk Hr.
  - cbn [concat length map] in Hr.
    now rewrite Nat.add_0_r, extend_current_nil in Hr.
  - cbn [forallb] in Hleaf, Hsafe.
    apply andb_prop in Hleaf as [He Hleaf].
    apply andb_prop in Hsafe as [Hse Hsafe].
    cbn [concat map] in Hsk, Hr.
    inversion Hw as [lv p E1 E2 E3 | lv t written Hread E1 E2 E3
                     | lv t i0 es bss0 Hl Hes E1 E2 E3]; subst;
      [ | | discriminate He ].
    + cbn [app] in Hsk, Hr.
      apply skipn_cons_nth_error in Hsk as [E Hsk].
      eapply returns_paragraph;
        [exact E | reflexivity | exact (eq_trans (blank_as_read _) Hse) |].
      eapply IH; eauto.
      rewrite extend_current_app. cbn [length] in Hr.
      now rewrite <- Nat.add_succ_comm in Hr.
    + cbn [app] in Hsk, Hr.
      apply skipn_cons_nth_error in Hsk as [E Hsk].
      eapply returns_table; [exact E |].
      eapply IH; eauto.
      rewrite extend_current_app, Hread. cbn [length] in Hr.
      now rewrite <- Nat.add_succ_comm in Hr.
Qed.

Lemma Writes_chapter_inv (level : Z) (e : DocumentElement) (bs : list Block) :
  Writes level e bs ->
  is_chapter e = true ->
  exists t i es bss,
    e = EChapter t i es
    /\ (1 <= level <= 9)%Z
    /\ Forall2 (Writes (level + 1)) es bss
    /\ bs = heading_block level (text_as_read t) :: concat bss.
Proof.
  intros Hw He.
  inversion Hw as [lv p E1 E2 E3 | lv t written Hread E1 E2 E3
                   | lv t i0 es bss Hl Hes E1 E2 E3]; subst;
    try discriminate He.
  exists t, i0, es, bss. auto.
Qed.

(** Chapters written one after the other at the level of the loop, followed
    by nothing or by a heading of a lower level: the loop returns them all
    and stops right after their blocks. *)
Lemma chapters_read (paragraphs : list Block) (level : Z)
    (es : list DocumentElement) (bss : list (list Block)) :
  Forall2 (Writes level) es bss ->
  Forall chapter_read_back es ->
  forallb is_chapter es = true ->
  forallb word_safe es = true ->
  forall i rest chs cur log,
    skipn i paragraphs = concat bss ++ rest ->
    stops_below level rest = true ->
    exists cs,
      map forget_ids (map of_chapter cs) = map forget_ids (map word_element es)
      /\ returns paragraphs level (mkParseState i chs cur log)
           (mkParseResult (close_out chs cur ++ cs)
              (i + length (concat bss)) log).
Proof.
  induction 1 as [| e bs es bss Hw Hws IH]; intros Hread Hch Hsafe i rest chs
    cur log Hsk Hstop.
  - exists []. split; [reflexivity |].
    cbn [concat length app] in *. rewrite Nat.add_0_r, app_nil_r.
    eapply returns_stop; eauto.
  - inversion Hread as [| e0 es0 Hre Hres]; subst.
    cbn [forallb] in Hch, Hsafe.
    apply andb_prop in Hch as [He Hch].
    apply andb_prop in Hsafe as [Hse Hsafe].
    cbn [concat] in Hsk. rewrite <- app_assoc in Hsk.
    assert (Hnext : stops_below (level + 1) (concat bss ++ rest) = true).
    { destruct Hws as [| e' bs' es' bss' Hw' Hws']; cbn [concat app].
      - now apply stops_below_next.
      - cbn [forallb] in Hch. apply andb_prop in Hch as [He' _].
        destruct (Writes_chapter_inv _ _ _ Hw' He')
          as (t & i0 & es0 & bss0 & _ & Hl & _ & ->).
        cbn [app]. now apply heading_block_stops. }
    destruct (Hre paragraphs level i bs (concat bss ++ rest) chs cur log
                He Hse Hw Hsk Hnext) as (c & Hc & Hback).
    apply skipn_past in Hsk.
    destruct (IH Hres Hch Hsafe (i + length bs) rest (close_out chs cur)
                (Some c) log Hsk Hstop) as (cs & Hcs & Hrun).
    exists (c :: cs). split.
    + cbn [map]. now rewrite Hc, Hcs.
    + apply Hback.
      cbn [concat]. rewrite length_app, Nat.add_assoc.
      change (close_out (close_out chs cur) (Some c))
        with (close_out chs cur ++ [c]) in Hrun.
      rewrite <- app_assoc in Hrun. exact Hrun.
Qed.

Lemma leaves_first_split (es : list DocumentElement) :
  leaves_first es = true ->
  exists ls cs,
    es = ls ++ cs
    /\ forallb (fun e => negb (is_chapter e)) ls = true
    /\ forallb is_chapter cs = true.
Proof.
  induction es as [| e es IH]; cbn [leaves_first].
  - exists [], []. auto.
  - destruct (is_chapter e) eqn:He; intros Hes.
    + exists [], (e :: es). cbn [forallb app]. rewrite He. auto.
    + destruct (IH Hes) as (ls & cs & -> & Hls & Hcs).
      exists (e :: ls), cs. cbn [forallb app]. rewrite He. auto.
Qed.

(** A chapter written at the level of the loop is read back. *)
Lemma chapter_reads_back_from_word (e : DocumentElement) : chapter_read_back e.
Proof.
  induction e as [t i0 es IH | t | p] using DocumentElement_nested_ind;
    intros paragraphs level i bs rest chs cur log He Hsafe Hw Hsk Hstop;
    try discriminate He.
  destruct (Writes_chapter_inv _ _ _ Hw He)
    as (t' & i' & es' & bss & E & Hl & Hws & ->).
  injection E as <- <- <-.
  cbn [word_safe] in Hsafe. apply andb_prop in Hsafe as [Hfirst Hsafe].
  destruct (leaves_first_split es Hfirst) as (ls & cs & -> & Hls & Hcs).
  apply Forall2_app_inv_l in Hws as (lbss & cbss & Hwl & Hwc & ->).
  apply Forall_app in IH as [_ IHc].
  rewrite forallb_app in Hsafe. apply andb_prop in Hsafe as [Hsl Hsc].
  destruct (heading_block_style level (text_as_read t) Hl)
    as (p & Ep & Etxt & Hs & Hp).
  rewrite Ep in Hsk. cbn [app] in Hsk.
  apply skipn_cons_nth_error in Hsk as [Ei Hsk].
  rewrite concat_app, <- app_assoc in Hsk.
  pose proof (skipn_past _ _ _ _ Hsk) as Hsk2.
  set (c0 := Chapter_init (par_text p) (chapter_id i) []).
  destruct Hwc as [| c1 bs1 cs' cbss' Hw1 Hwc'].
  - (* no subchapter *)
    exists (mkChapter (word_text t) (chapter_id i) (map word_element ls)).
    split.
    { cbn [of_chapter title id_ elements forget_ids word_element].
      now rewrite app_nil_r. }
    intros r Hr.
    eapply returns_sibling; eauto.
    eapply (leaves_read _ _ _ ls lbss Hwl Hls Hsl); [exact Hsk |].
    cbn [concat app length] in Hr.
    rewrite app_nil_r, <- Nat.add_succ_comm in Hr.
    cbn [extend_current]. unfold c0. cbn [Chapter_init title id_ elements app].
    rewrite Etxt. exact Hr.
  - (* subchapters: one nested call reads them all *)
    assert (Hl1 : (1 <= level + 1 <= 9)%Z).
    { cbn [forallb] in Hcs. apply andb_prop in Hcs as [Hc1 _].
      destruct (Writes_chapter_inv _ _ _ Hw1 Hc1)
        as (? & ? & ? & ? & _ & Hl1 & _). exact Hl1. }
    assert (Hhead : exists t1 more, concat (bs1 :: cbss') ++ rest
                                    = heading_block (level + 1) t1 :: more).
    { cbn [forallb] in Hcs. apply andb_prop in Hcs as [Hc1 _].
      destruct (Writes_chapter_inv _ _ _ Hw1 Hc1)
        as (t1 & ? & ? & bss1 & _ & _ & _ & ->).
      cbn [concat app]. eauto. }
    destruct Hhead as (t1 & more & Hhead).
    pose proof Hsk2 as Hsk3. rewrite Hhead in Hsk3.
    destruct (heading_block_style (level + 1) t1 Hl1)
      as (p1 & Ep1 & _ & Hs1 & Hp1).
    rewrite Ep1 in Hsk3. apply skipn_cons_nth_error in Hsk3 as [E1 _].
    destruct (chapters_read paragraphs (level + 1) (c1 :: cs') (bs1 :: cbss')
                (Forall2_cons _ _ Hw1 Hwc') IHc Hcs Hsc
                (S i + length (concat lbss)) rest [] None log Hsk2 Hstop)
      as (subs & Hsubs & Hrun).
    exists (mkChapter (word_text t) (chapter_id i)
              (map word_element ls ++ map of_chapter subs)).
    split.
    { cbn [of_chapter title id_ elements forget_ids word_element].
      now rewrite !map_app, Hsubs. }
    intros r Hr.
    eapply returns_sibling; eauto.
    eapply (leaves_read _ _ _ ls lbss Hwl Hls Hsl); [exact Hsk |].
    eapply returns_nested; [exact E1 | exact Hs1 | exact Hp1 | lia
                           | exact Hrun |].
    cbn [res_index res_chapters res_log close_out app].
    rewrite extend_current_app.
    cbn [extend_current]. unfold c0. cbn [Chapter_init title id_ elements app].
    rewrite Etxt.
    cbn [length] in Hr. rewrite concat_app, length_app in Hr.
    rewrite <- Nat.add_succ_comm, Nat.add_assoc in Hr. exact Hr.
Qed.

(** Only paragraphs and tables are written. *)
Lemma written_blocks (e : DocumentElement) :
  forall level bs, Writes level e bs -> forallb is_block bs = true.
Proof.
  induction e as [t i es IH | t | p] using DocumentElement_nested_ind;
    intros level bs Hw;
    inversion Hw as [lv p0 E1 E2 E3 | lv t0 written Hread E1 E2 E3
                     | lv t0 i0 es0 bss Hl Hes E1 E2 E3]; subst;
    try reflexivity.
  cbn [forallb heading_block is_block andb].
  clear Hw Hl. induction Hes as [| e bs es bss Hw Hws IHs]; [reflexivity |].
  inversion IH as [| e0 es0 He Hes0]; subst.
  cbn [concat]. rewrite forallb_app, (He _ _ Hw). cbn [andb]. auto.
Qed.

Lemma written_blocks_all (level : Z) (es : list DocumentElement)
    (bss : list (list Block)) :
  Forall2 (Writes level) es bss -> forallb is_block (concat bss) = true.
Proof.
  induction 1 as [| e bs es bss Hw Hws IH]; [reflexivity |].
  cbn [concat]. rewrite forallb_app, (written_blocks _ _ _ Hw). exact IH.
Qed.

(** What is written for an element starts with a block that is not a title
    paragraph. *)
Lemma written_head (level : Z) (e : DocumentElement) (bs : list Block) :
  Writes level e bs ->
  exists b more, bs = b :: more /\ is_title_block b = None.
Proof.
  intros Hw.
  inversion Hw as [lv p0 E1 E2 E3 | lv t0 written Hread E1 E2 E3
                   | lv t0 i0 es0 bss Hl Hes E1 E2 E3]; subst;
    eexists; eexists; split; reflexivity.
Qed.

Lemma filter_chapters (ls cs : list DocumentElement) :
  forallb (fun e => negb (is_chapter e)) ls = true ->
  forallb is_chapter cs = true ->
  filter is_chapter (ls ++ cs) = cs.
Proof.
  intros Hls Hcs. rewrite filter_app.
  replace (filter is_chapter ls) with (@nil DocumentElement).
  - cbn [app]. now apply filter_all.
  - induction ls as [| e ls IH]; [reflexivity |].
    cbn [forallb] in Hls. apply andb_prop in Hls as [He Hls].
    cbn [filter]. apply negb_true_iff in He. rewrite He. auto.
Qed.

Lemma iter_block_items_saved (blocks : list Block) (type_name : string) :
  forallb is_block blocks = true ->
  iter_block_items (blocks ++ [BOther type_name])
  = (blocks, [unknown_child type_name]).
Proof.
  induction blocks as [| child blocks IH]; [reflexivity |].
  cbn [forallb]. intros Hb. apply andb_prop in Hb as [Hc Hb].
  cbn [app iter_block_items]. rewrite (IH Hb).
  destruct child; [reflexivity | reflexivity | discriminate Hc].
Qed.

Section WordRoundTrip.

Context `{FloatParser}.

(** X15: a document written by [Document.to_word] and read by
    [Document.from_word] from the saved file.  The one warning of
    [iter_block_items] for the section properties of the body is logged, and
    the warning for a missing title when the title is blank; the title comes
    back as read and stripped (the default title if that is empty), and so
    do the chapters, equal to the ones written up to chapter ids, to the
    reading and stripping of titles and texts and to what a Word table
    keeps; paragraphs and tables outside every chapter are lost.  This
    holds when no paragraph is blank, every table has a column and, in the
    document and in every chapter, paragraphs and tables come before the
    chapters. *)
Theorem word_round_trip (d : Document) (st : WordState) (fuel : nat) :
  Document_to_word d = Ok st ->
  leaves_first (doc_elements d) = true ->
  forallb word_safe (doc_elements d) = true ->
  3 <= fuel ->
  exists chapters,
    Document_from_word fuel (saved_body (ws_docx st))
    = Some (titled_document (Some (word_text (doc_title d))) chapters
              [unknown_child section_properties_type])
    /\ map forget_ids (map of_chapter chapters)
       = map forget_ids
           (map word_element (filter is_chapter (doc_elements d))).
Proof.
  destruct d as [t es]. cbn [doc_title doc_elements].
  intros Hto Hfirst Hsafe Hfuel.
  unfold Document_to_word in Hto. cbn [doc_title doc_elements] in Hto.
  assert (Hhead : add_heading t 0 []
                  = if xml_compatible t
                    then Ok [BParagraph (mkDocxParagraph "Title" t)]
                    else Raise ValueError) by reflexivity.
  rewrite Hhead in Hto. destruct (xml_compatible t); [| discriminate Hto].
  cbn [bind] in Hto.
  assert (Hall : Forall appends_written es)
    by (apply Forall_forall; intros e _; apply element_written).
  destruct (elements_written es Hall 1%Z _ st ltac:(lia) Hsafe Hto)
    as (wss & Hdocx & Hws).
  cbn [ws_docx app] in Hdocx.
  remember (map (map block_as_read) wss) as bss eqn:Ebss.
  set (title_block := BParagraph (mkDocxParagraph "Title" (text_as_read t))).
  assert (Hbody : saved_body (ws_docx st)
                  = (title_block :: concat bss)
                    ++ [BOther section_properties_type]).
  { rewrite Hdocx. unfold saved_body. cbn [map].
    now rewrite concat_map, <- Ebss. }
  rewrite Hbody. clear Hbody Ebss Hdocx Hto. unfold Document_from_word.
  rewrite iter_block_items_saved
    by (cbn [forallb is_block title_block andb];
        exact (written_blocks_all _ _ _ Hws)).
  set (blocks := title_block :: concat bss).
  set (log0 := [unknown_child section_properties_type]).
  destruct fuel as [| [| [| fuel]]]; try lia.
  erewrite doc_loop_title by reflexivity.
  cbn [par_text].
  destruct (leaves_first_split es Hfirst) as (ls & cs & -> & Hls & Hcs).
  rewrite filter_chapters by assumption.
  rewrite forallb_app in Hsafe. apply andb_prop in Hsafe as [Hsl Hsc].
  apply Forall2_app_inv_l in Hws as (lbss & cbss & Hwl & Hwc & ->).
  assert (Hsk : skipn 1 blocks = concat lbss ++ concat cbss ++ [])
    by (unfold blocks; cbn [skipn]; now rewrite app_nil_r, concat_app).
  assert (Hread : Forall chapter_read_back cs)
    by (apply Forall_forall; intros e _; apply chapter_reads_back_from_word).
  destruct (chapters_read blocks 1 cs cbss Hwc Hread Hcs Hsc
              (1 + length (concat lbss)) [] [] None log0
              (skipn_past _ _ _ _ Hsk) eq_refl)
    as (chapters & Hchapters & Hrun).
  exists chapters. split; [| exact Hchapters].
  apply (leaves_read blocks 1 1 ls lbss Hwl Hls Hsl 1 _ [] None log0 _ Hsk)
    in Hrun.
  destruct Hrun as [fuel' Hrun].
  apply Chapter_from_word_any_fuel in Hrun.
  cbn [close_out app] in Hrun.
  assert (Hlen : 1 + length (concat lbss) + length (concat cbss)
                 = length blocks).
  { unfold blocks. cbn [length]. now rewrite concat_app, length_app. }
  rewrite Hlen in Hrun.
  destruct (concat (lbss ++ cbss)) as [| b more] eqn:Hbs.
  - (* nothing was written after the title *)
    assert (chapters = []) as ->.
    { unfold Chapter_from_word, enough_fuel in Hrun. fold blocks in Hrun.
      replace (2 * (length blocks - 1) + 2)
        with (S (2 * (length blocks - 1) + 1)) in Hrun by lia.
      rewrite loop_end in Hrun by reflexivity.
      now injection Hrun as <-. }
    rewrite doc_loop_exit by reflexivity.
    cbn [ds_title ds_chapters ds_log]. unfold titled_document, word_text.
    destruct (Py.strip (text_as_read t)); reflexivity.
  - assert (Hb : is_title_block b = None).
    { destruct Hwl as [| l lbs ls' lbss' Hwl1 Hwl'].
      - destruct Hwc as [| c cbs cs' cbss' Hwc1 Hwc']; [discriminate Hbs |].
        destruct (written_head _ _ _ Hwc1) as (b' & more' & -> & Hb').
        cbn [app concat] in Hbs. now injection Hbs as <- _.
      - destruct (written_head _ _ _ Hwl1) as (b' & more' & -> & Hb').
        cbn [app concat] in Hbs. now injection Hbs as <- _. }
    erewrite doc_loop_chapters; [| reflexivity | exact Hb | exact Hrun].
    cbn [res_index res_chapters res_log app].
    rewrite doc_loop_exit by (apply nth_error_None; lia).
    cbn [ds_title ds_chapters ds_log]. unfold titled_document, word_text.
    destruct (Py.strip (text_as_read t)); reflexivity.
Qed.

End WordRoundTrip.

Lemma word_round_trip_witness :
  exists chapters,
    Document_from_word 3 (saved_body word_document_flat)
    = Some (titled_document (Some (word_text "D")) chapters
              [unknown_child section_properties_type])
    /\ map forget_ids (map of_chapter chapters)
       = map forget_ids
           (map word_element (filter is_chapter (doc_elements word_document))).
Proof.
  exact (@word_round_trip RefFloatParser word_document
           (mkWordState word_document_flat []) 3
           ltac:(vm_compute; reflexivity) eq_refl eq_refl (le_n 3)).
Defined.

(** ** Chapter ids *)

Lemma str_of_nat_injective (n m : nat) :
  Py.str_of_nat n = Py.str_of_nat m -> n = m.
Proof.
  unfold Py.str_of_nat. intros E.
  apply (f_equal NilEmpty.uint_of_string) in E.
  rewrite !NilEmpty.usu in E. injection E as E.
  apply (f_equal Nat.of_uint) in E.
  now rewrite !Unsigned.of_to in E.
Qed.

Lemma chapter_id_injective (n m : nat) : chapter_id n = chapter_id m -> n = m.
Proof.
  unfold chapter_id. cbn [String.append]. intros E.
  injection E as E. now apply str_of_nat_injective.
Qed.

Lemma increasing_in_bounds (js : list nat) :
  forall lo hi,
    increasing_in lo hi js = true ->
    Forall (fun j => lo <= j < hi) js /\ NoDup js.
Proof.
  induction js as [| j js IH]; intros lo hi Hjs.
  - split; constructor.
  - cbn [increasing_in] in Hjs.
    apply andb_prop in Hjs as [Hj Hjs]. apply andb_prop in Hj as [Hlo Hhi].
    apply Nat.leb_le in Hlo. apply Nat.ltb_lt in Hhi.
    destruct (IH _ _ Hjs) as [Hall Hnd]. split.
    + constructor; [lia |].
      eapply Forall_impl; [| exact Hall]. cbn. intros k Hk. lia.
    + constructor; [| exact Hnd].
      intros Hin. rewrite Forall_forall in Hall.
      specialize (Hall _ Hin). lia.
Qed.

Lemma increasing_in_lower (js : list nat) (lo lo' hi : nat) :
  lo' <= lo ->
  increasing_in lo hi js = true -> increasing_in lo' hi js = true.
Proof.
  intros Hle. destruct js as [| j js]; [reflexivity |].
  cbn [increasing_in]. intros Hjs.
  apply andb_prop in Hjs as [Hj Hjs]. apply andb_prop in Hj as [Hlo Hhi].
  apply Nat.leb_le in Hlo. rewrite Hhi, Hjs.
  replace (lo' <=? j)%nat with true by (symmetry; apply Nat.leb_le; lia).
  reflexivity.
Qed.

Lemma increasing_in_app (js1 : list nat) :
  forall lo mid hi js2,
    lo <= mid -> mid <= hi ->
    increasing_in lo mid js1 = true ->
    increasing_in mid hi js2 = true ->
    increasing_in lo hi (js1 ++ js2) = true.
Proof.
  induction js1 as [| j js1 IH]; intros lo mid hi js2 Hlm Hmh H1 H2.
  - cbn [app]. eapply increasing_in_lower; eauto.
  - cbn [increasing_in app] in *.
    apply andb_prop in H1 as [Hj H1]. apply andb_prop in Hj as [Hlo Hhi].
    apply Nat.ltb_lt in Hhi. rewrite Hlo.
    replace (j <? hi)%nat with true by (symmetry; apply Nat.ltb_lt; lia).
    cbn [andb]. apply (IH (S j) mid hi js2); auto; lia.
Qed.

Lemma ids_none (lo hi : nat) : ids_from_indices lo hi [].
Proof. exists []. auto. Qed.

Lemma ids_append (lo mid hi : nat) (ids1 ids2 : list string) :
  lo <= mid -> mid <= hi ->
  ids_from_indices lo mid ids1 ->
  ids_from_indices mid hi ids2 ->
  ids_from_indices lo hi (ids1 ++ ids2).
Proof.
  intros Hlm Hmh (js1 & -> & H1) (js2 & -> & H2).
  exists (js1 ++ js2). split; [now rewrite map_app |].
  eapply increasing_in_app; eauto.
Qed.

Lemma ids_later (lo hi hi' : nat) (ids : list string) :
  lo <= hi -> hi <= hi' ->
  ids_from_indices lo hi ids -> ids_from_indices lo hi' ids.
Proof.
  intros Hl Hh Hids. rewrite <- (app_nil_r ids).
  eapply ids_append; eauto. apply ids_none.
Qed.

Lemma ids_one (i : nat) : ids_from_indices i (S i) [chapter_id i].
Proof.
  exists [i]. split; [reflexivity |].
  cbn [increasing_in]. rewrite Nat.leb_refl.
  replace (i <? S i)%nat with true by (symmetry; apply Nat.ltb_lt; lia).
  reflexivity.
Qed.

Lemma ids_distinct (lo hi : nat) (ids : list string) :
  ids_from_indices lo hi ids -> NoDup ids.
Proof.
  intros (js & -> & Hjs).
  apply increasing_in_bounds in Hjs as [_ Hnd].
  induction Hnd as [| j js Hj Hnd IH]; cbn [map]; constructor; auto.
  intros Hin. apply in_map_iff in Hin as (k & Hk & Hin).
  apply chapter_id_injective in Hk. now subst.
Qed.

Lemma ids_of_app (chs chs' : list Chapter) :
  ids_of (chs ++ chs') = ids_of chs ++ ids_of chs'.
Proof. unfold ids_of. now rewrite map_app, flat_map_app. Qed.

Lemma ids_of_extend (chs : list Chapter) (cur : option Chapter)
    (es : list DocumentElement) :
  ids_of (close_out chs (extend_current cur es))
  = ids_of (close_out chs cur)
    ++ match cur with Some _ => flat_map chapter_ids es | None => [] end.
Proof.
  destruct cur as [[t i es0] |]; cbn [close_out extend_current].
  - rewrite !ids_of_app, <- app_assoc. f_equal.
    unfold ids_of. cbn [map flat_map of_chapter title id_ elements chapter_ids].
    rewrite !app_nil_r, flat_map_app. reflexivity.
  - now rewrite app_nil_r.
Qed.

(** The ids of the chapters the loop holds are those of increasing block
    indices below the current index, and remain so up to the result. *)
Lemma loop_ids (fuel : nat) :
  forall paragraphs level st r lo,
    from_word_loop fuel paragraphs level st = Some r ->
    lo <= st_index st ->
    ids_from_indices lo (st_index st)
      (ids_of (close_out (st_chapters st) (st_current st))) ->
    lo <= res_index r
    /\ ids_from_indices lo (res_index r) (ids_of (res_chapters r)).
Proof.
  induction fuel as [| fuel IH];
    intros paragraphs level [i chs cur log] r lo H Hlo Hids; [discriminate |].
  cbn [st_index st_chapters st_current] in *.
  block_cases paragraphs i level; loop_step_in H.
  - injection H as <-. cbn [res_index res_chapters]. auto.
  - apply IH with (lo := lo) in H; cbn [st_index st_chapters st_current];
      [exact H | lia |].
    change (close_out (close_out chs cur) (Some ?c))
      with (close_out chs cur ++ [c]).
    rewrite ids_of_app. eapply ids_append; [exact Hlo | | exact Hids |]; [lia |].
    unfold ids_of.
    cbn [map flat_map of_chapter Chapter_init title id_ elements chapter_ids app].
    apply ids_one.
  - destruct (from_word_loop fuel paragraphs l _) as [sub |] eqn:Hsub;
      [| discriminate].
    apply IH with (lo := i) in Hsub; cbn [st_index st_chapters st_current];
      [| lia | apply ids_none].
    destruct Hsub as [Hle Hsub].
    apply IH with (lo := lo) in H; cbn [st_index st_chapters st_current];
      [exact H | lia |].
    rewrite ids_of_extend. destruct cur as [c |].
    + eapply ids_append; [exact Hlo | exact Hle | exact Hids | exact Hsub].
    + rewrite app_nil_r. eapply ids_later; [| | exact Hids]; lia.
  - apply IH with (lo := lo) in H; cbn [st_index st_chapters st_current];
      [exact H | lia |].
    eapply ids_later; [| | exact Hids]; lia.
  - apply IH with (lo := lo) in H; cbn [st_index st_chapters st_current];
      [exact H | lia |].
    assert (Hsame : ids_of (close_out chs
                       (if Py.truthy (Py.strip (par_text p))
                        then extend_current cur
                               [EParagraph (Paragraph_from_word p)]
                        else cur))
                    = ids_of (close_out chs cur)).
    { destruct (Py.truthy _); [| reflexivity].
      rewrite ids_of_extend. destruct cur; cbn; now rewrite app_nil_r. }
    rewrite Hsame. eapply ids_later; [| | exact Hids]; lia.
  - apply IH with (lo := lo) in H; cbn [st_index st_chapters st_current];
      [exact H | lia |].
    rewrite ids_of_extend.
    replace (match cur with Some _ => flat_map chapter_ids _ | None => [] end)
      with (@nil string) by (destruct cur; reflexivity).
    rewrite app_nil_r. eapply ids_later; [| | exact Hids]; lia.
  - apply IH with (lo := lo) in H; cbn [st_index st_chapters st_current];
      [exact H | lia |].
    eapply ids_later; [| | exact Hids]; lia.
  - injection H as <-. cbn [res_index res_chapters]. auto.
Qed.

Lemma Chapter_from_word_ids_from (paragraphs : list Block) (i : nat)
    (level : Z) (log : list LogRecord) (r : ParseResult) :
  Chapter_from_word paragraphs i level log = Some r ->
  i <= res_index r /\ ids_from_indices i (res_index r) (ids_of (res_chapters r)).
Proof.
  intros Hr. unfold Chapter_from_word in Hr.
  apply loop_ids with (lo := i) in Hr; cbn [st_index st_chapters st_current];
    [exact Hr | lia | apply ids_none].
Qed.

(** X16: the ids of the chapters a call of [Chapter.from_word] returns, at
    any depth and in document order, are [chapter-j] for strictly increasing
    block indices [j] between the index the call started at and the index
    it returns; they are therefore pairwise distinct. *)
Theorem Chapter_from_word_ids (paragraphs : list Block) (i : nat)
    (level : Z) (log : list LogRecord) :
  exists r,
    Chapter_from_word paragraphs i level log = Some r
    /\ ids_from_indices i (res_index r) (ids_of (res_chapters r))
    /\ NoDup (ids_of (res_chapters r)).
Proof.
  destruct (Chapter_from_word_returns paragraphs i level log) as [r Hr].
  exists r. split; [exact Hr |].
  apply Chapter_from_word_ids_from in Hr as [_ Hids].
  split; [exact Hids | exact (ids_distinct _ _ _ Hids)].
Qed.

Lemma doc_loop_ids (fuel : nat) :
  forall blocks st st',
    Document_from_word_loop fuel blocks st = Some st' ->
    ids_from_indices 0 (ds_index st) (ids_of (ds_chapters st)) ->
    ids_from_indices 0 (ds_index st') (ids_of (ds_chapters st')).
Proof.
  induction fuel as [| fuel IH]; intros blocks [i chs t log] st' H Hids;
    [discriminate |].
  cbn [ds_index ds_chapters] in Hids.
  destruct (nth_error blocks i) as [b |] eqn:E.
  - destruct (is_title_block b) as [p |] eqn:Hb.
    + rewrite (doc_loop_title _ _ _ _ _ _ b p E Hb) in H.
      apply IH in H; [exact H |]. cbn [ds_index ds_chapters].
      eapply ids_later; [| | exact Hids]; lia.
    + destruct (Chapter_from_word_returns blocks i 1 log) as [r Hr].
      rewrite (doc_loop_chapters _ _ _ _ _ _ b r E Hb Hr) in H.
      apply IH in H; [exact H |]. cbn [ds_index ds_chapters].
      apply Chapter_from_word_ids_from in Hr as [Hle Hr].
      rewrite ids_of_app.
      apply (ids_append 0 i (res_index r));
        [lia | exact Hle | exact Hids | exact Hr].
  - rewrite doc_loop_exit in H by exact E. now injection H as <-.
Qed.

(** X17: whenever [Document.from_word] returns, the ids of all chapters of
    the document, at any depth, are pairwise distinct. *)
Theorem Document_from_word_distinct_ids (fuel : nat) (body : DocxDocument)
    (d : Document) (log : list LogRecord) :
  Document_from_word fuel body = Some (d, log) ->
  NoDup (flat_map chapter_ids (doc_elements d)).
Proof.
  unfold Document_from_word.
  destruct (iter_block_items body) as [blocks log0].
  destruct (Document_from_word_loop fuel blocks _) as [st |] eqn:Hloop;
    [| discriminate].
  apply doc_loop_ids in Hloop; [| apply ids_none].
  apply ids_distinct in Hloop.
  destruct (ds_title st) as [[| c s] |]; intros E; injection E as <- _;
    exact Hloop.
Qed.

Lemma Document_from_word_distinct_ids_witness :
  NoDup (flat_map chapter_ids
           [EChapter "C" "chapter-1"
              [EParagraph (mkParagraph "Hi");
               ETable (mkTable [(Some "N", None)] [["v"]]);
               EChapter "S" "chapter-4" []]]).
Proof.
  exact (Document_from_word_distinct_ids 3 word_document_flat
           (mkDocument "D"
              [EChapter "C" "chapter-1"
                 [EParagraph (mkParagraph "Hi");
                  ETable (mkTable [(Some "N", None)] [["v"]]);
                  EChapter "S" "chapter-4" []]])
           [] eq_refl).
Defined.

(** ** How deep [to_word] can write *)

Section ToWordBounds.

Context `{FloatParser}.

Lemma elements_depth (es : list DocumentElement) (bound : nat) :
  Forall (fun e =>
            forall level st st',
              DocumentElement_to_word e level st = Ok st' ->
              is_chapter e = true ->
              (level + Z.of_nat (chapter_depth e) <= 10)%Z) es ->
  forall level st st',
    elements_to_word es level st = Ok st' ->
    (level + Z.of_nat bound = 10)%Z ->
    Forall (fun k => k <= bound) (map chapter_depth es).
Proof.
  induction 1 as [| e es He Hes IH]; intros level st st' Hto Hb;
    cbn [map]; constructor.
  - cbn [elements_to_word] in Hto.
    destruct (DocumentElement_to_word e level st) as [st1 |] eqn:E1;
      [| discriminate].
    destruct (is_chapter e) eqn:Hc.
    + specialize (He _ _ _ E1 eq_refl). lia.
    + destruct e; [discriminate Hc | |]; cbn [chapter_depth]; lia.
  - cbn [elements_to_word] in Hto.
    destruct (DocumentElement_to_word e level st) as [st1 |];
      [| discriminate].
    cbn [bind] in Hto. eapply IH; eauto.
Qed.

Lemma element_depth (e : DocumentElement) :
  forall level st st',
    DocumentElement_to_word e level st = Ok st' ->
    is_chapter e = true ->
    (level + Z.of_nat (chapter_depth e) <= 10)%Z.
Proof.
  induction e as [t i es IH | t | p] using DocumentElement_nested_ind;
    intros level st st' Hto Hc; try discriminate Hc.
  rewrite chapter_to_word_unfold in Hto.
  destruct (add_heading t level (ws_docx st)) as [docx |] eqn:Hh;
    [| discriminate].
  cbn [bind] in Hto.
  unfold add_heading in Hh.
  destruct ((0 <=? level) && (level <=? 9))%Z eqn:Hr; [| discriminate].
  apply andb_prop in Hr as [Hr0 Hr9].
  apply Z.leb_le in Hr0. apply Z.leb_le in Hr9.
  pose proof (elements_depth es (Z.to_nat (9 - level)) IH (level + 1)%Z _ _
                Hto ltac:(lia)) as Hall.
  apply list_max_le in Hall.
  cbn [chapter_depth]. lia.
Qed.

(** X18: [Document.to_word] writes no document that nests chapters more than
    nine deep: when it returns, every top-level element has at most nine
    chapter levels (a tenth level would need the heading level 10, which
    [add_heading] refuses). *)
Theorem to_word_depth (d : Document) (st : WordState) :
  Document_to_word d = Ok st ->
  Forall (fun e => chapter_depth e <= 9) (doc_elements d).
Proof.
  unfold Document_to_word. intros Hto.
  destruct (add_heading (doc_title d) 0 []) as [docx |];
    [| discriminate Hto].
  cbn [bind] in Hto.
  assert (Hall : Forall (fun e =>
                   forall level st st',
                     DocumentElement_to_word e level st = Ok st' ->
                     is_chapter e = true ->
                     (level + Z.of_nat (chapter_depth e) <= 10)%Z)
                   (doc_elements d))
    by (apply Forall_forall; intros e _; apply element_depth).
  pose proof (elements_depth _ 9 Hall 1%Z _ _ Hto eq_refl) as Hd.
  now rewrite Forall_map in Hd.
Qed.

(** X19: [to_word] only appends: the blocks and the diagnostics that were
    there before the call are still there, in place, after it. *)
Theorem to_word_appends (e : DocumentElement) :
  forall level st st',
    DocumentElement_to_word e level st = Ok st' ->
    exists blocks records,
      ws_docx st' = ws_docx st ++ blocks /\ ws_log st' = ws_log st ++ records.
Proof.
  induction e as [t i es IH | [cols data] | p] using DocumentElement_nested_ind;
    intros level st st' Hto.
  - rewrite chapter_to_word_unfold in Hto.
    destruct (add_heading t level (ws_docx st)) as [docx |] eqn:Hh;
      [| discriminate].
    cbn [bind] in Hto.
    assert (Hdocx : exists b, docx = ws_docx st ++ [b]).
    { unfold add_heading in Hh.
      destruct ((0 <=? level) && (level <=? 9))%Z; [| discriminate].
      destruct (xml_compatible t); [| discriminate].
      injection Hh as <-. eauto. }
    destruct Hdocx as [b ->].
    assert (Hes : forall s s',
               elements_to_word es (level + 1) s = Ok s' ->
               exists blocks records,
                 ws_docx s' = ws_docx s ++ blocks
                 /\ ws_log s' = ws_log s ++ records).
    { clear Hto. induction IH as [| e es He Hes IHes]; intros s s' Hto;
        cbn [elements_to_word] in Hto.
      - injection Hto as <-. exists [], []. now rewrite !app_nil_r.
      - destruct (DocumentElement_to_word e (level + 1) s) as [s1 |] eqn:E1;
          [| discriminate].
        cbn [bind] in Hto.
        destruct (He _ _ _ E1) as (b1 & r1 & Hb1 & Hr1).
        destruct (IHes _ _ Hto) as (b2 & r2 & Hb2 & Hr2).
        exists (b1 ++ b2), (r1 ++ r2).
        rewrite Hb2, Hr2, Hb1, Hr1, !app_assoc. auto. }
    destruct (Hes _ _ Hto) as (blocks & records & Hb & Hr).
    cbn [ws_docx ws_log] in Hb, Hr.
    exists (b :: blocks), records. rewrite Hb, Hr, <- app_assoc. auto.
  - cbn [DocumentElement_to_word] in Hto. unfold Table_to_word in Hto.
    cbn [columns rows] in Hto. destruct cols as [| column cols].
    + injection Hto as <-. cbn [ws_docx ws_log].
      exists [], [no_columns]. now rewrite app_nil_r.
    + destruct (header_cells (column :: cols) (ws_log st))
        as [[header log'] |] eqn:Hhdr; [| discriminate].
      cbn [bind fst snd] in Hto. injection Hto as <-.
      apply header_cells_ok in Hhdr as [_ [more ->]].
      cbn [ws_docx ws_log]. eauto.
  - cbn [DocumentElement_to_word] in Hto.
    unfold Paragraph_to_word, add_paragraph in Hto.
    destruct (xml_compatible (text p)); [| discriminate].
    cbn [bind] in Hto. injection Hto as <-. cbn [ws_docx ws_log].
    exists [BParagraph (mkDocxParagraph "Normal" (text p))], [].
    now rewrite app_nil_r.
Qed.

End ToWordBounds.

Lemma to_word_depth_witness :
  Forall (fun e => chapter_depth e <= 9) (doc_elements word_document).
Proof.
  exact (@to_word_depth RefFloatParser word_document
           (mkWordState word_document_flat [])
           ltac:(vm_compute; reflexivity)).
Defined.

Lemma to_word_appends_witness :
  exists blocks records,
    ws_docx (mkWordState [plain "old"; plain "new"] [])
    = ws_docx (mkWordState [plain "old"] []) ++ blocks
    /\ ws_log (mkWordState [plain "old"; plain "new"] [])
       = ws_log (mkWordState [plain "old"] []) ++ records.
Proof.
  exact (@to_word_appends RefFloatParser (EParagraph (mkParagraph "new")) 1
           (mkWordState [plain "old"] [])
           (mkWordState [plain "old"; plain "new"] []) eq_refl).
Defined.

(** ** The same path as input and output *)

Section SamePath.

Context `{ElementTreeLib} `{FloatParser}.

(** X20: given one existing path as both input and output, the task removes
    the file before reading it: it raises FileNotFoundError and the file is
    gone, whatever it held. *)
Theorem create_word_from_x2doc_same_path (fs : FileSystem) (path : string)
    (data : FileData) :
  fs path = Some data ->
  let run := create_word_from_x2doc fs path path in
  run_result run = Raise FileNotFoundError
  /\ run_fs run path = None
  /\ forall other, String.eqb other path = false ->
                   run_fs run other = fs other.
Proof.
  intros Hin. unfold create_word_from_x2doc, exists_. rewrite Hin.
  cbn [negb]. unfold read_text, remove. rewrite String.eqb_refl.
  cbn [run_result run_fs]. refine (conj eq_refl (conj _ _)).
  - now rewrite String.eqb_refl.
  - intros other Ho. now rewrite Ho.
Qed.

End SamePath.

Lemma create_word_from_x2doc_same_path_witness :
  run_result (@create_word_from_x2doc RefElementTree RefFloatParser
                ready_fs "in.x2doc" "in.x2doc") = Raise FileNotFoundError
  /\ run_fs (@create_word_from_x2doc RefElementTree RefFloatParser
               ready_fs "in.x2doc" "in.x2doc") "in.x2doc" = None
  /\ forall other,
       String.eqb other "in.x2doc" = false ->
       run_fs (@create_word_from_x2doc RefElementTree RefFloatParser
                 ready_fs "in.x2doc" "in.x2doc") other = ready_fs other.
Proof.
  exact (@create_word_from_x2doc_same_path RefElementTree RefFloatParser
           ready_fs "in.x2doc" _ eq_refl).
Defined.

(** ** What [from_word] never returns *)

Lemma word_shaped_close_out chs cur :
  forallb chapter_word_shaped chs = true ->
  match cur with Some c => chapter_word_shaped c = true | None => True end ->
  forallb chapter_word_shaped (close_out chs cur) = true.
Proof.
  intros Hchs Hcur. destruct cur as [c |]; cbn [close_out]; [| exact Hchs].
  rewrite forallb_app, Hchs. cbn [forallb]. now rewrite Hcur.
Qed.

Lemma word_shaped_extend cur es :
  match cur with Some c => chapter_word_shaped c = true | None => True end ->
  forallb word_shaped es = true ->
  match extend_current cur es with
  | Some c => chapter_word_shaped c = true
  | None => True
  end.
Proof.
  destruct cur as [[t i els] |]; cbn [extend_current]; [| auto].
  unfold chapter_word_shaped, of_chapter.
  cbn [word_shaped title id_ elements]. intros Hc Hes.
  now rewrite forallb_app, Hc, Hes.
Qed.

Lemma word_shaped_of_chapters chs :
  forallb chapter_word_shaped chs = true ->
  forallb word_shaped (map of_chapter chs) = true.
Proof.
  intros Hc. rewrite forallb_forall in *. intros e He.
  apply in_map_iff in He as (c & <- & Hin). now apply Hc.
Qed.

Lemma word_shaped_table (t : DocxTable) :
  word_shaped (ETable (Table_from_word t)) = true.
Proof.
  unfold Table_from_word. destruct (table_rows t) as [| header data];
    cbn [word_shaped columns]; [reflexivity |].
  induction header as [| cell header IH]; [reflexivity |].
  cbn [map forallb named_only andb]. exact IH.
Qed.

Lemma loop_word_shaped (fuel : nat) :
  forall paragraphs level st r,
    from_word_loop fuel paragraphs level st = Some r ->
    forallb chapter_word_shaped (st_chapters st) = true ->
    match st_current st with
    | Some c => chapter_word_shaped c = true
    | None => True
    end ->
    forallb chapter_word_shaped (res_chapters r) = true.
Proof.
  induction fuel as [| fuel IH];
    intros paragraphs level [i chs cur log] r H Hchs Hcur; [discriminate |].
  cbn [st_chapters st_current] in *.
  block_cases paragraphs i level; loop_step_in H;
    try (injection H as <-; cbn [res_chapters];
         now apply word_shaped_close_out);
    try (apply IH in H; [exact H | |];
         cbn [st_chapters st_current]; auto;
         first [ now apply word_shaped_close_out
               | reflexivity ]; fail).
  - destruct (from_word_loop fuel paragraphs l _) as [sub |] eqn:Hsub;
      [| discriminate].
    apply IH in Hsub; cbn [st_chapters st_current]; auto.
    apply IH in H; [exact H | |]; cbn [st_chapters st_current]; auto.
    apply word_shaped_extend; auto. now apply word_shaped_of_chapters.
  - apply IH in H; [exact H | |]; cbn [st_chapters st_current]; auto.
    destruct (Py.truthy _) eqn:Ht; auto.
    apply word_shaped_extend; auto.
    unfold Paragraph_from_word, Paragraph_init.
    cbn [forallb word_shaped text]. now rewrite Ht.
  - apply IH in H; [exact H | |]; cbn [st_chapters st_current]; auto.
    apply word_shaped_extend; auto.
    cbn [forallb]. now rewrite word_shaped_table.
Qed.

Lemma doc_loop_word_shaped (fuel : nat) :
  forall blocks st st',
    Document_from_word_loop fuel blocks st = Some st' ->
    forallb chapter_word_shaped (ds_chapters st) = true ->
    forallb chapter_word_shaped (ds_chapters st') = true.
Proof.
  induction fuel as [| fuel IH]; intros blocks [i chs t log] st' H Hchs;
    [discriminate |].
  cbn [ds_chapters] in Hchs.
  destruct (nth_error blocks i) as [b |] eqn:E.
  - destruct (is_title_block b) as [p |] eqn:Hb.
    + rewrite (doc_loop_title _ _ _ _ _ _ b p E Hb) in H.
      apply IH in H; [exact H |]. exact Hchs.
    + destruct (Chapter_from_word_returns blocks i 1 log) as [r Hr].
      rewrite (doc_loop_chapters _ _ _ _ _ _ b r E Hb Hr) in H.
      apply IH in H; [exact H |]. cbn [ds_chapters].
      rewrite forallb_app, Hchs. cbn [andb].
      unfold Chapter_from_word in Hr.
      eapply loop_word_shaped; [exact Hr | reflexivity | exact I].
  - rewrite doc_loop_exit in H by exact E. now injection H as <-.
Qed.

(** X21: whenever [Document.from_word] returns, the document holds no
    paragraph with an empty text, at any depth, and every column of every
    table in it has a name and no width. *)
Theorem Document_from_word_shaped (fuel : nat) (body : DocxDocument)
    (d : Document) (log : list LogRecord) :
  Document_from_word fuel body = Some (d, log) ->
  forallb word_shaped (doc_elements d) = true.
Proof.
  unfold Document_from_word.
  destruct (iter_block_items body) as [blocks log0].
  destruct (Document_from_word_loop fuel blocks _) as [st |] eqn:Hloop;
    [| discriminate].
  apply doc_loop_word_shaped in Hloop; [| reflexivity].
  apply word_shaped_of_chapters in Hloop.
  destruct (ds_title st) as [[| c s] |]; intros E; injection E as <- _;
    exact Hloop.
Qed.

Lemma Document_from_word_shaped_witness :
  forallb word_shaped
    [EChapter "A" "chapter-1" [EParagraph (mkParagraph "x")]] = true.
Proof.
  exact (Document_from_word_shaped 3
           [BParagraph (mkDocxParagraph "Title" "T"); heading "1" "A";
            plain "   "; plain " x "]
           (mkDocument "T"
              [EChapter "A" "chapter-1" [EParagraph (mkParagraph "x")]])
           [] eq_refl).
Defined.

(** ** When [to_word] cannot fail *)

Section ToWordSucceeds.

Context `{FloatParser}.

Lemma header_cells_named (cols : list (option string * option string)) :
  forall log,
    forallb named_only cols = true ->
    exists cells, header_cells cols log = Ok (cells, log).
Proof.
  induction cols as [| [[name |] [width |]] cols IH]; intros log Hc;
    cbn [forallb named_only andb] in Hc; try discriminate Hc.
  - exists []. reflexivity.
  - destruct (IH log Hc) as [cells Hcells].
    exists (mkDocxCell name None :: cells).
    cbn [header_cells header_cell bind fst snd]. now rewrite Hcells.
Qed.

Lemma elements_succeed (es : list DocumentElement) :
  Forall (fun e =>
            forall level st,
              word_shaped e = true ->
              writable e = true ->
              (0 <= level)%Z ->
              (level + Z.of_nat (chapter_depth e) <= 10)%Z ->
              exists st', DocumentElement_to_word e level st = Ok st') es ->
  forall level st,
    forallb word_shaped es = true ->
    forallb writable es = true ->
    (0 <= level)%Z ->
    Forall (fun e => (level + Z.of_nat (chapter_depth e) <= 10)%Z) es ->
    exists st', elements_to_word es level st = Ok st'.
Proof.
  induction 1 as [| e es He Hes IH]; intros level st Hs Hw Hl Hd;
    cbn [elements_to_word].
  - eauto.
  - cbn [forallb] in Hs, Hw.
    apply andb_prop in Hs as [Hse Hs]. apply andb_prop in Hw as [Hwe Hw].
    inversion Hd as [| e0 es0 Hde Hds]; subst.
    destruct (He level st Hse Hwe Hl Hde) as [st1 ->]. cbn [bind].
    now apply IH.
Qed.

Lemma element_succeeds (e : DocumentElement) :
  forall level st,
    word_shaped e = true ->
    writable e = true ->
    (0 <= level)%Z ->
    (level + Z.of_nat (chapter_depth e) <= 10)%Z ->
    exists st', DocumentElement_to_word e level st = Ok st'.
Proof.
  induction e as [t i es IH | [cols data] | p] using DocumentElement_nested_ind;
    intros level st Hs Hw Hl Hd.
  - rewrite chapter_to_word_unfold.
    cbn [chapter_depth word_shaped writable] in Hd, Hs, Hw.
    apply andb_prop in Hw as [Ht Hw].
    unfold add_heading.
    replace ((0 <=? level) && (level <=? 9))%Z with true
      by (symmetry; apply andb_true_intro; split; apply Z.leb_le; lia).
    rewrite Ht. cbn [bind].
    apply (elements_succeed es IH); [exact Hs | exact Hw | lia |].
    assert (Hmax : Forall (fun k => k <= list_max (map chapter_depth es))
                     (map chapter_depth es))
      by (apply list_max_le; lia).
    rewrite Forall_map in Hmax.
    eapply Forall_impl; [| exact Hmax]. cbv beta. intros e He. lia.
  - cbn [DocumentElement_to_word word_shaped columns] in *.
    unfold Table_to_word. cbn [columns rows].
    destruct cols as [| column cols]; [eauto |].
    destruct (header_cells_named (column :: cols) (ws_log st) Hs)
      as [cells ->].
    cbn [bind]. eauto.
  - cbn [DocumentElement_to_word writable] in *.
    unfold Paragraph_to_word, add_paragraph. rewrite Hw. cbn [bind]. eauto.
Qed.

(** X22: [Document.to_word] returns on every document that nests chapters
    at most nine deep, whose table columns all have a name and no width (as
    in every document [Document.from_word] returns) and all of whose texts
    python-docx accepts, that is, hold no control character other than the
    tab, the line feed and the carriage return. *)
Theorem to_word_succeeds (d : Document) :
  forallb word_shaped (doc_elements d) = true ->
  Forall (fun e => chapter_depth e <= 9) (doc_elements d) ->
  xml_compatible (doc_title d) = true ->
  forallb writable (doc_elements d) = true ->
  exists st, Document_to_word d = Ok st.
Proof.
  intros Hs Hd Ht Hw. unfold Document_to_word.
  assert (Hhead : add_heading (doc_title d) 0 []
                  = if xml_compatible (doc_title d)
                    then Ok [BParagraph (mkDocxParagraph "Title" (doc_title d))]
                    else Raise ValueError) by reflexivity.
  rewrite Hhead, Ht. cbn [bind].
  apply (elements_succeed (doc_elements d)); [| exact Hs | exact Hw | lia |].
  - apply Forall_forall. intros e _. apply element_succeeds.
  - eapply Forall_impl; [| exact Hd]. cbv beta. intros e He. lia.
Qed.

End ToWordSucceeds.

Lemma to_word_succeeds_witness :
  exists st, @Document_to_word RefFloatParser read_document = Ok st.
Proof.
  exact (@to_word_succeeds RefFloatParser read_document eq_refl
           ltac:(repeat constructor) eq_refl eq_refl).
Defined.
